(** * NotifySNS: recipient classification, request signing, dispatch and
      response parsing of the AWS SNS notifier (apprise/plugins/NotifySNS.py)

    The development is a shallow embedding of the plugin.  Python [str]
    values are [string]s (sequences of bytes, UTF-8 encoded); the regular
    expressions of the module are kept as syntax trees and run by a
    backtracking matcher that follows Python's [re] (greedy repetition,
    named groups, [$] before a final newline) and reads a text byte by
    byte, which is character by character on ASCII texts: the statements
    on what the patterns refuse are about ASCII texts.  Objects that the
    code mutates (the recipient lists) live in a store of list objects;
    the clock and the HTTP transport are an explicit environment. *)

From Stdlib Require Import Ascii String ZArith Lia DecimalString.
From stdpp Require Import gmap strings list.

Set Warnings "-register-all".

Open Scope Z_scope.
Open Scope nat_scope.

(* ===================================================================== *)
(** * Part I: definitions                                                 *)
(* ===================================================================== *)

(** ** Text helpers (the pieces of Python's [str] that the plugin uses) *)

Module Py.

Abbreviation chars := list_ascii_of_string.
Abbreviation str := string_of_list_ascii.

(** [sep.join(parts)] *)
Fixpoint join (sep : string) (parts : list string) : string :=
  match parts with
  | [] => ""
  | [p] => p
  | p :: ps => p +:+ sep +:+ join sep ps
  end.

Definition is_upper (c : ascii) : bool :=
  (65 <=? nat_of_ascii c) && (nat_of_ascii c <=? 90).

Definition is_lower (c : ascii) : bool :=
  (97 <=? nat_of_ascii c) && (nat_of_ascii c <=? 122).

Definition is_digit (c : ascii) : bool :=
  (48 <=? nat_of_ascii c) && (nat_of_ascii c <=? 57).

(** The white space of Python 3's [str], by code point: what
    [str.isspace], [\s] and [str.strip] go by. *)
Definition white_space : list N :=
  [9; 10; 11; 12; 13; 28; 29; 30; 31; 32; 133; 160; 5760;
   8192; 8193; 8194; 8195; 8196; 8197; 8198; 8199; 8200; 8201; 8202;
   8232; 8233; 8239; 8287; 12288]%N.

(** [\s] on one character of an ASCII text: \t, \n, \v, \f, \r, the
    separators U+001C to U+001F and the space.  The white space beyond
    ASCII takes two or three bytes of a [string]; the matcher reads a
    text byte by byte, so the patterns are run on ASCII texts (see
    [ascii_text]). *)
Definition is_space (c : ascii) : bool :=
  ((9 <=? nat_of_ascii c) && (nat_of_ascii c <=? 13))
  || ((28 <=? nat_of_ascii c) && (nat_of_ascii c <=? 32)).

(** A text of ASCII characters only *)
Definition ascii_text (s : string) : bool :=
  forallb (λ c, nat_of_ascii c <? 128) (chars s).

Definition lower_char (c : ascii) : ascii :=
  if is_upper c then ascii_of_nat (nat_of_ascii c + 32) else c.

Definition upper_char (c : ascii) : ascii :=
  if is_lower c then ascii_of_nat (nat_of_ascii c - 32) else c.

(** [s.lower()] *)
Definition lower (s : string) : string := str (map lower_char (chars s)).

(** The UTF-8 encoding of a code point below U+10000 *)
Definition utf8 (cp : N) : list ascii :=
  if (cp <? 128)%N then [ascii_of_N cp]
  else if (cp <? 2048)%N then
    [ascii_of_N (192 + cp / 64); ascii_of_N (128 + cp mod 64)]
  else
    [ascii_of_N (224 + cp / 4096); ascii_of_N (128 + (cp / 64) mod 64);
     ascii_of_N (128 + cp mod 64)].

Definition starts_with (w l : list ascii) : bool :=
  bool_decide (take (length w) l = w).

(** One of the words [ws] is removed from the start of the text as long
    as there is one; at most [n] times. *)
Fixpoint strip_start (ws : list (list ascii)) (n : nat) (l : list ascii)
    : list ascii :=
  match n with
  | 0 => l
  | S n' =>
      match List.find (λ w, starts_with w l) ws with
      | Some w => strip_start ws n' (drop (length w) l)
      | None => l
      end
  end.

(** [s.lstrip()] and [s.rstrip()]: the white space characters, in their
    UTF-8 encoding, are removed from the start, and from the end. *)
Definition lstrip (l : list ascii) : list ascii :=
  strip_start (map utf8 white_space) (length l) l.

Definition rstrip (l : list ascii) : list ascii :=
  rev (strip_start (map (λ cp, rev (utf8 cp)) white_space) (length l) (rev l)).

(** [s.strip()] *)
Definition strip (s : string) : string := str (rstrip (lstrip (chars s))).

(** Python truthiness of a value that is [None] or a [str]. *)
Definition truthy (o : option string) : bool :=
  match o with
  | Some s => negb (String.eqb s "")
  | None => false
  end.

End Py.

(** ** Regular expressions, as Python's [re] runs them *)

Module Re.

Inductive re : Type :=
| Eps
| Chr (c : ascii)
| Cls (p : ascii → bool)
| Seq (r1 r2 : re)
| Opt (r : re)
| Star (r : re)
| Grp (name : string) (r : re)
| Bol
| Eol.

(** [r+] and [r{n}] *)
Definition Plus (r : re) : re := Seq r (Star r).

Fixpoint Rep (n : nat) (r : re) : re :=
  match n with
  | 0 => Eps
  | S n' => Seq r (Rep n' r)
  end.

(** A literal *)
Fixpoint Lit (l : list ascii) : re :=
  match l with
  | [] => Eps
  | c :: l' => Seq (Chr c) (Lit l')
  end.

(** The flag [re.I], on ASCII texts: a character matches when its lower
    case or its upper case does.  (On a [str] pattern Python 3 lets
    [[a-z]] also match U+0130, U+0131, U+017F and U+212A, which are no
    characters of an ASCII text.) *)
Fixpoint ignorecase (r : re) : re :=
  match r with
  | Chr c => Cls (λ x, bool_decide (Py.lower_char x = Py.lower_char c))
  | Cls p => Cls (λ x, p (Py.lower_char x) || p (Py.upper_char x))
  | Seq r1 r2 => Seq (ignorecase r1) (ignorecase r2)
  | Opt r1 => Opt (ignorecase r1)
  | Star r1 => Star (ignorecase r1)
  | Grp n r1 => Grp n (ignorecase r1)
  | Eps => Eps
  | Bol => Bol
  | Eol => Eol
  end.

(** Captured groups, the most recent binding first. *)
Definition groups : Type := list (string * list ascii).

(** A matcher gets the text still to read, the number of characters
    already read and the groups captured so far, and hands the same to
    its continuation; [None] makes the caller backtrack. *)
Definition cont (A : Type) : Type := list ascii → nat → groups → option A.

(** Greedy repetition: one more round of [body] first, the continuation
    second.  A round that reads nothing is refused, so [n], the length of
    the text at the start, bounds the number of rounds. *)
Fixpoint star_loop {A} (body : list ascii → nat → groups → cont A → option A)
    (n : nat) (s : list ascii) (i : nat) (g : groups) (k : cont A) : option A :=
  match n with
  | 0 => k s i g
  | S n' =>
      match body s i g (λ s' i' g',
              if decide (length s' < length s)
              then star_loop body n' s' i' g' k else None) with
      | Some a => Some a
      | None => k s i g
      end
  end.

Fixpoint exec {A} (r : re) (s : list ascii) (i : nat) (g : groups)
    (k : cont A) : option A :=
  match r with
  | Eps => k s i g
  | Chr c =>
      match s with
      | x :: s' => if decide (x = c) then k s' (S i) g else None
      | [] => None
      end
  | Cls p =>
      match s with
      | x :: s' => if p x then k s' (S i) g else None
      | [] => None
      end
  | Seq r1 r2 => exec r1 s i g (λ s' i' g', exec r2 s' i' g' k)
  | Opt r1 =>
      match exec r1 s i g k with
      | Some a => Some a
      | None => k s i g
      end
  | Star r1 => star_loop (exec r1) (length s) s i g k
  | Grp name r1 =>
      exec r1 s i g (λ s' i' g', k s' i' ((name, take (i' - i) s) :: g'))
  | Bol => if decide (i = 0) then k s i g else None
  | Eol =>
      (* end of the text, or just before a newline that ends the text *)
      match s with
      | [] => k s i g
      | [c] => if decide (c = "010"%char) then k s i g else None
      | _ => None
      end
  end.

(** [pattern.match(s)]: the groups of the first successful run from the
    start of [s], or [None]. *)
Definition match_ (r : re) (s : string) : option groups :=
  exec r (Py.chars s) 0 [] (λ _ _ g, Some g).

(** [m.group(name)] *)
Definition group (m : groups) (name : string) : string :=
  match list_find (λ b, b.1 = name) m with
  | Some (_, (_, v)) => Py.str v
  | None => ""
  end.

(** Leftmost non-empty match at or after the current position: the text
    before it, the matched text and the text after it.  (No pattern of
    this module matches the empty string.) *)
Fixpoint find_first (r : re) (s : list ascii) (i : nat)
    : option (list ascii * list ascii * list ascii) :=
  match exec r s i [] (λ s' i' _, if decide (i < i') then Some (s', i') else None) with
  | Some (s', i') => Some ([], take (i' - i) s, s')
  | None =>
      match s with
      | [] => None
      | c :: s' =>
          match find_first r s' (S i) with
          | Some (pre, m, post) => Some (c :: pre, m, post)
          | None => None
          end
      end
  end.

(** [re.findall(r, s)] for a pattern without groups *)
Fixpoint findall_from (fuel : nat) (r : re) (s : list ascii) (i : nat)
    : list string :=
  match fuel with
  | 0 => []
  | S fuel' =>
      match find_first r s i with
      | Some (pre, m, post) =>
          Py.str m :: findall_from fuel' r post (i + length pre + length m)
      | None => []
      end
  end.

Definition findall (r : re) (s : string) : list string :=
  findall_from (String.length s) r (Py.chars s) 0.

(** [pattern.split(s)] *)
Fixpoint split_from (fuel : nat) (r : re) (s : list ascii) (i : nat)
    : list string :=
  match fuel with
  | 0 => [Py.str s]
  | S fuel' =>
      match find_first r s i with
      | Some (pre, m, post) =>
          Py.str pre :: split_from fuel' r post (i + length pre + length m)
      | None => [Py.str s]
      end
  end.

Definition split (r : re) (s : string) : list string :=
  split_from (String.length s) r (Py.chars s) 0.

(** [re.sub(r, '', s, count=1)] *)
Definition sub1_empty (r : re) (s : string) : string :=
  match find_first r (Py.chars s) 0 with
  | Some (pre, _, post) => Py.str (pre ++ post)
  | None => s
  end.

End Re.

(** ** The patterns of the module *)

(** [[0-9\s)(+-]] *)
Definition phone_class (c : ascii) : bool :=
  Py.is_digit c || Py.is_space c
  || bool_decide (c = ")"%char) || bool_decide (c = "("%char)
  || bool_decide (c = "+"%char) || bool_decide (c = "-"%char).

(** [[A-Za-z0-9_-]] *)
Definition topic_class (c : ascii) : bool :=
  Py.is_upper c || Py.is_lower c || Py.is_digit c
  || bool_decide (c = "_"%char) || bool_decide (c = "-"%char).

(** [[ \t\r\n,\\/]] *)
Definition delim_class (c : ascii) : bool :=
  bool_decide (c = " "%char) || bool_decide (c = "009"%char)
  || bool_decide (c = "013"%char) || bool_decide (c = "010"%char)
  || bool_decide (c = ","%char) || bool_decide (c = "092"%char)
  || bool_decide (c = "/"%char).

(** [IS_PHONE_NO = re.compile(r'^\+?(?P<phone>[0-9\s)(+-]+)\s*$')] *)
Definition IS_PHONE_NO : Re.re :=
  Re.Seq Re.Bol
    (Re.Seq (Re.Opt (Re.Chr "+"))
       (Re.Seq (Re.Grp "phone" (Re.Plus (Re.Cls phone_class)))
          (Re.Seq (Re.Star (Re.Cls Py.is_space)) Re.Eol))).

(** [IS_TOPIC = re.compile(r'^#?(?P<name>[A-Za-z0-9_-]+)\s*$')] *)
Definition IS_TOPIC : Re.re :=
  Re.Seq Re.Bol
    (Re.Seq (Re.Opt (Re.Chr "#"))
       (Re.Seq (Re.Grp "name" (Re.Plus (Re.Cls topic_class)))
          (Re.Seq (Re.Star (Re.Cls Py.is_space)) Re.Eol))).

(** [LIST_DELIM = re.compile(r'[ \t\r\n,\\/]+')] *)
Definition LIST_DELIM : Re.re := Re.Plus (Re.Cls delim_class).

(** [IS_REGION = re.compile(r'^\s*(?P<country>[a-z]{2})-(?P<area>[a-z]+)-(?P<no>[0-9]+)\s*$', re.I)] *)
Definition IS_REGION : Re.re :=
  Re.ignorecase
    (Re.Seq Re.Bol
       (Re.Seq (Re.Star (Re.Cls Py.is_space))
          (Re.Seq (Re.Grp "country" (Re.Rep 2 (Re.Cls Py.is_lower)))
             (Re.Seq (Re.Chr "-")
                (Re.Seq (Re.Grp "area" (Re.Plus (Re.Cls Py.is_lower)))
                   (Re.Seq (Re.Chr "-")
                      (Re.Seq (Re.Grp "no" (Re.Plus (Re.Cls Py.is_digit)))
                         (Re.Seq (Re.Star (Re.Cls Py.is_space)) Re.Eol)))))))).

(** [r'\d+'], the pattern of the digit runs *)
Definition DIGITS : Re.re := Re.Plus (Re.Cls Py.is_digit).

(** The double quote, and the pattern of the first argument of [re.sub]:
    a space, [xmlns=], a quoted non-empty run of characters other than the
    quote. *)
Definition dquote : ascii := "034"%char.

Definition XMLNS : Re.re :=
  Re.Seq (Re.Lit (Py.chars " xmlns="))
    (Re.Seq (Re.Chr dquote)
       (Re.Seq (Re.Plus (Re.Cls (λ c, negb (bool_decide (c = dquote)))))
          (Re.Chr dquote))).

(** ** Values, bytes and dates *)

(** A Python value of the kinds the plugin stores in its dictionaries. *)
Inductive pyval : Type :=
| PNone
| PInt (z : Z)
| PStr (s : string).

#[global] Instance pyval_eq_dec : EqDecision pyval.
Proof. solve_decision. Defined.

(** [dict] with [str] keys *)
Abbreviation dict := (gmap string pyval).

(** [not v] for a value taken from a dictionary with [.get] *)
Definition falsy (v : option pyval) : bool :=
  match v with
  | None | Some PNone => true
  | Some (PInt z) => bool_decide (z = 0%Z)
  | Some (PStr s) => bool_decide (s = "")
  end.

Abbreviation bytes := (list Byte.byte).

(** [s.encode('utf-8')]: a [string] is its own UTF-8 encoding. *)
Definition encode_utf8 (s : string) : bytes := list_byte_of_string s.

Definition hex_digit (n : nat) : ascii :=
  if n <? 10 then ascii_of_nat (48 + n) else ascii_of_nat (87 + n).

(** The lower-case hexadecimal form of a byte string ([hexdigest()]). *)
Fixpoint hexlify (b : bytes) : string :=
  match b with
  | [] => ""
  | x :: b' =>
      let n := Byte.to_nat x in
      String (hex_digit (n / 16)) (String (hex_digit (n mod 16)) (hexlify b'))
  end.

(** Decimal numerals: [str(n)] and zero padding to a width. *)
Definition str_of_nat (n : nat) : string :=
  NilEmpty.string_of_uint (Nat.to_uint n).

Definition str_of_Z (z : Z) : string :=
  match z with
  | Zneg p => "-" +:+ str_of_nat (Pos.to_nat p)
  | _ => str_of_nat (Z.to_nat z)
  end.

Fixpoint zeros (n : nat) : string :=
  match n with
  | 0 => ""
  | S n' => String "0" (zeros n')
  end.

Definition zero_pad (width n : nat) : string :=
  let s := str_of_nat n in
  zeros (width - String.length s) +:+ s.

(** [datetime], to the second *)
Record datetime : Type := {
  year : nat; month : nat; day : nat;
  hour : nat; minute : nat; second : nat
}.

(** [d.strftime(fmt)] for the directives the plugin uses; any other
    character of the format is copied. *)
Fixpoint strftime (d : datetime) (fmt : list ascii) : string :=
  match fmt with
  | "%"%char :: c :: fmt' =>
      (if decide (c = "Y"%char) then zero_pad 4 (year d)
       else if decide (c = "m"%char) then zero_pad 2 (month d)
       else if decide (c = "d"%char) then zero_pad 2 (day d)
       else if decide (c = "H"%char) then zero_pad 2 (hour d)
       else if decide (c = "M"%char) then zero_pad 2 (minute d)
       else if decide (c = "S"%char) then zero_pad 2 (second d)
       else String "%" (String c ""))
      +:+ strftime d fmt'
  | c :: fmt' => String c (strftime d fmt')
  | [] => ""
  end.

(** [ElementTree.Element]: tag, text (or [None]) and children *)
Inductive element : Type :=
| Element (tag : string) (text : option string) (children : list element).

(** ** What the plugin imports

    [hashlib], [hmac] and [xml.etree] are libraries, and [NotifyBase] is
    the base class of the plugin, in another file: their functions are
    the fields of this interface.  *)
Class Imports : Type := {
  (** [sha256(b).digest()] *)
  sha256_digest : bytes → bytes;
  (** [hmac.new(key, msg, sha256).digest()] *)
  hmac_sha256_digest : bytes → bytes → bytes;
  (** [ElementTree.fromstring(s)]; [None] is [ParseError] *)
  ElementTree_fromstring : string → option element;
  (** [NotifyBase.urlencode], over the items of the dictionary *)
  urlencode : list (string * string) → string;
  (** [NotifyBase.split_path] and [NotifyBase.unquote] *)
  split_path : string → list string;
  unquote : string → string;
  (** [HTTP_ERROR_MAP] of [NotifyBase] *)
  HTTP_ERROR_MAP : Z → option string;
}.

(** ** The environment, the store and the monad of the methods *)

Inductive exn : Type :=
| TypeError (msg : string)
| AttributeError (msg : string)
| IndexError (msg : string)
| ParseError.

(** What a method call comes to: a value, an exception that leaves the
    method, or a loop that was still running when its fuel ran out. *)
Inductive outcome (A : Type) : Type :=
| Ok (a : A)
| Raise (e : exn)
| Diverge.

Arguments Ok {A} a.
Arguments Raise {A} e.
Arguments Diverge {A}.

Inductive level : Type := DEBUG | INFO | WARNING.

(** What [requests.post] comes to: a response, or [RequestException]. *)
Inductive http_result : Type :=
| Response (status_code : Z) (text : string)
| RequestException (msg : string).

Record request : Type := {
  req_url : string;
  req_data : string;
  req_headers : dict;
  req_verify : bool
}.

(** What the outside sees of a notifier: the requests it posts and the
    pauses of [throttle()], in the order they happen. *)
Inductive event : Type :=
| EvPost (r : request)
| EvThrottle.

(** The outside: what the n-th call of [datetime.utcnow()] reads, and what
    the transport answers to a request, given all that happened before. *)
Record world : Type := {
  utcnow_at : nat → datetime;
  requests_post : list event → request → http_result
}.

Abbreviation loc := positive.

(** The list objects of the heap, the number of clock readings so far, the
    events so far and the lines logged so far. *)
Record state : Type := {
  heap : gmap loc (list string);
  clock : nat;
  trace : list event;
  log : list (level * string)
}.

(** Methods are state transformers that may raise; the state is the
    program state for the methods of the object, and the dictionary under
    construction for the tree walk of the response parser. *)
Definition ST (S A : Type) : Type := S → outcome A * S.

Abbreviation M := (ST state).

Definition ret {S A} (a : A) : ST S A := λ st, (Ok a, st).

Definition bind {S A B} (m : ST S A) (f : A → ST S B) : ST S B :=
  λ st,
    match m st with
    | (Ok a, st') => f a st'
    | (Raise e, st') => (Raise e, st')
    | (Diverge, st') => (Diverge, st')
    end.

Notation "'let*' x ':=' m 'in' k" := (bind m (λ x, k))
  (at level 10, x pattern, m at level 100, k at level 200).

Definition raise {S A} (e : exn) : ST S A := λ st, (Raise e, st).

Definition diverge {S A} : ST S A := λ st, (Diverge, st).

(** A pure computation that may raise *)
Definition lift {S A} (o : outcome A) : ST S A := λ st, (o, st).

(** [list()] and [list(l)]: a new list object *)
Definition new_list (v : list string) : M loc :=
  λ st,
    let l := fresh (dom (heap st)) in
    (Ok l, {| heap := <[l := v]> (heap st); clock := clock st;
              trace := trace st; log := log st |}).

Definition read_list (l : loc) : M (list string) :=
  λ st, (Ok (heap st !!! l), st).

(** [len(l)] *)
Definition len (l : loc) : M nat :=
  λ st, (Ok (length (heap st !!! l)), st).

(** [l.append(x)] *)
Definition append (l : loc) (x : string) : M unit :=
  λ st, (Ok tt, {| heap := <[l := heap st !!! l ++ [x]]> (heap st);
                  clock := clock st; trace := trace st; log := log st |}).

(** [l.pop(0)] *)
Definition pop0 (l : loc) : M string :=
  λ st,
    match heap st !!! l with
    | x :: v => (Ok x, {| heap := <[l := v]> (heap st); clock := clock st;
                          trace := trace st; log := log st |})
    | [] => (Raise (IndexError "pop from empty list"), st)
    end.

(** [self.logger.debug/info/warning(msg)] *)
Definition logger (lv : level) (msg : string) : M unit :=
  λ st, (Ok tt, {| heap := heap st; clock := clock st; trace := trace st;
                  log := log st ++ [(lv, msg)] |}).

(** [self.throttle()] *)
Definition throttle : M unit :=
  λ st, (Ok tt, {| heap := heap st; clock := clock st;
                  trace := trace st ++ [EvThrottle]; log := log st |}).

(** [datetime.utcnow()] *)
Definition utcnow (W : world) : M datetime :=
  λ st, (Ok (utcnow_at W (clock st)),
         {| heap := heap st; clock := S (clock st); trace := trace st;
            log := log st |}).

(** [requests.post(url, data=..., headers=..., verify=...)] *)
Definition post (W : world) (r : request) : M http_result :=
  λ st, (Ok (requests_post W (trace st) r),
         {| heap := heap st; clock := clock st;
            trace := trace st ++ [EvPost r]; log := log st |}).

(** ** The notifier *)

(** The attributes of a [NotifySNS] object.  [app_id] and
    [verify_certificate] are set by [NotifyBase.__init__]; [topics] and
    [phone] refer to list objects of the heap. *)
Record NotifySNS : Type := {
  app_id : string;
  verify_certificate : bool;
  topics : loc;
  phone : loc;
  aws_access_key_id : string;
  aws_secret_access_key : string;
  aws_region_name : string;
  notify_url : string;
  aws_service_name : string;
  aws_canonical_uri : string;
  aws_auth_version : string;
  aws_auth_algorithm : string;
  aws_auth_request : string
}.

(** The argument [recipients] of [__init__]: [None], a string, a list,
    tuple or set (in the order of its iteration), or anything else. *)
Inductive recipients_arg : Type :=
| RNone
| RStr (s : string)
| RSeq (l : list string)
| ROther.

(** [[x for x in filter(bool, LIST_DELIM.split(recipients))]] and the
    other three branches *)
Definition recipient_list (recipients : recipients_arg) : list string :=
  match recipients with
  | RNone => []
  | RStr s => filter (λ x, x ≠ "") (Re.split LIST_DELIM s)
  | RSeq l => l
  | ROther => []
  end.

(** [''.join(re.findall(r'\d+', result.group('phone')))] *)
Definition phone_digits (result : Re.groups) : string :=
  Py.join "" (Re.findall DIGITS (Re.group result "phone")).

(** The body of [for recipient in recipients] *)
Definition validate_recipient (self_phone self_topics : loc)
    (recipient : string) : M unit :=
  match Re.match_ IS_PHONE_NO recipient with
  | Some result =>
      let result := phone_digits result in
      if (String.length result <? 11) || (14 <? String.length result)
      then
        logger WARNING
          ("Dropped invalid phone # (" +:+ recipient +:+ ") specified.")
      else append self_phone ("+" +:+ result)
  | None =>
      match Re.match_ IS_TOPIC recipient with
      | Some result => append self_topics (Re.group result "name")
      | None =>
          logger WARNING
            ("Dropped invalid phone/topic (" +:+ recipient +:+ ") specified.")
      end
  end.

Fixpoint for_each {A} (l : list A) (body : A → M unit) : M unit :=
  match l with
  | [] => ret tt
  | x :: l' => let* _ := body x in for_each l' body
  end.

(** [NotifySNS.__init__(self, access_key_id, secret_access_key,
    region_name, recipients=None, **kwargs)]; the two first arguments
    stand for what [NotifyBase.__init__] stores from [kwargs]. *)
Definition __init__ (base_app_id : string) (base_verify_certificate : bool)
    (access_key_id secret_access_key region_name : option string)
    (recipients : recipients_arg) : M NotifySNS :=
  if negb (Py.truthy access_key_id) then
    raise (TypeError "An invalid AWS Access Key ID was specified.")
  else if negb (Py.truthy secret_access_key) then
    raise (TypeError "An invalid AWS Secret Access Key was specified.")
  else if negb (Py.truthy region_name
                && bool_decide (is_Some (Re.match_ IS_REGION (default "" region_name))))
  then
    raise (TypeError "An invalid AWS Region was specified.")
  else
    let* self_topics := new_list [] in
    let* self_phone := new_list [] in
    let self := {|
      app_id := base_app_id;
      verify_certificate := base_verify_certificate;
      topics := self_topics;
      phone := self_phone;
      aws_access_key_id := default "" access_key_id;
      aws_secret_access_key := default "" secret_access_key;
      aws_region_name := default "" region_name;
      notify_url := "https://sns." +:+ default "" region_name +:+ ".amazonaws.com/";
      aws_service_name := "sns";
      aws_canonical_uri := "/";
      aws_auth_version := "AWS4";
      aws_auth_algorithm := "AWS4-HMAC-SHA256";
      aws_auth_request := "aws4_request" |} in
    let* _ := for_each (recipient_list recipients)
                (validate_recipient self_phone self_topics) in
    let* n_phone := len (phone self) in
    let* n_topics := len (topics self) in
    let* _ := (if (n_phone =? 0) && (n_topics =? 0)
               then logger WARNING "There are no valid recipient identified to notify."
               else ret tt) in
    ret self.

#[global] Instance pyval_inhabited : Inhabited pyval := populate PNone.

(** [str(v)], as [%s] and [format] apply it *)
Definition py_str (v : pyval) : string :=
  match v with
  | PNone => "None"
  | PInt z => str_of_Z z
  | PStr s => s
  end.

(** [repr(b)] of a [bool], for [%r] *)
Definition repr_bool (b : bool) : string := if b then "True" else "False".

(** The newline, as a string *)
Definition nl : string := String "010"%char "".

Definition Ymd : list ascii := Py.chars "%Y%m%d".
Definition YmdTHMSZ : list ascii := Py.chars "%Y%m%dT%H%M%SZ".

Section Plugin.

Context `{I : Imports}.
Variable W : world.

(** [AWS_HTTP_ERROR_MAP = HTTP_ERROR_MAP.copy()], updated with 403 *)
Definition AWS_HTTP_ERROR_MAP (code : Z) : option string :=
  if decide (code = 403%Z)
  then Some "Unauthorized - Invalid Access/Secret Key Combination."
  else HTTP_ERROR_MAP code.

(** The inner function [_sign(key, msg, to_hex=False)] of
    [aws_auth_signature]: bytes, or their hexadecimal form. *)
Definition _sign (key : bytes) (msg : string) (to_hex : bool)
    : if to_hex then string else bytes :=
  match to_hex with
  | true => hexlify (hmac_sha256_digest key (encode_utf8 msg))
  | false => hmac_sha256_digest key (encode_utf8 msg)
  end.

(** [NotifySNS.aws_auth_signature(self, to_sign, reference)] *)
Definition aws_auth_signature (self : NotifySNS) (to_sign : string)
    (reference : datetime) : string :=
  let _date :=
    _sign (encode_utf8 (aws_auth_version self +:+ aws_secret_access_key self))
      (strftime reference Ymd) false in
  let _region := _sign _date (aws_region_name self) false in
  let _service := _sign _region (aws_service_name self) false in
  let _signed := _sign _service (aws_auth_request self) false in
  _sign _signed to_sign true.

(** [sha256(s.encode('utf-8')).hexdigest()] *)
Definition sha256_hexdigest (s : string) : string :=
  hexlify (sha256_digest (encode_utf8 s)).

(** The local variables of [aws_prepare_request] when it returns *)
Record prepare_locals : Type := {
  l_headers : dict;
  l_amzdate : string;
  l_scope : string;
  l_signed_headers : list (string * pyval);
  l_canonical_request : string;
  l_to_sign : string
}.

(** The body of [aws_prepare_request] after the clock reading
    [reference = datetime.utcnow()] *)
Definition prepare_request_body (self : NotifySNS) (payload : string)
    (reference : datetime) : prepare_locals :=
  let headers : dict :=
    <["X-Amz-Date" := PNone]>
      (<["Authorization" := PNone]>
         (<["Content-Length" := PInt 0]>
            (<["Content-Type" := PStr "application/x-www-form-urlencoded; charset=utf-8"]>
               (<["User-Agent" := PStr (app_id self)]> ∅)))) in
  let headers := <["Content-Length" := PStr (str_of_nat (String.length payload))]> headers in
  let amzdate := strftime reference YmdTHMSZ in
  let headers := <["X-Amz-Date" := PStr amzdate]> headers in
  let scope :=
    strftime reference Ymd +:+ "/" +:+ aws_region_name self +:+ "/"
    +:+ aws_service_name self +:+ "/" +:+ aws_auth_request self in
  let signed_headers : list (string * pyval) :=
    [ ("content-type", headers !!! "Content-Type");
      ("host", PStr (aws_service_name self +:+ "." +:+ aws_region_name self
                     +:+ ".amazonaws.com"));
      ("x-amz-date", headers !!! "X-Amz-Date") ] in
  let canonical_request :=
    Py.join nl
      [ "POST";
        aws_canonical_uri self;
        "";
        Py.join nl (map (λ kv, kv.1 +:+ ":" +:+ py_str kv.2) signed_headers) +:+ nl;
        Py.join ";" (map fst signed_headers);
        sha256_hexdigest payload ] in
  let to_sign :=
    Py.join nl
      [ aws_auth_algorithm self;
        amzdate;
        scope;
        sha256_hexdigest canonical_request ] in
  let headers :=
    <["Authorization" :=
        PStr (Py.join ", "
          [ aws_auth_algorithm self +:+ " Credential=" +:+ aws_access_key_id self
            +:+ "/" +:+ scope;
            "SignedHeaders=" +:+ Py.join ";" (map fst signed_headers);
            "Signature=" +:+ aws_auth_signature self to_sign reference ])]> headers in
  {| l_headers := headers; l_amzdate := amzdate; l_scope := scope;
     l_signed_headers := signed_headers;
     l_canonical_request := canonical_request; l_to_sign := to_sign |}.

(** [NotifySNS.aws_prepare_request(self, payload, reference=None)].  The
    argument [reference] is overwritten by the clock reading before any
    use; the headers are returned. *)
Definition aws_prepare_request (self : NotifySNS) (payload : string)
    (reference : option datetime) : M dict :=
  let* reference := utcnow W in
  ret (l_headers (prepare_request_body self payload reference)).

(** [aws_keep_map] of [aws_response_to_dict] *)
Definition aws_keep_map : gmap string string :=
  list_to_map
    [ ("RequestId", "request_id");
      ("TopicArn", "topic_arn");
      ("MessageId", "message_id");
      ("Type", "error_type");
      ("Code", "error_code");
      ("Message", "error_message") ].

(** [response[key] = v] *)
Definition setitem (key : string) (v : pyval) : ST dict unit :=
  λ response, (Ok tt, <[key := v]> response).

(** The inner function [_xml_iter(root, response)]; [response] is the
    state. *)
Fixpoint _xml_iter (root : element) : ST dict unit :=
  match root with
  | Element tag text children =>
      if 0 <? length children then
        (fix each (l : list element) : ST dict unit :=
           match l with
           | [] => ret tt
           | child :: l' => let* _ := _xml_iter child in each l'
           end) children
      else
        match aws_keep_map !! tag with
        | Some key =>
            match text with
            | Some t => setitem key (PStr (Py.strip t))
            | None =>
                raise (AttributeError "'NoneType' object has no attribute 'strip'")
            end
        | None => ret tt
        end
  end.

(** [NotifySNS.aws_response_to_dict(aws_response)]: the [try] block runs
    on the dictionary [response]; [ParseError] and [TypeError] are caught
    and leave the dictionary as it is by then, any other exception leaves
    the function. *)
Definition aws_response_to_dict (aws_response : option string)
    : outcome dict :=
  let response : dict := <["request_id" := PNone]> (<["type" := PNone]> ∅) in
  let try_block : ST dict unit :=
    let* text :=
      match aws_response with
      | Some s => ret (Re.sub1_empty XMLNS s)
      | None => raise (TypeError "expected string or bytes-like object")
      end in
    let* root :=
      match ElementTree_fromstring text with
      | Some root => ret root
      | None => raise ParseError
      end in
    let* _ := setitem "type" (PStr (match root with Element tag _ _ => tag end)) in
    _xml_iter root in
  match try_block response with
  | (Ok _, response) => Ok response
  | (Raise ParseError, response) => Ok response
  | (Raise (TypeError _), response) => Ok response
  | (Raise e, _) => Raise e
  | (Diverge, _) => Diverge
  end.

(** [NotifySNS._post(self, payload, to)] *)
Definition _post (self : NotifySNS) (payload : list (string * string))
    (to : string) : M (bool * dict) :=
  let payload := urlencode payload in
  let* headers := aws_prepare_request self payload None in
  let* _ := logger DEBUG
              ("AWS POST URL: " +:+ notify_url self +:+ " (cert_verify="
               +:+ repr_bool (verify_certificate self) +:+ ")") in
  let* _ := logger DEBUG ("AWS Payload: " +:+ payload) in
  let* r := post W {| req_url := notify_url self; req_data := payload;
                      req_headers := headers;
                      req_verify := verify_certificate self |} in
  match r with
  | Response status_code text =>
      if negb (bool_decide (status_code = 200%Z)) then
        let* _ :=
          match AWS_HTTP_ERROR_MAP status_code with
          | Some msg =>
              logger WARNING
                ("Failed to send AWS notification to " +:+ String dquote to
                 +:+ String dquote ": " +:+ msg +:+ " (error="
                 +:+ str_of_Z status_code +:+ ").")
          | None =>
              let* _ := logger WARNING
                ("Failed to send AWS notification to " +:+ String dquote to
                 +:+ String dquote " (error=" +:+ str_of_Z status_code
                 +:+ ").") in
              logger DEBUG ("Response Details: " +:+ text)
          end in
        let* response := lift (aws_response_to_dict (Some text)) in
        ret (false, response)
      else
        let* _ := logger INFO
                    ("Sent AWS notification to " +:+ String dquote to
                     +:+ String dquote ".") in
        let* response := lift (aws_response_to_dict (Some text)) in
        ret (true, response)
  | RequestException e =>
      let* _ := logger WARNING
                  ("A Connection error occured sending AWS notification to "
                   +:+ String dquote to +:+ String dquote ".") in
      let* _ := logger DEBUG ("Socket Exception: " +:+ e) in
      let* response := lift (aws_response_to_dict None) in
      ret (false, response)
  end.

(** The payloads of [notify] *)
Definition publish_phone_payload (body no : string) : list (string * string) :=
  [ ("Action", "Publish"); ("Message", body); ("Version", "2010-03-31");
    ("PhoneNumber", no) ].

Definition create_topic_payload (topic : string) : list (string * string) :=
  [ ("Action", "CreateTopic"); ("Version", "2010-03-31"); ("Name", topic) ].

Definition publish_topic_payload (body topic_arn : string)
    : list (string * string) :=
  [ ("Action", "Publish"); ("Version", "2010-03-31"); ("TopicArn", topic_arn);
    ("Message", body) ].

(** [while len(phone) > 0: ...]; one unit of fuel for each test of the
    condition. *)
Fixpoint phone_loop (fuel : nat) (self : NotifySNS) (body : string)
    (phone : loc) (error_count : nat) : M nat :=
  match fuel with
  | 0 => diverge
  | S fuel' =>
      let* n := len phone in
      if 0 <? n then
        let* no := pop0 phone in
        let payload := publish_phone_payload body no in
        let* (result, _) := _post self payload no in
        let error_count := if result then error_count else error_count + 1 in
        let* n := len phone in
        let* _ := (if 0 <? n then throttle else ret tt) in
        phone_loop fuel' self body phone error_count
      else ret error_count
  end.

(** [while len(topics): ...] *)
Fixpoint topics_loop (fuel : nat) (self : NotifySNS) (body : string)
    (topics : loc) (error_count : nat) : M nat :=
  match fuel with
  | 0 => diverge
  | S fuel' =>
      let* n := len topics in
      if negb (n =? 0) then
        let* topic := pop0 topics in
        let payload := create_topic_payload topic in
        let* (result, response) := _post self payload topic in
        if negb result then
          topics_loop fuel' self body topics (error_count + 1)
        else
          let topic_arn := response !! "topic_arn" in
          if falsy topic_arn then
            topics_loop fuel' self body topics (error_count + 1)
          else
            let payload :=
              publish_topic_payload body (py_str (default PNone topic_arn)) in
            let* (result, _) := _post self payload topic in
            let error_count := if result then error_count else error_count + 1 in
            let* n := len topics in
            let* _ := (if 0 <? n then throttle else ret tt) in
            topics_loop fuel' self body topics error_count
      else ret error_count
  end.

(** [NotifySNS.notify(self, title, body, notify_type, **kwargs)] *)
Definition notify (fuel : nat) (self : NotifySNS)
    (title body notify_type : string) : M bool :=
  let error_count := 0 in
  let* phone := (let* l := read_list (phone self) in new_list l) in
  let* topics := (let* l := read_list (topics self) in new_list l) in
  let* error_count := phone_loop fuel self body phone error_count in
  let* error_count := topics_loop fuel self body topics error_count in
  ret (error_count =? 0).

(** What [parse_url] adds to the result of [NotifyBase.parse_url] *)
Record sns_results : Type := {
  res_recipients : list string;
  res_region_name : option string;
  res_access_key_id : string;
  res_secret_access_key : option string
}.

(** Section 1 of [parse_url]: the loop over the entries of the path, with
    the index [i] of [enumerate] and the parts of the secret met so far.
    It comes to the secret, the region and the index after the region. *)
Fixpoint find_region (entries : list string) (i : nat)
    (secret_access_key_parts : list string)
    : option string * option string * nat :=
  match entries with
  | [] => (None, None, 0)
  | entry :: entries' =>
      match Re.match_ IS_REGION entry with
      | Some result =>
          (Some (Py.join "/" secret_access_key_parts),
           Some (Py.lower (Re.group result "country") +:+ "-"
                 +:+ Py.lower (Re.group result "area") +:+ "-"
                 +:+ Re.group result "no"),
           i + 1)
      | None => find_region entries' (S i) (secret_access_key_parts ++ [entry])
      end
  end.

(** [NotifySNS.parse_url(url)], from what [NotifyBase.parse_url(url)]
    returned: nothing, or the host and the full path. *)
Definition parse_url (results : option (string * string))
    : option sns_results :=
  match results with
  | None => None
  | Some (host, fullpath) =>
      let access_key_id := host in
      let '(secret_access_key, region_name, index) :=
        find_region (split_path fullpath) 0 [] in
      Some {|
        res_recipients :=
          drop index (map unquote (filter (λ x, x ≠ "") (split_path fullpath)));
        res_region_name := region_name;
        res_access_key_id := access_key_id;
        res_secret_access_key := secret_access_key |}
  end.

End Plugin.

(** ** Vocabulary of the statements *)

(** A hexadecimal digit, lower case *)
Definition is_hex_char (c : ascii) : bool :=
  Py.is_digit c || ((97 <=? nat_of_ascii c) && (nat_of_ascii c <=? 102)).

(** One line [name:value], ended by a newline, for each header *)
Fixpoint header_lines (l : list (string * pyval)) : string :=
  match l with
  | [] => ""
  | (k, v) :: l' => k +:+ ":" +:+ py_str v +:+ nl +:+ header_lines l'
  end.

(** The splits that a greedy run over one character class offers to its
    continuation: the longest run first, then one character less at a
    time. *)
Fixpoint greedy {A} (p : ascii → bool) (s : list ascii) (i : nat)
    (g : Re.groups) (k : Re.cont A) : option A :=
  match s with
  | x :: s' =>
      if p x then
        match greedy p s' (S i) g k with
        | Some a => Some a
        | None => k s i g
        end
      else k s i g
  | [] => k s i g
  end.

(** The longest prefix of characters of a class, and what follows it *)
Fixpoint span (p : ascii → bool) (s : list ascii) : list ascii * list ascii :=
  match s with
  | x :: s' =>
      if p x then let '(a, b) := span p s' in (x :: a, b) else ([], s)
  | [] => ([], [])
  end.

(** The end of the two recipient patterns: white space up to the end. *)
Abbreviation TAIL := (Re.Seq (Re.Star (Re.Cls Py.is_space)) Re.Eol).

(** The final continuation of [match]: the groups. *)
Abbreviation FINAL := (λ (_ : list ascii) (_ : nat) (g : Re.groups), Some g).

(** What [validate_recipient] makes of a recipient *)
Inductive verdict : Type :=
| Phone (number : string)
| Topic (name : string)
| Dropped.

(** The phone shape: one character or more, each of them a digit, white
    space, a parenthesis, a plus or a dash (a leading plus is one of
    them). *)
Definition phone_shape (t : string) : bool :=
  negb (bool_decide (t = "")) && forallb phone_class (Py.chars t).

(** What the group [phone] holds: the text without a leading plus, unless
    the text is a plus alone. *)
Definition phone_group (s : list ascii) : list ascii :=
  match s with
  | "+"%char :: (_ :: _) as s' => s'
  | _ => s
  end.

(** The digits of a recipient, in their order *)
Definition digits_of (t : string) : string :=
  Py.str (List.filter Py.is_digit (Py.chars t)).

(** The topic shape: an optional [#], a name of one character or more
    among letters, digits, underscore and dash, then white space only.
    The name is returned. *)
Definition topic_name (t : string) : option string :=
  let body :=
    match Py.chars t with
    | "#"%char :: s => s
    | s => s
    end in
  let '(name, rest) := span topic_class body in
  if negb (bool_decide (name = [])) && forallb Py.is_space rest
  then Some (Py.str name) else None.

(** The classification of a recipient: a phone-shaped recipient is a
    phone when it has 11 to 14 digits and is dropped otherwise; any other
    recipient is a topic when it has the topic shape and is dropped
    otherwise. *)
Definition classify (t : string) : verdict :=
  if phone_shape t then
    if (11 <=? String.length (digits_of t)) && (String.length (digits_of t) <=? 14)
    then Phone ("+" +:+ digits_of t)
    else Dropped
  else
    match topic_name t with
    | Some name => Topic name
    | None => Dropped
    end.

(** What is done with a classified recipient: a phone is appended to the
    phones, a topic to the topics, and a dropped recipient is logged. *)
Definition store_verdict (self_phone self_topics : loc) (t : string)
    (v : verdict) : M unit :=
  match v with
  | Phone number => append self_phone number
  | Topic name => append self_topics name
  | Dropped =>
      logger WARNING
        (if phone_shape t
         then "Dropped invalid phone # (" +:+ t +:+ ") specified."
         else "Dropped invalid phone/topic (" +:+ t +:+ ") specified.")
  end.

Definition phones_of (tokens : list string) : list string :=
  omap (λ t, match classify t with Phone n => Some n | _ => None end) tokens.

Definition topics_of (tokens : list string) : list string :=
  omap (λ t, match classify t with Topic n => Some n | _ => None end) tokens.

(** The topic pattern as the specification words it: [^#?[A-Za-z0-9_-]+$] *)
Definition TOPIC_AS_SPECIFIED : Re.re :=
  Re.Seq Re.Bol
    (Re.Seq (Re.Opt (Re.Chr "#"))
       (Re.Seq (Re.Plus (Re.Cls topic_class)) Re.Eol)).

(** The configuration that [__init__] accepts: keys and region that are
    neither [None] nor empty, and a region that [IS_REGION] matches. *)
Definition valid_config (access_key_id secret_access_key region_name : option string)
    : bool :=
  Py.truthy access_key_id && Py.truthy secret_access_key
  && Py.truthy region_name
  && bool_decide (is_Some (Re.match_ IS_REGION (default "" region_name))).

Definition no_recipient_warning : level * string :=
  (WARNING, "There are no valid recipient identified to notify.").

(** The state of a program that has not run yet *)
Definition initial_state : state :=
  {| heap := ∅; clock := 0; trace := []; log := [] |}.

(** ** The protocol of a dispatch, as its observer sees it *)

Section Protocol.

Context `{I : Imports}.
Variable W : world.

Definition is_throttle (e : event) : bool :=
  match e with
  | EvThrottle => true
  | EvPost _ => false
  end.

(** The response dictionary that [_post] builds from an answer *)
Definition response_dict (r : http_result) : outcome dict :=
  match r with
  | Response _ text => aws_response_to_dict (Some text)
  | RequestException _ => aws_response_to_dict None
  end.

(** An answer that [_post] counts as a success: status 200 *)
Definition post_ok (r : http_result) : bool :=
  match r with
  | Response status_code _ => bool_decide (status_code = 200%Z)
  | RequestException _ => false
  end.

Definition failed (r : http_result) : nat := if post_ok r then 0 else 1.

(** The request that [_post] sends for a payload when the clock reads
    [t]: to the URL of the notifier, with the payload encoded as the body
    and the signed headers of that body. *)
Definition request_of (self : NotifySNS) (payload : list (string * string))
    (t : datetime) : request :=
  {| req_url := notify_url self;
     req_data := urlencode payload;
     req_headers := l_headers (prepare_request_body self (urlencode payload) t);
     req_verify := verify_certificate self |}.

(** A request of the notifier for a payload, at some time *)
Definition sends (self : NotifySNS) (payload : list (string * string))
    (r : request) : Prop :=
  ∃ t, r = request_of self payload t.

(** The pause after a recipient: none after the last of its queue *)
Definition pause (remaining : list string) : list event :=
  match remaining with
  | [] => []
  | _ :: _ => [EvThrottle]
  end.

(** The phones, in their order: one Publish request for each, with the
    phone number and the message, a pause after each but the last, and one
    failure for each answer that is not a success.  The arguments are the
    queue, the events before, the events of the phase and its failures. *)
Inductive phones_phase (self : NotifySNS) (body : string)
    : list string → list event → list event → nat → Prop :=
| phones_done h :
    phones_phase self body [] h [] 0
| phones_send no ps h r evs n :
    sends self (publish_phone_payload body no) r →
    phones_phase self body ps (h ++ EvPost r :: pause ps) evs n →
    phones_phase self body (no :: ps) h (EvPost r :: pause ps ++ evs)
      (failed (requests_post W h r) + n).

(** The topics, in their order: a CreateTopic request for each; when its
    answer is not a success, or carries no ARN, the topic is a failure and
    the next topic follows at once; otherwise a Publish request with the
    ARN follows, then a pause unless the topic is the last, and the
    topic is a failure when the answer to the Publish is not a success. *)
Inductive topics_phase (self : NotifySNS) (body : string)
    : list string → list event → list event → nat → Prop :=
| topics_done h :
    topics_phase self body [] h [] 0
| topic_create_failed topic ts h r evs n :
    sends self (create_topic_payload topic) r →
    post_ok (requests_post W h r) = false →
    topics_phase self body ts (h ++ [EvPost r]) evs n →
    topics_phase self body (topic :: ts) h (EvPost r :: evs) (1 + n)
| topic_without_arn topic ts h r d evs n :
    sends self (create_topic_payload topic) r →
    post_ok (requests_post W h r) = true →
    response_dict (requests_post W h r) = Ok d →
    falsy (d !! "topic_arn") = true →
    topics_phase self body ts (h ++ [EvPost r]) evs n →
    topics_phase self body (topic :: ts) h (EvPost r :: evs) (1 + n)
| topic_published topic ts h r d r' evs n :
    sends self (create_topic_payload topic) r →
    post_ok (requests_post W h r) = true →
    response_dict (requests_post W h r) = Ok d →
    falsy (d !! "topic_arn") = false →
    sends self (publish_topic_payload body
                  (py_str (default PNone (d !! "topic_arn")))) r' →
    topics_phase self body ts (h ++ EvPost r :: EvPost r' :: pause ts) evs n →
    topics_phase self body (topic :: ts) h
      (EvPost r :: EvPost r' :: pause ts ++ evs)
      (failed (requests_post W (h ++ [EvPost r]) r') + n).

(** Where the pauses fall among [n] phone requests, and among the
    requests of the topics, given for each topic whether its Publish
    request was sent: [false] is a request and [true] a pause. *)
Fixpoint phones_pacing (n : nat) : list bool :=
  match n with
  | 0 => []
  | 1 => [false]
  | S n' => false :: true :: phones_pacing n'
  end.

Fixpoint topics_pacing (published : list bool) : list bool :=
  match published with
  | [] => []
  | true :: l => false :: false :: (if l is [] then [] else [true]) ++ topics_pacing l
  | false :: l => false :: topics_pacing l
  end.

(** An environment in which no answer makes the response parser raise *)
Definition answers_parse : Prop :=
  ∀ h r, ∃ d, response_dict (requests_post W h r) = Ok d.

End Protocol.

(** ** The response parser, as a walk over the leaves *)

(** The response before the [try] block *)
Definition default_response : dict :=
  <["request_id" := PNone]> (<["type" := PNone]> ∅).

(** The leaves of a tree (the elements without children), depth first,
    each with its tag and its text. *)
Fixpoint leaves (root : element) : list (string * option string) :=
  match root with
  | Element tag text children =>
      if 0 <? length children then
        (fix each (l : list element) : list (string * option string) :=
           match l with
           | [] => []
           | child :: l' => leaves child ++ each l'
           end) children
      else [(tag, text)]
  end.

(** A leaf that the walk can record or pass: its tag is not one of the
    recognized ones, or it has a text. *)
Definition leaf_ok (leaf : string * option string) : bool :=
  match aws_keep_map !! leaf.1, leaf.2 with
  | Some _, None => false
  | _, _ => true
  end.

(** The recognized leaf with its trimmed text under the key of its tag *)
Definition record_leaf (response : dict) (leaf : string * option string) : dict :=
  match aws_keep_map !! leaf.1, leaf.2 with
  | Some key, Some text => <[key := PStr (Py.strip text)]> response
  | _, _ => response
  end.

(** The walk over the leaves in the state monad of the dictionary *)
Fixpoint walk_leaves (l : list (string * option string)) : ST dict unit :=
  match l with
  | [] => ret tt
  | leaf :: l' =>
      let* _ :=
        match aws_keep_map !! leaf.1 with
        | Some key =>
            match leaf.2 with
            | Some t => setitem key (PStr (Py.strip t))
            | None =>
                raise (AttributeError "'NoneType' object has no attribute 'strip'")
            end
        | None => ret tt
        end in
      walk_leaves l'
  end.

Definition root_tag (root : element) : string :=
  match root with Element tag _ _ => tag end.

(** ** SHA-256 and HMAC-SHA256 (FIPS 180-4, RFC 2104)

    The functions behind [hashlib.sha256] and [hmac.new(..., sha256)], on
    bytes as numbers below 256 and words as numbers below 2^32; they are
    used to run the definitions on examples. *)

Module SHA256.

Local Open Scope N_scope.

Definition w32 (x : N) : N := N.land x 4294967295.

Definition add32 (x y : N) : N := w32 (x + y).

Definition rotr (n : N) (x : N) : N :=
  N.lor (N.shiftr x n) (w32 (N.shiftl x (32 - n))).

Definition shr (n : N) (x : N) : N := N.shiftr x n.

Definition Ch (x y z : N) : N :=
  N.lxor (N.land x y) (N.land (N.lxor x 4294967295) z).

Definition Maj (x y z : N) : N :=
  N.lxor (N.lxor (N.land x y) (N.land x z)) (N.land y z).

Definition Sigma0 (x : N) : N := N.lxor (N.lxor (rotr 2 x) (rotr 13 x)) (rotr 22 x).
Definition Sigma1 (x : N) : N := N.lxor (N.lxor (rotr 6 x) (rotr 11 x)) (rotr 25 x).
Definition sigma0 (x : N) : N := N.lxor (N.lxor (rotr 7 x) (rotr 18 x)) (shr 3 x).
Definition sigma1 (x : N) : N := N.lxor (N.lxor (rotr 17 x) (rotr 19 x)) (shr 10 x).

(** The constants of FIPS 180-4, computed as the standard defines them:
    the first 32 bits of the fractional parts of the cube roots of the
    first 64 primes, and of the square roots of the first 8 primes. *)
Definition is_prime (n : nat) : bool :=
  forallb (λ d, negb (Nat.eqb (Nat.modulo n d) 0)) (seq 2 (n - 2)).

Definition first_primes : list N :=
  map N.of_nat (List.filter is_prime (seq 2 310)).

(** The largest number whose [k]-th power is at most [n], found bit by
    bit from [2^bits] down, starting from [r]. *)
Fixpoint root_bits (k : N) (bits : nat) (n r : N) : N :=
  match bits with
  | O => r
  | S b =>
      let c := r + N.shiftl 1 (N.of_nat b) in
      if c ^ k <=? n then root_bits k b n c else root_bits k b n r
  end.

Definition K : list N :=
  Eval vm_compute in
    map (λ p, w32 (root_bits 3 40 (N.shiftl p 96) 0)) first_primes.

Definition H0 : list N :=
  Eval vm_compute in
    map (λ p, w32 (root_bits 2 40 (N.shiftl p 64) 0)) (firstn 8 first_primes).

(** Big-endian words of a block of bytes *)
Fixpoint words (b : list N) : list N :=
  match b with
  | b0 :: b1 :: b2 :: b3 :: b' =>
      (N.shiftl b0 24 + N.shiftl b1 16 + N.shiftl b2 8 + b3) :: words b'
  | _ => []
  end.

(** The message schedule, most recent word first: [n] more words from
    the sixteen of the block. *)
Fixpoint schedule (n : nat) (w : list N) : list N :=
  match n with
  | O => w
  | S n' =>
      match w with
      | w1 :: w2 :: _ :: _ :: _ :: _ :: w7 :: _ :: _ :: _ :: _ :: _ :: _ :: _ :: w15 :: w16 :: _ =>
          schedule n'
            (add32 (add32 (sigma1 w2) w7) (add32 (sigma0 w15) w16) :: w)
      | _ => w
      end
  end.

Definition round (s : list N) (kw : N * N) : list N :=
  match s with
  | [a; b; c; d; e; f; g; h] =>
      let t1 := add32 (add32 (add32 h (Sigma1 e)) (add32 (Ch e f g) (fst kw))) (snd kw) in
      let t2 := add32 (Sigma0 a) (Maj a b c) in
      [add32 t1 t2; a; b; c; add32 d t1; e; f; g]
  | _ => s
  end.

Definition compress (h : list N) (block : list N) : list N :=
  let w := rev (schedule 48 (rev (words block))) in
  let s := fold_left round (combine K w) h in
  map (λ p, add32 (fst p) (snd p)) (combine h s).

Fixpoint blocks (fuel : nat) (h : list N) (b : list N) : list N :=
  match fuel with
  | O => h
  | S fuel' =>
      match b with
      | [] => h
      | _ => blocks fuel' (compress h (firstn 64 b)) (skipn 64 b)
      end
  end.

Definition be_bytes (n : nat) (x : N) : list N :=
  map (λ i, N.land (N.shiftr x (8 * N.of_nat i)) 255) (rev (seq 0 n)).

Definition pad (b : list N) : list N :=
  let l := length b in
  let z := Nat.modulo (119 - Nat.modulo l 64) 64 in
  b ++ [128] ++ repeat 0 z ++ be_bytes 8 (8 * N.of_nat l).

Definition digest_N (b : list N) : list N :=
  let p := pad b in
  flat_map (be_bytes 4) (blocks (S (Nat.div (length p) 64)) H0 p).

Definition byte_of_N (n : N) : Byte.byte :=
  match Byte.of_N n with Some b => b | None => Byte.x00 end.

Definition digest (b : list Byte.byte) : list Byte.byte :=
  map byte_of_N (digest_N (map Byte.to_N b)).

Definition xor_pad (c : N) (k : list N) : list N :=
  map (λ x, N.lxor x c) (k ++ repeat 0 (Nat.sub 64 (length k))).

Definition hmac_N (key msg : list N) : list N :=
  let k := if Nat.ltb 64 (length key) then digest_N key else key in
  digest_N (xor_pad 0x5c k ++ digest_N (xor_pad 0x36 k ++ msg)).

Definition hmac (key msg : list Byte.byte) : list Byte.byte :=
  map byte_of_N (hmac_N (map Byte.to_N key) (map Byte.to_N msg)).

End SHA256.

(** ** An environment to run the definitions *)

Definition is_name_char (c : ascii) : bool :=
  negb (Py.is_space c || bool_decide (c = ">"%char) || bool_decide (c = "/"%char)
        || bool_decide (c = "<"%char)).

Definition not_lt (c : ascii) : bool := negb (bool_decide (c = "<"%char)).

(** A parser for the XML of the examples: elements with a name, a text
    and children, without attributes, comments or entities.  The text of
    an element is what stands before its first child, [None] when there is
    nothing, as in [ElementTree]. *)
Fixpoint xml_element (fuel : nat) (s : list ascii) : option (element * list ascii) :=
  match fuel with
  | 0 => None
  | S fuel' =>
      match s with
      | "<"%char :: s1 =>
          let '(name, s2) := span is_name_char s1 in
          if bool_decide (name = []) then None else
          match s2 with
          | "/"%char :: ">"%char :: s3 => Some (Element (Py.str name) None [], s3)
          | ">"%char :: s3 =>
              let text := (span not_lt s3).1 in
              match xml_children fuel' s3 with
              | Some (children, closing, s4) =>
                  if bool_decide (closing = name)
                  then Some (Element (Py.str name)
                               (if bool_decide (text = []) then None
                                else Some (Py.str text))
                               children, s4)
                  else None
              | None => None
              end
          | _ => None
          end
      | _ => None
      end
  end
with xml_children (fuel : nat) (s : list ascii)
    : option (list element * list ascii * list ascii) :=
  match fuel with
  | 0 => None
  | S fuel' =>
      match (span not_lt s).2 with
      | "<"%char :: "/"%char :: s2 =>
          let '(closing, s3) := span is_name_char s2 in
          match s3 with
          | ">"%char :: s4 => Some ([], closing, s4)
          | _ => None
          end
      | "<"%char :: s2 =>
          match xml_element fuel' ("<"%char :: s2) with
          | Some (child, s3) =>
              match xml_children fuel' s3 with
              | Some (children, closing, s4) => Some (child :: children, closing, s4)
              | None => None
              end
          | None => None
          end
      | _ => None
      end
  end.

Definition example_fromstring (s : string) : option element :=
  match xml_element (S (String.length s)) (Py.lstrip (Py.chars s)) with
  | Some (root, rest) => if forallb Py.is_space rest then Some root else None
  | None => None
  end.

(** [quote_plus] and [urlencode] of [urllib] *)
Definition quote_plus_char (c : ascii) : list ascii :=
  if Py.is_upper c || Py.is_lower c || Py.is_digit c
     || bool_decide (c = "_"%char) || bool_decide (c = "."%char)
     || bool_decide (c = "-"%char) || bool_decide (c = "~"%char)
  then [c]
  else if bool_decide (c = " "%char) then ["+"%char]
  else [ "%"%char; Py.upper_char (hex_digit (nat_of_ascii c / 16));
         Py.upper_char (hex_digit (nat_of_ascii c mod 16)) ].

Definition quote_plus (s : string) : string :=
  Py.str (concat (map quote_plus_char (Py.chars s))).

Definition example_urlencode (query : list (string * string)) : string :=
  Py.join "&" (map (λ kv, quote_plus kv.1 +:+ "=" +:+ quote_plus kv.2) query).

Definition example_imports : Imports := {|
  sha256_digest := SHA256.digest;
  hmac_sha256_digest := SHA256.hmac;
  ElementTree_fromstring := example_fromstring;
  urlencode := example_urlencode;
  split_path := λ s, filter (λ x, x ≠ "") (Re.split (Re.Plus (Re.Chr "/")) s);
  unquote := λ s, s;
  HTTP_ERROR_MAP := λ _, None
|}.

(** A clock that starts on 30 August 2015 at 12:36:00 and advances by a
    second at each reading *)
Definition example_clock (n : nat) : datetime :=
  {| year := 2015; month := 8; day := 30;
     hour := 12; minute := 36; second := n mod 60 |}.

(** The answer to CreateTopic of the docstring of [aws_response_to_dict],
    without the namespace *)
Definition create_topic_response : string :=
  "<CreateTopicResponse><CreateTopicResult><TopicArn>arn:aws:sns:us-east-1:000000000000:abcd</TopicArn></CreateTopicResult><ResponseMetadata><RequestId>604bef0f-369c-50c5-a7a4-bbd474c83d6a</RequestId></ResponseMetadata></CreateTopicResponse>".

(** An error answer whose code is an empty element *)
Definition empty_code_response : string :=
  "<ErrorResponse><Error><Type>Sender</Type><Code/></Error></ErrorResponse>".

(** A provider that answers every request with status 200 and the
    CreateTopic answer *)
Definition example_world : world :=
  {| utcnow_at := example_clock;
     requests_post := λ _ _, Response 200 create_topic_response |}.

(** A provider that refuses every request with status 403 and the error
    answer with the empty code *)
Definition refusing_world : world :=
  {| utcnow_at := example_clock;
     requests_post := λ _ _, Response 403 empty_code_response |}.

(** The notifier of the examples is built with these credentials, and a
    scenario is its construction followed by one dispatch. *)
Definition example_init (region_name : string) (recipients : recipients_arg)
    : M NotifySNS :=
  __init__ "Apprise" true (Some "AKIDEXAMPLE")
    (Some "wJalrXUtnFEMI/K7MDENG+bPxRfiCYEXAMPLEKEY") (Some region_name)
    recipients.

Definition scenario `{I : Imports} (W : world) (recipients : recipients_arg)
    (fuel : nat) (body : string) : outcome bool * state :=
  (let* self := example_init "us-east-1" recipients in
   notify W fuel self "" body "info") initial_state.

(** The object of the signing example of the AWS documentation (service
    [iam], 30 August 2015) *)
Definition iam_example : NotifySNS :=
  {| app_id := "Apprise"; verify_certificate := true;
     topics := 1%positive; phone := 2%positive;
     aws_access_key_id := "AKIDEXAMPLE";
     aws_secret_access_key := "wJalrXUtnFEMI/K7MDENG+bPxRfiCYEXAMPLEKEY";
     aws_region_name := "us-east-1";
     notify_url := "https://iam.amazonaws.com/";
     aws_service_name := "iam"; aws_canonical_uri := "/";
     aws_auth_version := "AWS4"; aws_auth_algorithm := "AWS4-HMAC-SHA256";
     aws_auth_request := "aws4_request" |}.

(** The bodies of the requests of a trace, in their order *)
Definition posted_data (tr : list event) : list string :=
  omap (λ e, match e with EvPost r => Some (req_data r) | EvThrottle => None end) tr.

(** The notifier of the scenario of the specification, one phone, one
    topic and one recipient that is neither, and the state after its
    construction *)
Definition example_recipients : recipients_arg :=
  RSeq ["+15551234567"; "#alerts"; "not-a-recipient!"].

Definition example_state : state :=
  (example_init "us-east-1" example_recipients initial_state).2.

Definition example_self : NotifySNS :=
  match (example_init "us-east-1" example_recipients initial_state).1 with
  | Ok self => self
  | _ => iam_example
  end.

(** ** Vocabulary of the further properties *)

(** A stored phone: a plus followed by 11 to 14 digits. *)
Definition stored_phone_ok (n : string) : bool :=
  match Py.chars n with
  | "+"%char :: d =>
      forallb Py.is_digit d && (11 <=? length d) && (length d <=? 14)
  | _ => false
  end.

(** A stored topic: one character or more among letters, digits,
    underscore and dash. *)
Definition stored_topic_ok (n : string) : bool :=
  negb (bool_decide (n = "")) && forallb topic_class (Py.chars n).

(** A character that is not a delimiter of [LIST_DELIM] *)
Definition not_delim (c : ascii) : bool := negb (delim_class c).

(** The messages of the three refusals of [__init__] *)
Definition invalid_key_id : exn :=
  TypeError "An invalid AWS Access Key ID was specified.".
Definition invalid_secret : exn :=
  TypeError "An invalid AWS Secret Access Key was specified.".
Definition invalid_region : exn :=
  TypeError "An invalid AWS Region was specified.".

(** The keys that a response dictionary can hold *)
Definition response_keys : gset string :=
  {[ "type"; "request_id"; "topic_arn"; "message_id";
     "error_type"; "error_code"; "error_message" ]}.

(** A value of a response dictionary: [None] or a string *)
Definition none_or_str (v : pyval) : bool :=
  match v with
  | PNone | PStr _ => true
  | PInt _ => false
  end.

Definition is_str (v : pyval) : bool :=
  match v with
  | PStr _ => true
  | _ => false
  end.

(** The warning logged for a dropped recipient *)
Definition drop_warning (t : string) : level * string :=
  (WARNING,
   if phone_shape t
   then "Dropped invalid phone # (" +:+ t +:+ ") specified."
   else "Dropped invalid phone/topic (" +:+ t +:+ ") specified.").

(** The recipients that are dropped, in their order *)
Definition dropped_of (tokens : list string) : list string :=
  List.filter (λ t, match classify t with Dropped => true | _ => false end) tokens.

(** The refusal of [__init__], by the order of its checks: the key id, the
    secret, the region. *)
Definition refusal (ak sk region : option string) : option exn :=
  if negb (Py.truthy ak) then Some invalid_key_id
  else if negb (Py.truthy sk) then Some invalid_secret
  else if negb (Py.truthy region
                && bool_decide (is_Some (Re.match_ IS_REGION (default "" region))))
  then Some invalid_region
  else None.

(** A name that [IS_PHONE_NO] does not match *)
Definition not_phone_shaped (n : string) : bool := negb (phone_shape n).

(** A response dictionary as the parser leaves it: its keys are among the
    seven, [type] and [request_id] are present, and every value is [None]
    or a string. *)
Definition response_ok (d : dict) : Prop :=
  dom d ⊆ response_keys ∧ is_Some (d !! "type") ∧ is_Some (d !! "request_id")
  ∧ map_Forall (λ _ v, none_or_str v = true) d.


(** A request as the notifier sends it: to its URL, under its
    verification flag, with the five headers, and with the length of its
    body as the [Content-Length]. *)
Definition request_ok (self : NotifySNS) (r : request) : Prop :=
  req_url r = notify_url self
  ∧ req_verify r = verify_certificate self
  ∧ dom (req_headers r)
    = {[ "User-Agent"; "Content-Type"; "Content-Length"; "Authorization";
         "X-Amz-Date" ]}
  ∧ req_headers r !! "Content-Length"
    = Some (PStr (str_of_nat (String.length (req_data r)))).

Definition event_ok (self : NotifySNS) (e : event) : Prop :=
  match e with
  | EvPost r => request_ok self r
  | EvThrottle => True
  end.

(** The only exception that leaves the response parser *)
Definition strip_of_none : exn :=
  AttributeError "'NoneType' object has no attribute 'strip'".

(** An entry of the path that [IS_REGION] matches, and the region that
    [parse_url] makes of it. *)
Definition region_entry (entry : string) : Prop :=
  is_Some (Re.match_ IS_REGION entry).

Definition region_of (entry : string) : string :=
  match Re.match_ IS_REGION entry with
  | Some result =>
      Py.lower (Re.group result "country") +:+ "-"
      +:+ Py.lower (Re.group result "area") +:+ "-" +:+ Re.group result "no"
  | None => ""
  end.

#[global] Instance region_entry_dec (entry : string) : Decision (region_entry entry) :=
  is_Some_dec (Re.match_ IS_REGION entry).

(** A character class and a character under [re.I] *)
Definition ci (p : ascii → bool) (x : ascii) : bool :=
  p (Py.lower_char x) || p (Py.upper_char x).

Definition ci_chr (c x : ascii) : bool :=
  bool_decide (Py.lower_char x = Py.lower_char c).

(** What [IS_REGION.match] does, in one pass from the left: white space,
    two letters, a dash, letters, a dash, digits, white space to the
    end. *)
Definition region_scan (s : list ascii) : option Re.groups :=
  match (span (ci Py.is_space) s).2 with
  | c1 :: c2 :: d :: s2 =>
      if ci Py.is_lower c1 && ci Py.is_lower c2 && ci_chr "-" d then
        match span (ci Py.is_lower) s2 with
        | (a :: area, d' :: s4) =>
            if ci_chr "-" d' then
              match span (ci Py.is_digit) s4 with
              | (n :: no, s5) =>
                  if forallb (ci Py.is_space) s5
                  then Some [("no", n :: no); ("area", a :: area);
                             ("country", [c1; c2])]
                  else None
              | _ => None
              end
            else None
        | _ => None
        end
      else None
  | _ => None
  end.

(** The text of a region: country, area and number, joined by dashes *)
Definition region_text (country area no : list ascii) : string :=
  Py.str (country ++ "-"%char :: area ++ "-"%char :: no).

(** The parts of a region in its normal form: two lower-case letters,
    lower-case letters, digits. *)
Definition region_parts_ok (country area no : list ascii) : Prop :=
  length country = 2 ∧ forallb Py.is_lower country = true
  ∧ area ≠ [] ∧ forallb Py.is_lower area = true
  ∧ no ≠ [] ∧ forallb Py.is_digit no = true.


(** A value that is given: neither [None] nor the empty text *)
Definition given (o : option string) : Prop := ∃ s, o = Some s ∧ s ≠ "".

(** An optional text of ASCII characters *)
Definition ascii_option (o : option string) : bool :=
  match o with
  | Some s => Py.ascii_text s
  | None => true
  end.

Definition is_letter (c : ascii) : bool := Py.is_upper c || Py.is_lower c.

(** The shape of a region, in ASCII: white space, two letters, a dash,
    one letter or more, a dash, one digit or more, white space. *)
Definition region_shape (s : list ascii) : Prop :=
  ∃ sp c1 c2 area no sp',
    s = sp ++ c1 :: c2 :: "-"%char :: area ++ "-"%char :: no ++ sp'
    ∧ forallb Py.is_space sp = true
    ∧ is_letter c1 = true ∧ is_letter c2 = true
    ∧ area ≠ [] ∧ forallb is_letter area = true
    ∧ no ≠ [] ∧ forallb Py.is_digit no = true
    ∧ forallb Py.is_space sp' = true.

Definition region_given (region : option string) : Prop :=
  ∃ r, region = Some r ∧ region_shape (Py.chars r).

(** The path of a notification URL: the secret, the region and two
    recipients *)
Definition example_path : string :=
  "/wJalrXUtnFEMI/K7MDENG+bPxRfiCYEXAMPLEKEY/US-East-1/+15551234567/alerts".

(* ===================================================================== *)
(** * Part II: properties                                                 *)
(* ===================================================================== *)

(** ** Strings *)

Lemma str_app_cons (x : ascii) (a b : string) :
  String x a +:+ b = String x (a +:+ b).
Proof. reflexivity. Qed.

Lemma str_app_nil_l (a : string) : "" +:+ a = a.
Proof. reflexivity. Qed.

Lemma str_app_assoc (a b c : string) : (a +:+ b) +:+ c = a +:+ (b +:+ c).
Proof.
  induction a as [|x a IH]; [done|]. rewrite !str_app_cons. by rewrite IH.
Qed.

Lemma str_app_nil_r (a : string) : a +:+ "" = a.
Proof.
  induction a as [|x a IH]; [done|]. rewrite str_app_cons. by rewrite IH.
Qed.

Lemma str_length_app (a b : string) :
  String.length (a +:+ b) = String.length a + String.length b.
Proof.
  induction a as [|x a IH]; [done|]. rewrite str_app_cons. simpl. by rewrite IH.
Qed.

Lemma chars_app (a b : string) : Py.chars (a +:+ b) = Py.chars a ++ Py.chars b.
Proof.
  induction a as [|x a IH]; [done|]. rewrite str_app_cons. simpl. by rewrite IH.
Qed.

Lemma str_app (a b : list ascii) : Py.str (a ++ b) = Py.str a +:+ Py.str b.
Proof.
  induction a as [|x a IH]; [done|]. simpl. rewrite str_app_cons. by rewrite IH.
Qed.

Lemma chars_length (s : string) : length (Py.chars s) = String.length s.
Proof. induction s as [|x s IH]; simpl; [done|]. by rewrite IH. Qed.

Lemma str_chars (s : string) : Py.str (Py.chars s) = s.
Proof. apply string_of_list_ascii_of_string. Qed.

Lemma chars_str (l : list ascii) : Py.chars (Py.str l) = l.
Proof. apply list_ascii_of_string_of_list_ascii. Qed.

Lemma chars_inj (s t : string) : Py.chars s = Py.chars t → s = t.
Proof. intros E. by rewrite <- (str_chars s), <- (str_chars t), E. Qed.

(** ** Hexadecimal digests *)

Lemma hex_digit_is_hex (n : nat) : n < 16 → is_hex_char (hex_digit n) = true.
Proof.
  intros Hn.
  do 16 (destruct n as [|n]; [reflexivity|]). lia.
Qed.

Lemma hexlify_length (b : bytes) : String.length (hexlify b) = 2 * length b.
Proof. induction b as [|x b IH]; simpl; [done|]. rewrite IH. lia. Qed.

Lemma hexlify_hex (b : bytes) : forallb is_hex_char (Py.chars (hexlify b)) = true.
Proof.
  induction b as [|x b IH]; [done|].
  cbn [hexlify Py.chars list_ascii_of_string forallb].
  rewrite IH, !hex_digit_is_hex; [done| |].
  - apply Nat.mod_upper_bound. lia.
  - pose proof (Byte.to_nat_bounded x).
    apply Nat.Div0.div_lt_upper_bound. lia.
Qed.

(** ** Known answers of the hash functions *)

Example sha256_abc :
  hexlify (SHA256.digest (encode_utf8 "abc"))
  = "ba7816bf8f01cfea414140de5dae2223b00361a396177a9cb410ff61f20015ad".
Proof. vm_compute. reflexivity. Qed.

Example sha256_empty :
  hexlify (SHA256.digest (encode_utf8 ""))
  = "e3b0c44298fc1c149afbf4c8996fb92427ae41e4649b934ca495991b7852b855".
Proof. vm_compute. reflexivity. Qed.

(** RFC 4231, test case 2 *)
Example hmac_sha256_jefe :
  hexlify (SHA256.hmac (encode_utf8 "Jefe")
             (encode_utf8 "what do ya want for nothing?"))
  = "5bdcc146bf60754e6a042426089575c75a003f089d2739839dec58b964ec3843".
Proof. vm_compute. reflexivity. Qed.

(** The signature of the example of the AWS documentation for Signature
    Version 4, computed by [aws_auth_signature]. *)
Example aws_documentation_signature :
  aws_auth_signature (I := example_imports) iam_example
    (Py.join nl
       [ "AWS4-HMAC-SHA256"; "20150830T123600Z";
         "20150830/us-east-1/iam/aws4_request";
         "f536975d06c0309214f805bb90ccff089219ecd68b2577efef23edd43b7e1a59" ])
    (example_clock 0)
  = "5d672d79c15b13162d9279b0855cfba6789a8edb4c82c400e06b5924a6f2b5d7".
Proof. vm_compute. reflexivity. Qed.

Section Signing.

Context `{I : Imports}.

(** ** The signature chain *)

(** The chain of [aws_auth_signature], with the four keys named. *)
Lemma aws_auth_signature_unfold (self : NotifySNS) (to_sign : string)
    (reference : datetime) :
  let kDate :=
    hmac_sha256_digest
      (encode_utf8 (aws_auth_version self +:+ aws_secret_access_key self))
      (encode_utf8 (strftime reference Ymd)) in
  let kRegion := hmac_sha256_digest kDate (encode_utf8 (aws_region_name self)) in
  let kService := hmac_sha256_digest kRegion (encode_utf8 (aws_service_name self)) in
  let kSigning := hmac_sha256_digest kService (encode_utf8 (aws_auth_request self)) in
  aws_auth_signature self to_sign reference
  = hexlify (hmac_sha256_digest kSigning (encode_utf8 to_sign)).
Proof. reflexivity. Qed.

(** C1.  For an object whose version prefix is [AWS4] and whose request
    terminator is [aws4_request] (what [__init__] stores), whatever its
    secret key, region and service name, and for every string to sign, the
    signature is the hexadecimal form of HMAC(kSigning, to_sign), where
    kDate = HMAC(AWS4 + secret, date stamp), kRegion = HMAC(kDate, region),
    kService = HMAC(kRegion, service) and kSigning = HMAC(kService,
    aws4_request).  The four keys are byte strings fed to the next step as
    they are; only the last HMAC is turned into hexadecimal digits, two for
    each byte of the digest. *)
Theorem aws_auth_signature_chain (self : NotifySNS) (to_sign : string)
    (reference : datetime) :
  aws_auth_version self = "AWS4" →
  aws_auth_request self = "aws4_request" →
  let dateStamp := strftime reference Ymd in
  let kDate : bytes :=
    hmac_sha256_digest (encode_utf8 ("AWS4" +:+ aws_secret_access_key self))
      (encode_utf8 dateStamp) in
  let kRegion : bytes :=
    hmac_sha256_digest kDate (encode_utf8 (aws_region_name self)) in
  let kService : bytes :=
    hmac_sha256_digest kRegion (encode_utf8 (aws_service_name self)) in
  let kSigning : bytes :=
    hmac_sha256_digest kService (encode_utf8 "aws4_request") in
  let final : bytes := hmac_sha256_digest kSigning (encode_utf8 to_sign) in
  aws_auth_signature self to_sign reference = hexlify final
  ∧ String.length (aws_auth_signature self to_sign reference) = 2 * length final
  ∧ forallb is_hex_char (Py.chars (aws_auth_signature self to_sign reference)) = true.
Proof.
  intros Hv Hr. cbv zeta.
  rewrite aws_auth_signature_unfold. cbv zeta. rewrite Hv, Hr.
  split; [reflexivity|]. split; [apply hexlify_length | apply hexlify_hex].
Qed.

(** ** The canonical request and the string to sign *)

Lemma join_lines (l : list (string * pyval)) :
  l ≠ [] →
  Py.join nl (map (λ kv, kv.1 +:+ ":" +:+ py_str kv.2) l) +:+ nl = header_lines l.
Proof.
  induction l as [|[k v] l IH]; [done|]. intros _.
  destruct l as [|kv l].
  - cbn [map Py.join header_lines fst snd].
    by rewrite !str_app_assoc.
  - cbn [map Py.join header_lines fst snd] in *.
    rewrite !str_app_assoc. do 4 f_equal.
    rewrite <- IH by done. by rewrite !str_app_assoc.
Qed.

Lemma headers_lookup_content_type (a b c d e f g : pyval) :
  (<["X-Amz-Date" := a]> (<["Content-Length" := b]> (<["X-Amz-Date" := c]>
     (<["Authorization" := d]> (<["Content-Length" := e]>
        (<["Content-Type" := f]> (<["User-Agent" := g]> (∅ : dict)))))))) !!! "Content-Type" = f.
Proof. by repeat (rewrite lookup_total_insert_ne by done); rewrite lookup_total_insert_eq. Qed.

Lemma headers_lookup_amz_date (a : pyval) (m : dict) :
  (<["X-Amz-Date" := a]> m) !!! "X-Amz-Date" = a.
Proof. apply lookup_total_insert_eq. Qed.

(** C2.  For every object, payload and reference time: the signed headers
    are content-type, host and x-amz-date in this order, under lower-case
    names; the canonical request is POST, newline, the path, two newlines,
    one name:value line (each ended by a newline) for each signed header,
    a newline, the names of the signed headers joined by semicolons, a
    newline, and the hexadecimal SHA-256 digest of the payload; the string
    to sign is the algorithm, the date of the X-Amz-Date header and the
    scope, each followed by a newline, and the hexadecimal SHA-256 digest
    of the canonical request. *)
Theorem canonical_request_layout (self : NotifySNS) (payload : string)
    (reference : datetime) :
  let L := prepare_request_body self payload reference in
  l_signed_headers L
  = [ ("content-type", PStr "application/x-www-form-urlencoded; charset=utf-8");
      ("host", PStr (aws_service_name self +:+ "." +:+ aws_region_name self
                     +:+ ".amazonaws.com"));
      ("x-amz-date", PStr (strftime reference YmdTHMSZ)) ]
  ∧ Forall (λ kv, Py.lower kv.1 = kv.1) (l_signed_headers L)
  ∧ l_canonical_request L
    = "POST" +:+ nl +:+ aws_canonical_uri self +:+ nl +:+ nl
      +:+ header_lines (l_signed_headers L) +:+ nl
      +:+ Py.join ";" (map fst (l_signed_headers L)) +:+ nl
      +:+ sha256_hexdigest payload
  ∧ Py.join ";" (map fst (l_signed_headers L)) = "content-type;host;x-amz-date"
  ∧ l_to_sign L
    = aws_auth_algorithm self +:+ nl +:+ strftime reference YmdTHMSZ +:+ nl
      +:+ l_scope L +:+ nl +:+ sha256_hexdigest (l_canonical_request L).
Proof.
  cbv zeta.
  assert (Hs : l_signed_headers (prepare_request_body self payload reference)
    = [ ("content-type", PStr "application/x-www-form-urlencoded; charset=utf-8");
        ("host", PStr (aws_service_name self +:+ "." +:+ aws_region_name self
                       +:+ ".amazonaws.com"));
        ("x-amz-date", PStr (strftime reference YmdTHMSZ)) ]).
  { unfold prepare_request_body. cbn [l_signed_headers].
    by rewrite !headers_lookup_content_type, !headers_lookup_amz_date. }
  split; [exact Hs|]. split.
  { rewrite Hs. repeat constructor. }
  split.
  { rewrite <- join_lines by (rewrite Hs; done).
    unfold prepare_request_body. cbn [l_canonical_request l_signed_headers Py.join].
    by rewrite !str_app_assoc. }
  split; [by rewrite Hs|].
  unfold prepare_request_body at 1. cbn [l_to_sign Py.join].
  reflexivity.
Qed.

(** ** Header preparation *)

(** One call reads the clock once and returns the headers computed from
    that reading. *)
Lemma aws_prepare_request_run (W : world) (self : NotifySNS) (payload : string)
    (reference : option datetime) (st : state) :
  aws_prepare_request W self payload reference st
  = (Ok (l_headers (prepare_request_body self payload (utcnow_at W (clock st)))),
     {| heap := heap st; clock := S (clock st); trace := trace st;
        log := log st |}).
Proof. reflexivity. Qed.

Lemma prepared_headers_lookup (self : NotifySNS) (payload : string)
    (t : datetime) :
  let L := prepare_request_body self payload t in
  l_headers L !! "X-Amz-Date" = Some (PStr (strftime t YmdTHMSZ))
  ∧ l_headers L !! "Authorization"
    = Some (PStr (aws_auth_algorithm self +:+ " Credential="
                  +:+ aws_access_key_id self +:+ "/" +:+ l_scope L
                  +:+ ", SignedHeaders=content-type;host;x-amz-date, Signature="
                  +:+ aws_auth_signature self (l_to_sign L) t))
  ∧ l_headers L !! "Content-Length"
    = Some (PStr (str_of_nat (String.length payload)))
  ∧ l_headers L !! "Content-Type"
    = Some (PStr "application/x-www-form-urlencoded; charset=utf-8")
  ∧ l_headers L !! "User-Agent" = Some (PStr (app_id self))
  ∧ dom (l_headers L)
    = {[ "User-Agent"; "Content-Type"; "Content-Length"; "Authorization";
         "X-Amz-Date" ]}.
Proof.
  cbv zeta. unfold prepare_request_body. cbn [l_headers l_scope l_to_sign].
  split_and!.
  - rewrite lookup_insert_ne by done. by rewrite lookup_insert_eq.
  - rewrite lookup_insert_eq. do 2 f_equal.
    cbn [Py.join map fst]. by rewrite !str_app_assoc.
  - repeat (rewrite lookup_insert_ne by done). by rewrite lookup_insert_eq.
  - repeat (rewrite lookup_insert_ne by done). by rewrite lookup_insert_eq.
  - repeat (rewrite lookup_insert_ne by done). by rewrite lookup_insert_eq.
  - rewrite !dom_insert_L, dom_empty_L. set_solver.
Qed.

(** C8.  Two invocations of the header preparation for the same object
    and payload whose clock readings agree return the same headers,
    whatever the rest of the two environments and whatever was passed as
    [reference]; an invocation reads the clock once, and that one reading
    is the date of the X-Amz-Date header, the date of the credential scope
    and the date stamp that keys the signing chain of the Authorization
    header. *)
Theorem header_preparation_deterministic (W1 W2 : world) (self : NotifySNS)
    (payload : string) (r1 r2 : option datetime) (st1 st2 : state) :
  utcnow_at W1 (clock st1) = utcnow_at W2 (clock st2) →
  let t := utcnow_at W1 (clock st1) in
  let scope :=
    strftime t Ymd +:+ "/" +:+ aws_region_name self +:+ "/"
    +:+ aws_service_name self +:+ "/" +:+ aws_auth_request self in
  let kDate :=
    hmac_sha256_digest
      (encode_utf8 (aws_auth_version self +:+ aws_secret_access_key self))
      (encode_utf8 (strftime t Ymd)) in
  let kRegion := hmac_sha256_digest kDate (encode_utf8 (aws_region_name self)) in
  let kService := hmac_sha256_digest kRegion (encode_utf8 (aws_service_name self)) in
  let kSigning := hmac_sha256_digest kService (encode_utf8 (aws_auth_request self)) in
  ∃ headers : dict,
    (aws_prepare_request W1 self payload r1 st1).1 = Ok headers
    ∧ (aws_prepare_request W2 self payload r2 st2).1 = Ok headers
    ∧ clock (aws_prepare_request W1 self payload r1 st1).2 = S (clock st1)
    ∧ headers !! "X-Amz-Date" = Some (PStr (strftime t YmdTHMSZ))
    ∧ l_scope (prepare_request_body self payload t) = scope
    ∧ headers !! "Authorization"
      = Some (PStr (aws_auth_algorithm self +:+ " Credential="
                    +:+ aws_access_key_id self +:+ "/" +:+ scope
                    +:+ ", SignedHeaders=content-type;host;x-amz-date, Signature="
                    +:+ hexlify (hmac_sha256_digest kSigning
                          (encode_utf8 (l_to_sign (prepare_request_body self payload t)))))).
Proof.
  intros Ht. cbv zeta.
  exists (l_headers (prepare_request_body self payload (utcnow_at W1 (clock st1)))).
  rewrite !aws_prepare_request_run. cbn [fst snd clock].
  rewrite <- Ht.
  destruct (prepared_headers_lookup self payload (utcnow_at W1 (clock st1)))
    as (Hd & Ha & _).
  split_and!; [done..|exact Hd|done|exact Ha].
Qed.

End Signing.

(** ** The matcher on the patterns of the module *)

Section Matcher.

Context {A : Type}.
Implicit Types (p : ascii → bool) (s : list ascii) (g : Re.groups) (k : Re.cont A).

Lemma exec_seq r1 r2 s i g k :
  Re.exec (Re.Seq r1 r2) s i g k
  = Re.exec r1 s i g (λ s' i' g', Re.exec r2 s' i' g' k).
Proof. reflexivity. Qed.

Lemma exec_grp name r s i g k :
  Re.exec (Re.Grp name r) s i g k
  = Re.exec r s i g (λ s' i' g', k s' i' ((name, take (i' - i) s) :: g')).
Proof. reflexivity. Qed.

Lemma exec_opt r s i g k :
  Re.exec (Re.Opt r) s i g k
  = match Re.exec r s i g k with Some a => Some a | None => k s i g end.
Proof. reflexivity. Qed.

Lemma exec_bol s g k : Re.exec Re.Bol s 0 g k = k s 0 g.
Proof. reflexivity. Qed.

Lemma exec_chr c s i g k :
  Re.exec (Re.Chr c) s i g k
  = match s with
    | x :: s' => if decide (x = c) then k s' (S i) g else None
    | [] => None
    end.
Proof. reflexivity. Qed.

Lemma star_loop_cls p n s i g k :
  length s ≤ n →
  Re.star_loop (Re.exec (Re.Cls p)) n s i g k = greedy p s i g k.
Proof.
  revert s i. induction n as [|n IH]; intros s i Hn.
  - destruct s; [done|]. simpl in Hn. lia.
  - destruct s as [|x s]; [done|].
    cbn [Re.star_loop Re.exec greedy].
    destruct (p x); [|done].
    rewrite decide_True by (simpl; lia).
    rewrite IH by (simpl in Hn; lia). done.
Qed.

Lemma exec_star_cls p s i g k :
  Re.exec (Re.Star (Re.Cls p)) s i g k = greedy p s i g k.
Proof. cbn [Re.exec]. by apply star_loop_cls. Qed.

Lemma exec_plus_cls p s i g k :
  Re.exec (Re.Plus (Re.Cls p)) s i g k
  = match s with
    | x :: s' => if p x then greedy p s' (S i) g k else None
    | [] => None
    end.
Proof.
  unfold Re.Plus. cbn [Re.exec]. destruct s as [|x s]; [done|].
  destruct (p x); [|done]. by apply star_loop_cls.
Qed.

(** No split is accepted: the run fails. *)
Lemma greedy_none p s i g k :
  (∀ pre rest, s = pre ++ rest → forallb p pre = true →
     k rest (i + length pre) g = None) →
  greedy p s i g k = None.
Proof.
  revert i. induction s as [|x s IH]; intros i Hk.
  - simpl. rewrite <- (Nat.add_0_r i). by apply (Hk [] []).
  - assert (Hhere : k (x :: s) i g = None).
    { rewrite <- (Nat.add_0_r i). by apply (Hk [] (x :: s)). }
    simpl. destruct (p x) eqn:Hx; [|done].
    rewrite IH; [done|].
    intros pre rest -> Hpre.
    replace (S i + length pre) with (i + length (x :: pre)) by (simpl; lia).
    apply Hk; [done|]. simpl. by rewrite Hx.
Qed.

(** The longest run is accepted: it is the answer. *)
Lemma greedy_longest p pre rest i g k a :
  forallb p pre = true →
  match rest with x :: _ => p x = false | [] => True end →
  k rest (i + length pre) g = Some a →
  greedy p (pre ++ rest) i g k = Some a.
Proof.
  revert i. induction pre as [|x pre IH]; intros i Hpre Hrest Hk.
  - simpl in *. rewrite Nat.add_0_r in Hk.
    destruct rest as [|y rest]; simpl; [done|]. by rewrite Hrest.
  - simpl in Hpre. apply andb_true_iff in Hpre as [Hx Hpre].
    simpl. rewrite Hx. rewrite (IH (S i)); [done..|].
    by replace (S i + length pre) with (i + length (x :: pre)) by (simpl; lia).
Qed.

End Matcher.

Lemma span_spec (p : ascii → bool) (s : list ascii) :
  let '(a, b) := span p s in
  s = a ++ b ∧ forallb p a = true
  ∧ match b with x :: _ => p x = false | [] => True end.
Proof.
  induction s as [|x s IH]; [done|].
  simpl. destruct (p x) eqn:Hx.
  - destruct (span p s) as [a b]. destruct IH as (-> & Ha & Hb).
    simpl. by rewrite Hx.
  - simpl. by rewrite Hx.
Qed.

Lemma span_prefix (p : ascii → bool) (pre rest : list ascii) :
  forallb p pre = true →
  ∃ mid, (span p (pre ++ rest)).1 = pre ++ mid
         ∧ rest = mid ++ (span p (pre ++ rest)).2.
Proof.
  induction pre as [|x pre IH]; intros Hpre.
  - exists (span p rest).1. simpl.
    pose proof (span_spec p rest) as Hs. destruct (span p rest) as [a b].
    simpl. by destruct Hs as (-> & _).
  - simpl in Hpre. apply andb_true_iff in Hpre as [Hx Hpre].
    destruct (IH Hpre) as (mid & Ha & Hb).
    exists mid. simpl. rewrite Hx.
    destruct (span p (pre ++ rest)) as [a b]. simpl in *. by rewrite Ha.
Qed.

Lemma forallb_app_false {X} (q : X → bool) (a b : list X) :
  forallb q a = true → forallb q (a ++ b) = false → forallb q b = false.
Proof.
  intros Ha Hab. rewrite forallb_app, Ha in Hab. done.
Qed.

Lemma exec_tail_ok {A} (s : list ascii) (i : nat) (g : Re.groups)
    (k : Re.cont A) (a : A) :
  forallb Py.is_space s = true →
  k [] (i + length s) g = Some a →
  Re.exec TAIL s i g k = Some a.
Proof.
  intros Hs Hk. rewrite exec_seq, exec_star_cls.
  rewrite <- (app_nil_r s) at 1. by apply greedy_longest.
Qed.

Lemma exec_tail_none {A} (s : list ascii) (i : nat) (g : Re.groups)
    (k : Re.cont A) :
  forallb Py.is_space s = false →
  Re.exec TAIL s i g k = None.
Proof.
  intros Hs. rewrite exec_seq, exec_star_cls.
  apply greedy_none. intros pre rest -> Hpre.
  pose proof (forallb_app_false _ _ _ Hpre Hs) as Hrest.
  destruct rest as [|c [|c' rest]]; [done| |done].
  cbn [Re.exec]. destruct (decide (c = "010"%char)) as [->|]; [|done].
  by vm_compute in Hrest.
Qed.

Lemma space_is_phone_class (c : ascii) :
  Py.is_space c = true → phone_class c = true.
Proof.
  unfold phone_class. intros ->. by rewrite orb_true_r.
Qed.

Lemma forallb_space_phone (s : list ascii) :
  forallb Py.is_space s = true → forallb phone_class s = true.
Proof.
  rewrite !forallb_forall. intros Hs x Hx. apply space_is_phone_class. auto.
Qed.

Lemma exec_phone_body (s : list ascii) (i : nat) (g : Re.groups) :
  Re.exec (Re.Seq (Re.Grp "phone" (Re.Plus (Re.Cls phone_class))) TAIL) s i g FINAL
  = if negb (bool_decide (s = [])) && forallb phone_class s
    then Some (("phone", s) :: g) else None.
Proof.
  rewrite exec_seq, exec_grp, exec_plus_cls.
  destruct s as [|x s]; [done|].
  rewrite bool_decide_false by done. cbn [negb andb forallb].
  destruct (phone_class x) eqn:Hx; [|done]. cbn [andb].
  destruct (forallb phone_class s) eqn:Hs.
  - rewrite <- (app_nil_r s) at 1.
    apply greedy_longest; [done..|].
    apply (exec_tail_ok (A := Re.groups)); [done|].
    do 3 f_equal.
    replace (S i + length s - i) with (length (x :: s)) by (simpl; lia).
    apply firstn_all.
  - apply greedy_none. intros pre rest -> Hpre.
    apply (exec_tail_none (A := Re.groups)).
    destruct (forallb Py.is_space rest) eqn:Hr; [|done].
    apply forallb_space_phone in Hr.
    by rewrite forallb_app, Hpre, Hr in Hs.
Qed.

Lemma chars_nil (t : string) : Py.chars t = [] ↔ t = "".
Proof. destruct t; simpl; split; congruence. Qed.

(** [IS_PHONE_NO] matches exactly the phone-shaped texts. *)
Lemma match_phone (t : string) :
  Re.match_ IS_PHONE_NO t
  = if phone_shape t then Some [("phone", phone_group (Py.chars t))] else None.
Proof.
  unfold Re.match_, IS_PHONE_NO, phone_shape.
  assert (Ht : bool_decide (t = "") = bool_decide (Py.chars t = [])).
  { apply bool_decide_ext. symmetry. apply chars_nil. }
  rewrite Ht. clear Ht. generalize (Py.chars t) as s. clear t. intros s.
  rewrite exec_seq, exec_bol, exec_seq, exec_opt, exec_chr.
  destruct s as [|x s]; [by rewrite exec_phone_body|].
  destruct (decide (x = "+"%char)) as [->|Hx].
  - rewrite !exec_phone_body.
    destruct s as [|y s]; [done|].
    rewrite !bool_decide_false by done. cbn [negb andb].
    change (forallb phone_class ("+"%char :: y :: s)) with (forallb phone_class (y :: s)).
    by destruct (forallb phone_class (y :: s)).
  - rewrite exec_phone_body.
    replace (phone_group (x :: s)) with (x :: s); [done|].
    unfold phone_group. destruct x as [[] [] [] [] [] [] [] []]; try done.
    all: destruct s; done.
Qed.

(** ** Digit runs *)

Lemma find_first_plus_cls (p : ascii → bool) (s : list ascii) (i : nat) :
  Re.find_first (Re.Plus (Re.Cls p)) s i
  = match s with
    | [] => None
    | x :: s' =>
        if p x then Some ([], x :: (span p s').1, (span p s').2)
        else match Re.find_first (Re.Plus (Re.Cls p)) s' (S i) with
             | Some (pre, m, post) => Some (x :: pre, m, post)
             | None => None
             end
    end.
Proof.
  destruct s as [|x s]; [done|].
  cbn [Re.find_first]. rewrite exec_plus_cls.
  destruct (p x) eqn:Hx; [|done].
  pose proof (span_spec p s) as Hs. destruct (span p s) as [a b].
  destruct Hs as (-> & Ha & Hb). cbn [fst snd].
  erewrite greedy_longest; [|done..|].
  2:{ rewrite decide_True by lia. reflexivity. }
  cbn beta iota. do 2 f_equal.
  replace (S i + length a - i) with (S (length a)) by lia.
  simpl. f_equal. by rewrite take_app_length.
Qed.

Lemma find_first_plus_spec (p : ascii → bool) (s : list ascii) (i : nat) :
  match Re.find_first (Re.Plus (Re.Cls p)) s i with
  | None => List.filter p s = []
  | Some (pre, m, post) =>
      s = pre ++ m ++ post ∧ List.filter p pre = []
      ∧ List.filter p m = m ∧ m ≠ []
  end.
Proof.
  revert i. induction s as [|x s IH]; intros i; [done|].
  rewrite find_first_plus_cls. destruct (p x) eqn:Hx.
  - pose proof (span_spec p s) as Hs. destruct (span p s) as [a b].
    destruct Hs as (-> & Ha & _). cbn [fst snd]. split_and!; [done..| |done].
    simpl. rewrite Hx. f_equal.
    clear -Ha. induction a as [|y a IH]; [done|].
    simpl in *. apply andb_true_iff in Ha as [-> Ha]. by rewrite IH.
  - specialize (IH (S i)).
    destruct (Re.find_first (Re.Plus (Re.Cls p)) s (S i)) as [[[pre m] post]|].
    + destruct IH as (-> & Hpre & Hm & Hne). split_and!; [done| |done..].
      simpl. by rewrite Hx.
    + simpl. by rewrite Hx.
Qed.

Lemma join_empty_cons (a : string) (l : list string) :
  Py.join "" (a :: l) = a +:+ Py.join "" l.
Proof.
  destruct l as [|b l]; cbn [Py.join]; [by rewrite str_app_nil_r|done].
Qed.

Lemma findall_plus_cls (p : ascii → bool) (fuel : nat) (s : list ascii) (i : nat) :
  length s ≤ fuel →
  Py.join "" (Re.findall_from fuel (Re.Plus (Re.Cls p)) s i)
  = Py.str (List.filter p s).
Proof.
  revert s i. induction fuel as [|fuel IH]; intros s i Hf.
  - destruct s; [done|]. simpl in Hf. lia.
  - cbn [Re.findall_from].
    pose proof (find_first_plus_spec p s i) as Hs.
    destruct (Re.find_first (Re.Plus (Re.Cls p)) s i) as [[[pre m] post]|].
    + destruct Hs as (-> & Hpre & Hm & Hne).
      rewrite join_empty_cons, IH.
      * rewrite !List.filter_app, Hpre, Hm. simpl. by rewrite str_app.
      * rewrite !length_app in Hf. destruct m; [done|]. simpl in Hf. lia.
    + by rewrite Hs.
Qed.

Lemma str_length (l : list ascii) : String.length (Py.str l) = length l.
Proof. by rewrite <- chars_length, chars_str. Qed.

(** The digits that the code extracts from a phone-shaped recipient are
    the digits of the recipient. *)
Lemma phone_digits_group (t : string) :
  phone_digits [("phone", phone_group (Py.chars t))] = digits_of t.
Proof.
  unfold phone_digits, digits_of, Re.findall.
  replace (Re.group [("phone", phone_group (Py.chars t))] "phone")
    with (Py.str (phone_group (Py.chars t))) by done.
  rewrite chars_str, str_length. unfold DIGITS.
  rewrite findall_plus_cls by done. f_equal.
  destruct (Py.chars t) as [|x s]; [done|].
  destruct x as [[] [] [] [] [] [] [] []]; try done.
  by destruct s.
Qed.

(** ** The topic pattern *)

Lemma exec_topic_body (s : list ascii) (i : nat) (g : Re.groups) :
  Re.exec (Re.Seq (Re.Grp "name" (Re.Plus (Re.Cls topic_class))) TAIL) s i g FINAL
  = let '(name, rest) := span topic_class s in
    if negb (bool_decide (name = [])) && forallb Py.is_space rest
    then Some (("name", name) :: g) else None.
Proof.
  rewrite exec_seq, exec_grp, exec_plus_cls.
  destruct s as [|x s]; [done|].
  cbn [span]. destruct (topic_class x) eqn:Hx; [|done].
  pose proof (span_spec topic_class s) as Hs.
  pose proof (λ pre rest, span_prefix topic_class pre rest) as Hp.
  destruct (span topic_class s) as [a b] eqn:Hab.
  destruct Hs as (-> & Ha & Hb).
  rewrite bool_decide_false by done. cbn [negb andb].
  destruct (forallb Py.is_space b) eqn:Hws.
  - apply greedy_longest; [done..|].
    apply (exec_tail_ok (A := Re.groups)); [done|].
    do 3 f_equal.
    replace (S i + length a - i) with (S (length a)) by lia.
    simpl. f_equal. by rewrite take_app_length.
  - apply greedy_none. intros pre rest Hsplit Hpre.
    apply (exec_tail_none (A := Re.groups)).
    destruct (Hp pre rest Hpre) as (mid & _ & Hmid).
    rewrite <- Hsplit, Hab in Hmid. cbn [snd] in Hmid.
    destruct (forallb Py.is_space rest) eqn:Hr; [|done].
    rewrite Hmid, forallb_app, Hws, andb_false_r in Hr. done.
Qed.

(** [IS_TOPIC] matches exactly the topic-shaped texts, and its group
    [name] is their name. *)
Lemma match_topic (t : string) :
  Re.match_ IS_TOPIC t = (λ n, [("name", Py.chars n)]) <$> topic_name t.
Proof.
  unfold Re.match_, IS_TOPIC, topic_name.
  generalize (Py.chars t) as s. clear t. intros s.
  rewrite exec_seq, exec_bol, exec_seq, exec_opt, exec_chr.
  assert (Hfmt : ∀ (s : list ascii) i,
    Re.exec (Re.Seq (Re.Grp "name" (Re.Plus (Re.Cls topic_class))) TAIL) s i [] FINAL
    = (λ n, [("name", Py.chars n)]) <$>
        (let '(name, rest) := span topic_class s in
         if negb (bool_decide (name = [])) && forallb Py.is_space rest
         then Some (Py.str name) else None)).
  { intros s' i. rewrite exec_topic_body. destruct (span topic_class s') as [a b].
    destruct (negb (bool_decide (a = [])) && forallb Py.is_space b); [|done].
    simpl. by rewrite chars_str. }
  destruct s as [|x s]; [by rewrite Hfmt|].
  destruct (decide (x = "#"%char)) as [->|Hx].
  - rewrite !Hfmt.
    destruct (span topic_class s) as [a b].
    destruct (negb (bool_decide (a = [])) && forallb Py.is_space b); done.
  - rewrite Hfmt.
    destruct x as [[] [] [] [] [] [] [] []]; done.
Qed.

(** ** Classification of the recipients *)

(** The loop body of [__init__] classifies the recipient and stores the
    verdict. *)
Lemma validate_recipient_classify (p tl : loc) (t : string) :
  validate_recipient p tl t = store_verdict p tl t (classify t).
Proof.
  unfold validate_recipient, classify, store_verdict.
  rewrite match_phone. destruct (phone_shape t) eqn:Hp.
  - rewrite phone_digits_group.
    destruct (String.length (digits_of t) <? 11) eqn:H1;
      destruct (14 <? String.length (digits_of t)) eqn:H2;
      destruct (11 <=? String.length (digits_of t)) eqn:H3;
      destruct (String.length (digits_of t) <=? 14) eqn:H4;
      cbn [orb andb]; try reflexivity; rewrite ?Hp; try reflexivity;
      apply Nat.ltb_lt in H1 || apply Nat.ltb_ge in H1;
      apply Nat.ltb_lt in H2 || apply Nat.ltb_ge in H2;
      apply Nat.leb_le in H3 || apply Nat.leb_gt in H3;
      apply Nat.leb_le in H4 || apply Nat.leb_gt in H4; lia.
  - rewrite match_topic. destruct (topic_name t) as [n|]; cbn [fmap option_fmap option_map].
    + replace (Re.group [("name", Py.chars n)] "name") with (Py.str (Py.chars n)) by done.
      by rewrite str_chars.
    + done.
Qed.

Lemma store_verdict_run (p tl : loc) (t : string) (st : state) :
  p ≠ tl →
  ∃ st', store_verdict p tl t (classify t) st = (Ok tt, st')
    ∧ heap st' !!! p = heap st !!! p ++ phones_of [t]
    ∧ heap st' !!! tl = heap st !!! tl ++ topics_of [t]
    ∧ (∀ l, l ≠ p → l ≠ tl → heap st' !! l = heap st !! l)
    ∧ dom (heap st) ⊆ dom (heap st')
    ∧ clock st' = clock st ∧ trace st' = trace st
    ∧ (∃ ws, log st' = log st ++ ws ∧ Forall (λ e, e.1 = WARNING) ws).
Proof.
  intros Hne. unfold phones_of, topics_of. cbn [omap list_omap].
  destruct (classify t) as [n|n|]; cbn [store_verdict append logger];
    eexists; (split; [reflexivity|]); cbn [heap clock trace log].
  - rewrite lookup_total_insert_eq, lookup_total_insert_ne by done.
    rewrite app_nil_r. split_and!; try done.
    + intros l Hl _. by rewrite lookup_insert_ne.
    + rewrite dom_insert. set_solver.
    + exists []. by rewrite app_nil_r.
  - rewrite lookup_total_insert_eq, lookup_total_insert_ne by done.
    rewrite app_nil_r. split_and!; try done.
    + intros l _ Hl. by rewrite lookup_insert_ne.
    + rewrite dom_insert. set_solver.
    + exists []. by rewrite app_nil_r.
  - rewrite !app_nil_r. split_and!; try done.
    eexists. split; [reflexivity|]. by repeat constructor.
Qed.

Lemma phones_of_cons (t : string) (l : list string) :
  phones_of (t :: l) = phones_of [t] ++ phones_of l.
Proof. unfold phones_of. cbn [omap list_omap]. by destruct (classify t). Qed.

Lemma topics_of_cons (t : string) (l : list string) :
  topics_of (t :: l) = topics_of [t] ++ topics_of l.
Proof. unfold topics_of. cbn [omap list_omap]. by destruct (classify t). Qed.

(** The loop of [__init__] over the recipients *)
Lemma for_each_validate (p tl : loc) (tokens : list string) (st : state) :
  p ≠ tl →
  ∃ st', for_each tokens (validate_recipient p tl) st = (Ok tt, st')
    ∧ heap st' !!! p = heap st !!! p ++ phones_of tokens
    ∧ heap st' !!! tl = heap st !!! tl ++ topics_of tokens
    ∧ (∀ l, l ≠ p → l ≠ tl → heap st' !! l = heap st !! l)
    ∧ dom (heap st) ⊆ dom (heap st')
    ∧ clock st' = clock st ∧ trace st' = trace st
    ∧ (∃ ws, log st' = log st ++ ws ∧ Forall (λ e, e.1 = WARNING) ws).
Proof.
  intros Hne. revert st. induction tokens as [|t tokens IH]; intros st.
  - exists st. cbn [for_each]. unfold ret.
    rewrite !app_nil_r. split_and!; try done.
    exists []. by rewrite app_nil_r.
  - cbn [for_each]. unfold bind at 1.
    rewrite validate_recipient_classify.
    destruct (store_verdict_run p tl t st Hne)
      as (st1 & -> & Hp & Ht & Ho & Hd & Hc & Htr & ws1 & Hl1 & Hw1).
    destruct (IH st1)
      as (st2 & -> & Hp2 & Ht2 & Ho2 & Hd2 & Hc2 & Htr2 & ws2 & Hl2 & Hw2).
    exists st2. split; [done|].
    rewrite (phones_of_cons t tokens), (topics_of_cons t tokens).
    rewrite Hp2, Ht2, Hp, Ht, <- !app_assoc.
    split_and!.
    + done.
    + done.
    + intros l H1 H2. by rewrite Ho2, Ho.
    + set_solver.
    + congruence.
    + congruence.
    + exists (ws1 ++ ws2). rewrite Hl2, Hl1, <- app_assoc.
      split; [done|]. by apply Forall_app.
Qed.

(** C3 (as amended).  For recipients of ASCII characters, where white
    space is the tabulation, the newline, the vertical tabulation, the
    form feed, the carriage return, the separators U+001C to U+001F and
    the space.  A recipient is phone-shaped when [IS_PHONE_NO]
    matches it, that is when it is not empty and consists of digits, white
    space, parentheses, pluses and dashes.  A phone-shaped recipient is
    stored as a phone if and only if it has 11 to 14 digits, as a plus
    followed by its digits, and is dropped otherwise, without being tried
    as a topic.  A recipient that is not phone-shaped is stored as a topic
    when [IS_TOPIC] matches it, that is when it is an optional [#], a name
    of letters, digits, underscores and dashes, and then white space only,
    and the name is what is stored; any other recipient is dropped.  The
    loop over the recipients appends the phones to the phones and the
    topics to the topics in the order of the recipients, and nothing is
    removed. *)
Theorem recipient_classification (p tl : loc) (Hne : p ≠ tl) :
  (∀ t, Py.ascii_text t = true →
     validate_recipient p tl t = store_verdict p tl t (classify t))
  ∧ (∀ t, Py.ascii_text t = true →
       (is_Some (Re.match_ IS_PHONE_NO t) ↔ phone_shape t = true))
  ∧ (∀ t, Py.ascii_text t = true → phone_shape t = true →
       ((∃ n, classify t = Phone n) ↔ 11 ≤ String.length (digits_of t) ≤ 14)
       ∧ (11 ≤ String.length (digits_of t) ≤ 14 →
            classify t = Phone ("+" +:+ digits_of t))
       ∧ (¬ 11 ≤ String.length (digits_of t) ≤ 14 → classify t = Dropped))
  ∧ (∀ t, Py.ascii_text t = true → phone_shape t = false →
       (is_Some (Re.match_ IS_TOPIC t) ↔ is_Some (topic_name t))
       ∧ (∀ n, topic_name t = Some n → classify t = Topic n)
       ∧ (topic_name t = None → classify t = Dropped))
  ∧ (∀ tokens st, forallb Py.ascii_text tokens = true →
       ∃ st',
         for_each tokens (validate_recipient p tl) st = (Ok tt, st')
         ∧ heap st' !!! p = heap st !!! p ++ phones_of tokens
         ∧ heap st' !!! tl = heap st !!! tl ++ topics_of tokens).
Proof.
  split_and!.
  - intros t _. apply validate_recipient_classify.
  - intros t _. rewrite match_phone. destruct (phone_shape t).
    + split; [done|]. intros _. by eexists.
    + split; [by intros [? ?]|done].
  - intros t _ Hp. unfold classify. rewrite Hp.
    destruct (11 <=? String.length (digits_of t)) eqn:H3;
      destruct (String.length (digits_of t) <=? 14) eqn:H4; cbn [andb];
      apply Nat.leb_le in H3 || apply Nat.leb_gt in H3;
      apply Nat.leb_le in H4 || apply Nat.leb_gt in H4;
      (split_and!; [split; [intros [n Hn]; (done || lia)|intros ?; (by eexists) || lia]
                   | intros ?; (done || lia) | intros ?; (done || lia)]).
  - intros t _ Hp. unfold classify. rewrite Hp, match_topic.
    destruct (topic_name t) as [n|]; cbn [fmap option_fmap option_map].
    + split_and!; [done| |done]. by intros ? [= ->].
    + split_and!; [|done..]. split; by intros [? ?].
  - intros tokens st _.
    destruct (for_each_validate p tl tokens st Hne) as (st' & H1 & H2 & H3 & _).
    by exists st'.
Qed.

(** ** The constructor *)

Lemma init_invalid (agent : string) (verify : bool)
    (ak sk region : option string) (recipients : recipients_arg) (st : state) :
  valid_config ak sk region = false →
  ∃ msg, __init__ agent verify ak sk region recipients st = (Raise (TypeError msg), st).
Proof.
  unfold valid_config, __init__. intros Hv.
  destruct (Py.truthy ak); [|by eexists].
  destruct (Py.truthy sk); [|by eexists].
  cbn [andb negb] in *. rewrite Hv. by eexists.
Qed.

Lemma init_run (agent : string) (verify : bool)
    (ak sk region : option string) (recipients : recipients_arg) (st : state) :
  valid_config ak sk region = true →
  ∃ self st',
    __init__ agent verify ak sk region recipients st = (Ok self, st')
    ∧ self = {|
        app_id := agent; verify_certificate := verify;
        topics := topics self; phone := phone self;
        aws_access_key_id := default "" ak;
        aws_secret_access_key := default "" sk;
        aws_region_name := default "" region;
        notify_url := "https://sns." +:+ default "" region +:+ ".amazonaws.com/";
        aws_service_name := "sns"; aws_canonical_uri := "/";
        aws_auth_version := "AWS4"; aws_auth_algorithm := "AWS4-HMAC-SHA256";
        aws_auth_request := "aws4_request" |}
    ∧ phone self ≠ topics self
    ∧ (phone self ∉ dom (heap st)) ∧ (topics self ∉ dom (heap st))
    ∧ phone self ∈ dom (heap st') ∧ topics self ∈ dom (heap st')
    ∧ heap st' !!! phone self = phones_of (recipient_list recipients)
    ∧ heap st' !!! topics self = topics_of (recipient_list recipients)
    ∧ (∀ l, l ∈ dom (heap st) → heap st' !! l = heap st !! l)
    ∧ clock st' = clock st ∧ trace st' = trace st
    ∧ (∃ ws, Forall (λ e, e.1 = WARNING) ws
        ∧ log st' = log st ++ ws
                    ++ (if bool_decide (phones_of (recipient_list recipients) = []
                                        ∧ topics_of (recipient_list recipients) = [])
                        then [no_recipient_warning] else [])).
Proof.
  unfold valid_config, __init__. intros Hv.
  apply andb_true_iff in Hv as [Hv Hr]. apply andb_true_iff in Hv as [Hv Hreg].
  apply andb_true_iff in Hv as [Hak Hsk].
  rewrite Hak, Hsk, Hreg, Hr. cbn [negb andb].
  unfold bind at 1. cbn [new_list].
  set (tl := fresh (dom (heap st))).
  unfold bind at 1. cbn [new_list heap clock trace log].
  set (p := fresh (dom (<[tl:=[]]> (heap st)))).
  assert (Htl : tl ∉ dom (heap st)) by apply is_fresh.
  assert (Hp : p ∉ dom (<[tl:=[]]> (heap st))) by apply is_fresh.
  rewrite dom_insert in Hp.
  assert (Hne : p ≠ tl) by set_solver.
  assert (Hpd : p ∉ dom (heap st)) by set_solver.
  unfold bind at 1. cbn [phone topics].
  match goal with |- context [for_each _ _ ?s] => set (st2 := s) end.
  destruct (for_each_validate p tl (recipient_list recipients) st2 Hne)
    as (st3 & -> & Hph & Hto & Hoth & Hdom & Hc & Htr & ws & Hlog & Hws).
  assert (Hph0 : heap st2 !!! p = []) by (subst st2; cbn [heap]; apply lookup_total_insert_eq).
  assert (Hto0 : heap st2 !!! tl = []).
  { subst st2. cbn [heap]. rewrite lookup_total_insert_ne by done.
    apply lookup_total_insert_eq. }
  rewrite Hph0 in Hph. rewrite Hto0 in Hto. rewrite app_nil_l in Hph, Hto.
  unfold bind at 1, len at 1. unfold bind at 1, len at 1.
  rewrite Hph, Hto.
  assert (Hin : p ∈ dom (heap st3) ∧ tl ∈ dom (heap st3)).
  { subst st2. cbn [heap] in Hdom. rewrite !dom_insert in Hdom. set_solver. }
  assert (Hold : ∀ l, l ∈ dom (heap st) → heap st3 !! l = heap st !! l).
  { intros l Hl.
    assert (l ≠ p) by (intros ->; done). assert (l ≠ tl) by (intros ->; done).
    rewrite Hoth by done. subst st2. cbn [heap].
    by rewrite !lookup_insert_ne. }
  destruct Hin as [Hin1 Hin2].
  assert (Hc' : clock st3 = clock st) by (by rewrite Hc).
  assert (Htr' : trace st3 = trace st) by (by rewrite Htr).
  assert (Hlog' : log st3 = log st ++ ws) by (by rewrite Hlog).
  clearbody st2 p tl. clear Hlog Hc Htr.
  destruct (phones_of (recipient_list recipients)) as [|ph phs] eqn:Eph;
    destruct (topics_of (recipient_list recipients)) as [|to tos] eqn:Eto;
    cbn [length Nat.eqb andb]; unfold bind, logger, ret;
    do 2 eexists; (split; [reflexivity|]); cbn [phone topics heap clock trace log];
    (split_and!; [done..|]); exists ws; (split; [done|]).
  - rewrite bool_decide_true by done. by rewrite Hlog', app_assoc.
  - rewrite bool_decide_false by (intros [? ?]; done). by rewrite app_nil_r.
  - rewrite bool_decide_false by (intros [? ?]; done). by rewrite app_nil_r.
  - rewrite bool_decide_false by (intros [? ?]; done). by rewrite app_nil_r.
Qed.

(** ** The response parser *)

Lemma bind_run {S A B} (m : ST S A) (f : A → ST S B) (st : S) :
  bind m f st
  = match m st with
    | (Ok a, st') => f a st'
    | (Raise e, st') => (Raise e, st')
    | (Diverge, st') => (Diverge, st')
    end.
Proof. reflexivity. Qed.

Lemma element_ind' (P : element → Prop) :
  (∀ tag text children, Forall P children → P (Element tag text children)) →
  ∀ e, P e.
Proof.
  intros H. fix IH 1. intros [tag text children]. apply H.
  induction children as [|c children IHc]; constructor; [apply IH|exact IHc].
Qed.

Lemma walk_leaves_app (a b : list (string * option string)) (d : dict) :
  walk_leaves (a ++ b) d = (let* _ := walk_leaves a in walk_leaves b) d.
Proof.
  revert d. induction a as [|leaf a IH]; intros d; [done|].
  cbn [app walk_leaves]. unfold bind.
  destruct (aws_keep_map !! leaf.1) as [key|]; [destruct leaf.2|];
    cbn [setitem raise ret]; [rewrite IH| |rewrite IH]; done.
Qed.

(** The recursive walk visits the leaves depth first. *)
Lemma _xml_iter_leaves (root : element) (d : dict) :
  _xml_iter root d = walk_leaves (leaves root) d.
Proof.
  revert d. induction root as [tag text children IH] using element_ind'.
  intros d. cbn [_xml_iter leaves].
  destruct (0 <? length children).
  - revert d. induction IH as [|c l Hc Hl IHl]; intros d; [done|].
    rewrite walk_leaves_app, !bind_run, Hc.
    destruct (walk_leaves (leaves c) d) as [[[]|e|] d']; [exact (IHl d')|done..].
  - cbn [walk_leaves fst snd]. unfold bind.
    destruct (aws_keep_map !! tag) as [key|]; [destruct text|];
      cbv [setitem raise ret]; done.
Qed.

Lemma leaf_ok_eq (tag : string) (text : option string) :
  leaf_ok (tag, text)
  = match aws_keep_map !! tag with
    | Some _ => match text with Some _ => true | None => false end
    | None => true
    end.
Proof. reflexivity. Qed.

Lemma record_leaf_eq (d : dict) (tag : string) (text : option string) :
  record_leaf d (tag, text)
  = match aws_keep_map !! tag with
    | Some key =>
        match text with
        | Some t => <[key := PStr (Py.strip t)]> d
        | None => d
        end
    | None => d
    end.
Proof. reflexivity. Qed.

(** The walk over the leaves records the leaves in their order when all
    of them can be recorded or passed, and raises [AttributeError]
    otherwise. *)
Lemma walk_leaves_run (l : list (string * option string)) (d : dict) :
  ∃ d', walk_leaves l d
  = (if forallb leaf_ok l then Ok tt
     else Raise (AttributeError "'NoneType' object has no attribute 'strip'"),
     d')
  ∧ (forallb leaf_ok l = true → d' = foldl record_leaf d l).
Proof.
  revert d. induction l as [|leaf l IH]; intros d.
  - by exists d.
  - destruct leaf as [tag text].
    cbn [walk_leaves forallb foldl]. rewrite bind_run.
    rewrite !leaf_ok_eq, record_leaf_eq. cbn [fst snd].
    destruct (aws_keep_map !! tag) as [key|]; [destruct text as [t|]|];
      cbv [setitem raise ret]; cbn [andb].
    + apply IH.
    + by exists d.
    + apply IH.
Qed.

(** What [aws_response_to_dict] returns: the default response for [None]
    and for a text that is not XML; for a text that parses, the response
    with the tag of the root and the recognized leaves, unless one of
    these has no text, in which case [AttributeError] leaves the
    function. *)
Lemma aws_response_to_dict_run `{I : Imports} (aws_response : option string) :
  aws_response_to_dict aws_response
  = match aws_response with
    | None => Ok default_response
    | Some s =>
        match ElementTree_fromstring (Re.sub1_empty XMLNS s) with
        | None => Ok default_response
        | Some root =>
            if forallb leaf_ok (leaves root)
            then Ok (foldl record_leaf
                       (<["type" := PStr (root_tag root)]> default_response)
                       (leaves root))
            else Raise (AttributeError "'NoneType' object has no attribute 'strip'")
        end
    end.
Proof.
  unfold aws_response_to_dict. fold default_response.
  destruct aws_response as [s|]; [|done].
  unfold bind at 1. cbn [ret].
  unfold bind at 1.
  destruct (ElementTree_fromstring (Re.sub1_empty XMLNS s)) as [root|]; [|done].
  cbn [ret]. unfold bind at 1, setitem at 1. fold (root_tag root).
  rewrite _xml_iter_leaves.
  destruct (walk_leaves_run (leaves root)
              (<["type" := PStr (root_tag root)]> default_response))
    as (d' & -> & Hd').
  destruct (forallb leaf_ok (leaves root)); [|done].
  by rewrite Hd'.
Qed.

Lemma aws_response_to_dict_not_diverge `{I : Imports} (aws_response : option string) :
  aws_response_to_dict aws_response ≠ Diverge.
Proof.
  rewrite aws_response_to_dict_run. repeat case_match; done.
Qed.

(** ** One request *)

Section Dispatch.

Context `{I : Imports}.
Variable W : world.

(** What a call of [_post] does: it reads the clock once, sends the
    signed request, logs, and returns the success flag and the response
    dictionary, unless the response parser raises. *)
Lemma _post_run (self : NotifySNS) (payload : list (string * string))
    (to : string) (st : state) :
  let r := request_of self payload (utcnow_at W (clock st)) in
  let answer := requests_post W (trace st) r in
  ∃ lines,
    _post W self payload to st
    = (match response_dict answer with
       | Ok d => Ok (post_ok answer, d)
       | Raise e => Raise e
       | Diverge => Diverge
       end,
       {| heap := heap st; clock := S (clock st);
          trace := trace st ++ [EvPost r]; log := log st ++ lines |}).
Proof.
  cbv zeta. unfold _post.
  unfold bind at 1. rewrite aws_prepare_request_run.
  unfold bind at 1, logger at 1. unfold bind at 1, logger at 1.
  unfold bind at 1, post at 1. cbn [heap clock trace log].
  fold (request_of self payload (utcnow_at W (clock st))).
  destruct (requests_post W (trace st) _) as [code text|msg]; cbn [response_dict post_ok].
  - destruct (bool_decide (code = 200%Z)); cbn [negb].
    + unfold bind at 1, logger at 1. unfold bind at 1, lift at 1.
      destruct (aws_response_to_dict (Some text)); cbn [log];
        rewrite <- !app_assoc; by eexists.
    + unfold bind at 1.
      destruct (AWS_HTTP_ERROR_MAP code).
      * unfold logger at 1. unfold bind at 1, lift at 1.
        destruct (aws_response_to_dict (Some text)); cbn [log];
          rewrite <- !app_assoc; by eexists.
      * unfold bind at 1, logger at 1. unfold logger at 1.
        unfold bind at 1, lift at 1.
        destruct (aws_response_to_dict (Some text)); cbn [log];
          rewrite <- !app_assoc; by eexists.
  - unfold bind at 1, logger at 1. unfold bind at 1, logger at 1.
    unfold bind at 1, lift at 1.
    destruct (aws_response_to_dict None); cbn [log];
      rewrite <- !app_assoc; by eexists.
Qed.

(** ** The two loops of [notify] *)

Lemma pause_throttle (q : list string) (st : state) :
  ∃ st', (if 0 <? length q then throttle else ret tt) st = (Ok tt, st')
    ∧ heap st' = heap st ∧ clock st' = clock st
    ∧ trace st' = trace st ++ pause q ∧ log st' = log st.
Proof.
  destruct q as [|x q]; cbn [length Nat.ltb Nat.leb pause]; eexists;
    (split; [reflexivity|]); cbn [heap clock trace log]; [|done].
  by rewrite app_nil_r.
Qed.

(** A run of the loop over the phones: it leaves the other lists alone;
    when it ends, its events and failures are those of the phones phase
    and the queue is empty; when it raises, the response parser raised on
    an answer; it runs out of fuel only when the fuel does not exceed the
    length of the queue. *)
Lemma phone_loop_run (fuel : nat) (self : NotifySNS) (body : string)
    (q : loc) (error_count : nat) (st : state) (o : outcome nat) (st' : state) :
  phone_loop W fuel self body q error_count st = (o, st') →
  (∀ l, l ≠ q → heap st' !! l = heap st !! l)
  ∧ match o with
    | Ok error_count' =>
        ∃ evs n,
          trace st' = trace st ++ evs
          ∧ phones_phase W self body (heap st !!! q) (trace st) evs n
          ∧ error_count' = error_count + n
    | Raise e => ∃ h r, response_dict (requests_post W h r) = Raise e
    | Diverge => fuel ≤ length (heap st !!! q)
    end.
Proof.
  revert error_count st o st'.
  induction fuel as [|fuel IH]; intros ec st o st' Hrun.
  - cbn [phone_loop] in Hrun. unfold diverge in Hrun.
    injection Hrun as <- <-. split; [done|]. lia.
  - cbn [phone_loop] in Hrun. rewrite bind_run in Hrun. unfold len at 1 in Hrun.
    destruct (heap st !!! q) as [|no ps] eqn:Hq; cbn [length Nat.ltb Nat.leb] in Hrun.
    { unfold ret in Hrun. injection Hrun as <- <-. split; [done|].
      exists [], 0. rewrite app_nil_r. split_and!; [done|constructor|lia]. }
    rewrite bind_run in Hrun. unfold pop0 at 1 in Hrun. rewrite Hq in Hrun.
    rewrite bind_run in Hrun.
    match type of Hrun with context [_post W self ?pl no ?s] =>
      set (st1 := s) in Hrun; destruct (_post_run self pl no st1) as (lines & Hpost) end.
    cbv zeta in Hpost. rewrite Hpost in Hrun. clear Hpost.
    set (r := request_of self (publish_phone_payload body no) (utcnow_at W (clock st1))) in *.
    set (answer := requests_post W (trace st1) r) in *.
    destruct (response_dict answer) as [d|e|] eqn:Hd.
    + cbv beta iota in Hrun.
      match type of Hrun with context [bind (len q) _ ?s] => set (st2 := s) in Hrun end.
      rewrite bind_run in Hrun. unfold len at 1 in Hrun.
      assert (Hq2 : heap st2 !!! q = ps) by apply lookup_total_insert_eq.
      rewrite Hq2 in Hrun. rewrite bind_run in Hrun.
      change (match length ps with 0 => false | S _ => true end)
        with (0 <? length ps) in Hrun.
      destruct (pause_throttle ps st2) as (st3 & Hth & Hh3 & Hc3 & Ht3 & Hl3).
      rewrite Hth in Hrun.
      apply IH in Hrun as [IHf IHr].
      assert (Hq3 : heap st3 !!! q = ps) by (by rewrite Hh3).
      split.
      { intros l Hl. rewrite IHf by done. rewrite Hh3. subst st2 st1.
        cbn [heap]. by rewrite lookup_insert_ne. }
      destruct o as [ec'|e|].
      * destruct IHr as (evs & n & Htr & Hph & Hec).
        exists (EvPost r :: pause ps ++ evs), (failed answer + n).
        rewrite Hq3 in Hph. rewrite Ht3 in Htr, Hph.
        subst st2. cbn [trace] in Htr, Hph.
        change (trace st1) with (trace st) in Htr, Hph.
        rewrite <- app_assoc in Htr, Hph.
        split_and!.
        -- by rewrite <- app_assoc in Htr.
        -- apply phones_send; [by eexists|]. exact Hph.
        -- rewrite Hec. unfold failed. destruct (post_ok answer); lia.
      * exact IHr.
      * rewrite Hq3 in IHr. simpl. lia.
    + injection Hrun as <- <-. split.
      { intros l Hl. cbn [heap]. subst st1. cbn [heap]. by rewrite lookup_insert_ne. }
      by exists (trace st1), r.
    + exfalso. unfold response_dict in Hd.
      destruct answer; by apply aws_response_to_dict_not_diverge in Hd.
Qed.

(** A run of the loop over the topics, in the same terms. *)
Lemma topics_loop_run (fuel : nat) (self : NotifySNS) (body : string)
    (q : loc) (error_count : nat) (st : state) (o : outcome nat) (st' : state) :
  topics_loop W fuel self body q error_count st = (o, st') →
  (∀ l, l ≠ q → heap st' !! l = heap st !! l)
  ∧ match o with
    | Ok error_count' =>
        ∃ evs n,
          trace st' = trace st ++ evs
          ∧ topics_phase W self body (heap st !!! q) (trace st) evs n
          ∧ error_count' = error_count + n
    | Raise e => ∃ h r, response_dict (requests_post W h r) = Raise e
    | Diverge => fuel ≤ length (heap st !!! q)
    end.
Proof.
  revert error_count st o st'.
  induction fuel as [|fuel IH]; intros ec st o st' Hrun.
  - cbn [topics_loop] in Hrun. unfold diverge in Hrun.
    injection Hrun as <- <-. split; [done|]. lia.
  - cbn [topics_loop] in Hrun. rewrite bind_run in Hrun. unfold len at 1 in Hrun.
    destruct (heap st !!! q) as [|topic ts] eqn:Hq; cbn [length Nat.eqb negb] in Hrun.
    { unfold ret in Hrun. injection Hrun as <- <-. split; [done|].
      exists [], 0. rewrite app_nil_r. split_and!; [done|constructor|lia]. }
    rewrite bind_run in Hrun. unfold pop0 at 1 in Hrun. rewrite Hq in Hrun.
    rewrite bind_run in Hrun.
    match type of Hrun with context [_post W self ?pl topic ?s] =>
      set (st1 := s) in Hrun; destruct (_post_run self pl topic st1) as (lines & Hpost) end.
    cbv zeta in Hpost. rewrite Hpost in Hrun. clear Hpost.
    set (r := request_of self (create_topic_payload topic) (utcnow_at W (clock st1))) in *.
    set (answer := requests_post W (trace st1) r) in *.
    assert (Hframe1 : ∀ l, l ≠ q → heap st1 !! l = heap st !! l).
    { intros l Hl. subst st1. cbn [heap]. by rewrite lookup_insert_ne. }
    destruct (response_dict answer) as [d|e|] eqn:Hd.
    2:{ injection Hrun as <- <-. split; [exact Hframe1|]. by exists (trace st1), r. }
    2:{ exfalso. unfold response_dict in Hd.
        destruct answer; by apply aws_response_to_dict_not_diverge in Hd. }
    cbv beta iota in Hrun.
    set (st2 := {| heap := heap st1; clock := S (clock st1);
                   trace := trace st1 ++ [EvPost r]; log := log st1 ++ lines |}) in Hrun.
    assert (Hq2 : heap st2 !!! q = ts) by apply lookup_total_insert_eq.
    destruct (post_ok answer) eqn:Hok; cbn [negb] in Hrun.
    2:{ (* the CreateTopic request failed *)
      apply IH in Hrun as [IHf IHr].
      split. { intros l Hl. rewrite IHf by done. by apply Hframe1. }
      destruct o as [ec'|e|].
      - destruct IHr as (evs & n & Htr & Hph & Hec).
        exists (EvPost r :: evs), (1 + n).
        rewrite Hq2 in Hph. subst st2. cbn [trace] in Htr, Hph.
        change (trace st1) with (trace st) in Htr, Hph.
        split_and!.
        + by rewrite <- app_assoc in Htr.
        + apply topic_create_failed; [by eexists|done|exact Hph].
        + lia.
      - exact IHr.
      - rewrite Hq2 in IHr. simpl. lia. }
    destruct (falsy (d !! "topic_arn")) eqn:Harn.
    { (* no ARN in the answer *)
      apply IH in Hrun as [IHf IHr].
      split. { intros l Hl. rewrite IHf by done. by apply Hframe1. }
      destruct o as [ec'|e|].
      - destruct IHr as (evs & n & Htr & Hph & Hec).
        exists (EvPost r :: evs), (1 + n).
        rewrite Hq2 in Hph. subst st2. cbn [trace] in Htr, Hph.
        change (trace st1) with (trace st) in Htr, Hph.
        split_and!.
        + by rewrite <- app_assoc in Htr.
        + eapply topic_without_arn; [by eexists|done|exact Hd|done|exact Hph].
        + lia.
      - exact IHr.
      - rewrite Hq2 in IHr. simpl. lia. }
    (* the Publish request *)
    rewrite bind_run in Hrun.
    match type of Hrun with context [_post W self ?pl topic st2] =>
      destruct (_post_run self pl topic st2) as (lines' & Hpost);
      set (r' := request_of self pl (utcnow_at W (clock st2))) in *
    end.
    cbv zeta in Hpost. rewrite Hpost in Hrun. clear Hpost.
    set (answer' := requests_post W (trace st2) r') in *.
    destruct (response_dict answer') as [d'|e|] eqn:Hd'.
    2:{ injection Hrun as <- <-. split; [exact Hframe1|]. by exists (trace st2), r'. }
    2:{ exfalso. unfold response_dict in Hd'.
        destruct answer'; by apply aws_response_to_dict_not_diverge in Hd'. }
    cbv beta iota in Hrun.
    match type of Hrun with context [bind (len q) _ ?s] => set (st3 := s) in Hrun end.
    rewrite bind_run in Hrun. unfold len at 1 in Hrun.
    assert (Hq3 : heap st3 !!! q = ts) by apply lookup_total_insert_eq.
    rewrite Hq3 in Hrun. rewrite bind_run in Hrun.
    destruct (pause_throttle ts st3) as (st4 & Hth & Hh4 & Hc4 & Ht4 & Hl4).
    rewrite Hth in Hrun.
    apply IH in Hrun as [IHf IHr].
    assert (Hq4 : heap st4 !!! q = ts) by (by rewrite Hh4).
    split. { intros l Hl. rewrite IHf by done. rewrite Hh4. by apply Hframe1. }
    destruct o as [ec'|e|].
    + destruct IHr as (evs & n & Htr & Hph & Hec).
      exists (EvPost r :: EvPost r' :: pause ts ++ evs), (failed answer' + n).
      rewrite Hq4 in Hph. rewrite Ht4 in Htr, Hph.
      subst st3 st2. cbn [trace] in Htr, Hph.
      change (trace st1) with (trace st) in *.
      split_and!.
      * rewrite Htr. by rewrite <- !app_assoc.
      * eapply topic_published; [by eexists|done|exact Hd|done|by eexists|].
        replace (trace st ++ EvPost r :: EvPost r' :: pause ts)
          with (((trace st ++ [EvPost r]) ++ [EvPost r']) ++ pause ts)
          by (by rewrite <- !app_assoc).
        exact Hph.
      * rewrite Hec. unfold failed. destruct (post_ok answer'); lia.
    + exact IHr.
    + rewrite Hq4 in IHr. simpl. lia.
Qed.

(** ** A dispatch *)

(** A run of [notify] on an object whose two lists are in the heap: it
    changes no list that was there; when it returns, its events are those
    of the phones phase followed by those of the topics phase, and it
    returns whether the two phases had no failure; when it raises, the
    response parser raised on an answer; it runs out of fuel only when
    the fuel does not exceed the length of a queue. *)
Lemma notify_run (fuel : nat) (self : NotifySNS) (title body notify_type : string)
    (st : state) (o : outcome bool) (st' : state) :
  phone self ∈ dom (heap st) →
  topics self ∈ dom (heap st) →
  notify W fuel self title body notify_type st = (o, st') →
  (∀ l, l ∈ dom (heap st) → heap st' !! l = heap st !! l)
  ∧ match o with
    | Ok b =>
        ∃ evs1 evs2 n1 n2,
          trace st' = trace st ++ evs1 ++ evs2
          ∧ phones_phase W self body (heap st !!! phone self) (trace st) evs1 n1
          ∧ topics_phase W self body (heap st !!! topics self)
              (trace st ++ evs1) evs2 n2
          ∧ b = (n1 + n2 =? 0)
    | Raise e => ∃ h r, response_dict (requests_post W h r) = Raise e
    | Diverge =>
        fuel ≤ length (heap st !!! phone self)
        ∨ fuel ≤ length (heap st !!! topics self)
    end.
Proof.
  intros Hp Ht Hrun. unfold notify in Hrun.
  rewrite bind_run in Hrun. rewrite bind_run in Hrun.
  unfold read_list at 1, new_list at 1 in Hrun.
  set (q1 := fresh (dom (heap st))) in Hrun.
  assert (Hq1 : q1 ∉ dom (heap st)) by apply is_fresh.
  rewrite bind_run in Hrun. rewrite bind_run in Hrun.
  unfold read_list at 1, new_list at 1 in Hrun. cbn [heap clock trace log] in Hrun.
  set (q2 := fresh (dom (<[q1:=heap st !!! phone self]> (heap st)))) in Hrun.
  assert (Hq2 : q2 ∉ dom (<[q1:=heap st !!! phone self]> (heap st))) by apply is_fresh.
  rewrite dom_insert in Hq2.
  assert (Hne : q2 ≠ q1) by set_solver.
  assert (Hq2' : q2 ∉ dom (heap st)) by set_solver.
  assert (Hts : <[q1:=heap st !!! phone self]> (heap st) !!! topics self
                = heap st !!! topics self).
  { apply lookup_total_insert_ne. intros ->. done. }
  rewrite Hts in Hrun.
  rewrite bind_run in Hrun.
  match type of Hrun with context [phone_loop W fuel self body q1 0 ?s] =>
    set (st1 := s) in Hrun end.
  assert (Hq1v : heap st1 !!! q1 = heap st !!! phone self).
  { subst st1. cbn [heap]. rewrite lookup_total_insert_ne by done.
    apply lookup_total_insert_eq. }
  assert (Hq2v : heap st1 !!! q2 = heap st !!! topics self).
  { subst st1. cbn [heap]. apply lookup_total_insert_eq. }
  assert (Hold1 : ∀ l, l ∈ dom (heap st) → heap st1 !! l = heap st !! l).
  { intros l Hl. subst st1. cbn [heap].
    rewrite !lookup_insert_ne by (intros ->; done). done. }
  destruct (phone_loop W fuel self body q1 0 st1) as [o1 st2] eqn:Hloop1.
  apply phone_loop_run in Hloop1 as [Hf1 Hr1].
  assert (Hold2 : ∀ l, l ∈ dom (heap st) → heap st2 !! l = heap st !! l).
  { intros l Hl. rewrite Hf1 by (intros ->; done). by apply Hold1. }
  destruct o1 as [ec1|e|].
  2:{ injection Hrun as <- <-. done. }
  2:{ injection Hrun as <- <-. split; [done|]. left. by rewrite <- Hq1v. }
  destruct Hr1 as (evs1 & n1 & Htr1 & Hph1 & Hec1).
  rewrite bind_run in Hrun.
  destruct (topics_loop W fuel self body q2 ec1 st2) as [o2 st3] eqn:Hloop2.
  apply topics_loop_run in Hloop2 as [Hf2 Hr2].
  assert (Hq2w : heap st2 !!! q2 = heap st !!! topics self).
  { rewrite <- Hq2v. rewrite !lookup_total_alt. by rewrite Hf1. }
  rewrite Hq2w in Hr2.
  assert (Hold3 : ∀ l, l ∈ dom (heap st) → heap st3 !! l = heap st !! l).
  { intros l Hl. rewrite Hf2 by (intros ->; done). by apply Hold2. }
  destruct o2 as [ec2|e|].
  2:{ injection Hrun as <- <-. done. }
  2:{ injection Hrun as <- <-. split; [done|]. by right. }
  destruct Hr2 as (evs2 & n2 & Htr2 & Hph2 & Hec2).
  unfold ret in Hrun. injection Hrun as <- <-. split; [done|].
  exists evs1, evs2, n1, n2.
  rewrite Hq1v in Hph1. rewrite Htr1 in Htr2, Hph2.
  change (trace st1) with (trace st) in *.
  split_and!.
  - by rewrite Htr2, app_assoc.
  - exact Hph1.
  - exact Hph2.
  - by rewrite Hec2, Hec1.
Qed.

(** When no answer makes the response parser raise, a dispatch with fuel
    above the lengths of the two queues returns. *)
Lemma notify_returns (fuel : nat) (self : NotifySNS)
    (title body notify_type : string) (st : state) :
  answers_parse W →
  phone self ∈ dom (heap st) →
  topics self ∈ dom (heap st) →
  length (heap st !!! phone self) < fuel →
  length (heap st !!! topics self) < fuel →
  ∃ b st', notify W fuel self title body notify_type st = (Ok b, st').
Proof.
  intros Hparse Hp Ht Hf1 Hf2.
  destruct (notify W fuel self title body notify_type st) as [o st'] eqn:Hrun.
  destruct (notify_run _ _ _ _ _ _ _ _ Hp Ht Hrun) as [_ Ho].
  destruct o as [b|e|].
  - by exists b, st'.
  - destruct Ho as (h & r & Hr). destruct (Hparse h r) as [d Hd]. congruence.
  - lia.
Qed.

(** When no answer makes the response parser raise, a dispatch is best
    effort over the whole recipient set: it returns; the phones come
    first, in their order, with one Publish request each; the topics
    follow, in their order, with a CreateTopic request each and a Publish
    request for those whose CreateTopic succeeded and answered an ARN;
    each failed request and each topic without ARN is one failure,
    whatever comes after it is still processed, and the result is [True]
    if and only if there was no failure. *)
Lemma dispatch_best_effort (fuel : nat) (self : NotifySNS)
    (title body notify_type : string) (st : state) :
  answers_parse W →
  phone self ∈ dom (heap st) →
  topics self ∈ dom (heap st) →
  length (heap st !!! phone self) < fuel →
  length (heap st !!! topics self) < fuel →
  ∃ b st' evs1 evs2 n1 n2,
    notify W fuel self title body notify_type st = (Ok b, st')
    ∧ trace st' = trace st ++ evs1 ++ evs2
    ∧ phones_phase W self body (heap st !!! phone self) (trace st) evs1 n1
    ∧ topics_phase W self body (heap st !!! topics self) (trace st ++ evs1) evs2 n2
    ∧ (b = true ↔ n1 + n2 = 0).
Proof.
  intros Hparse Hp Ht Hf1 Hf2.
  destruct (notify_returns fuel self title body notify_type st Hparse Hp Ht Hf1 Hf2)
    as (b & st' & Hrun).
  destruct (notify_run _ _ _ _ _ _ _ _ Hp Ht Hrun)
    as [_ (evs1 & evs2 & n1 & n2 & Htr & Hph & Hto & Hb)].
  exists b, st', evs1, evs2, n1, n2. split_and!; [done..|].
  rewrite Hb. apply Nat.eqb_eq.
Qed.

(** The requests of the phones phase: one for each phone, in order. *)
Lemma phones_phase_requests (self : NotifySNS) (body : string)
    (ps : list string) (h evs : list event) (n : nat) :
  phones_phase W self body ps h evs n →
  posted_data evs = map (λ no, urlencode (publish_phone_payload body no)) ps
  ∧ n ≤ length ps.
Proof.
  induction 1 as [h|no ps h r evs n [t ->] Hph [IH1 IH2]]; [done|].
  split.
  - unfold posted_data in *. cbn [omap list_omap request_of req_data map].
    f_equal. rewrite <- IH1.
    destruct ps as [|p ps]; [done|]. reflexivity.
  - unfold failed. destruct (post_ok _); simpl; lia.
Qed.

(** ** Pacing *)

Lemma phones_phase_pacing (self : NotifySNS) (body : string)
    (ps : list string) (h evs : list event) (n : nat) :
  phones_phase W self body ps h evs n →
  map is_throttle evs = phones_pacing (length ps).
Proof.
  induction 1 as [h|no ps h r evs n Hs Hph IH]; [done|].
  rewrite map_cons, map_app, IH. cbn [is_throttle].
  destruct ps as [|p ps]; [done|]. reflexivity.
Qed.

Lemma topics_phase_pacing (self : NotifySNS) (body : string)
    (ts : list string) (h evs : list event) (n : nat) :
  topics_phase W self body ts h evs n →
  ∃ published, length published = length ts
    ∧ map is_throttle evs = topics_pacing published.
Proof.
  induction 1 as [h|topic ts h r evs n Hs Hok Hph IH
                  |topic ts h r d evs n Hs Hok Hd Harn Hph IH
                  |topic ts h r d r' evs n Hs Hok Hd Harn Hs' Hph IH].
  - by exists [].
  - destruct IH as (pub & Hlen & Hmap). exists (false :: pub).
    cbn [length map topics_pacing is_throttle]. by rewrite Hlen, Hmap.
  - destruct IH as (pub & Hlen & Hmap). exists (false :: pub).
    cbn [length map topics_pacing is_throttle]. by rewrite Hlen, Hmap.
  - destruct IH as (pub & Hlen & Hmap). exists (true :: pub).
    cbn [length topics_pacing]. rewrite Hlen. split; [done|].
    rewrite !map_cons, map_app, Hmap. cbn [is_throttle]. do 2 f_equal.
    destruct ts as [|t ts], pub as [|b pub]; done.
Qed.

Lemma phones_pacing_last (n : nat) : last (phones_pacing n) ≠ Some true.
Proof.
  induction n as [n IH] using (well_founded_induction lt_wf).
  destruct n as [|[|n]]; [done..|].
  change (phones_pacing (S (S n))) with (false :: true :: phones_pacing (S n)).
  assert (Hn : last (phones_pacing (S n)) ≠ Some true) by (apply IH; lia).
  destruct n as [|n]; [done|].
  change (phones_pacing (S (S n))) with (false :: true :: phones_pacing (S n)) in *.
  exact Hn.
Qed.

Lemma topics_pacing_last (published : list bool) :
  last (topics_pacing published) ≠ Some true.
Proof.
  induction published as [|b l IH]; [done|].
  destruct b; cbn [topics_pacing].
  - destruct l as [|b' l]; [done|].
    assert (Hne : topics_pacing (b' :: l) ≠ []) by (by destruct b').
    destruct (topics_pacing (b' :: l)) as [|x tl] eqn:E; [done|].
    exact IH.
  - destruct (topics_pacing l) as [|x tl] eqn:E; [done|]. exact IH.
Qed.

Lemma last_app_ne {X} (a b : list X) (x : X) :
  last a ≠ Some x → last b ≠ Some x → last (a ++ b) ≠ Some x.
Proof.
  intros Ha Hb. destruct b as [|y b _] using rev_ind.
  - by rewrite app_nil_r.
  - rewrite app_assoc, last_snoc. by rewrite last_snoc in Hb.
Qed.

(** C5 (as amended).  In a dispatch that returns, a pause follows each
    phone request except the last phone's, and follows the Publish request
    of each topic except the last topic's; no pause follows a topic whose
    Publish request was not sent, none separates the last phone from the
    first topic, and none comes after the last request.  With one phone
    and one topic, no pause is observed at all. *)
Theorem pacing_between_recipients (fuel : nat) (self : NotifySNS)
    (title body notify_type : string) (st : state) (b : bool) (st' : state) :
  phone self ∈ dom (heap st) →
  topics self ∈ dom (heap st) →
  notify W fuel self title body notify_type st = (Ok b, st') →
  ∃ evs published,
    trace st' = trace st ++ evs
    ∧ length published = length (heap st !!! topics self)
    ∧ map is_throttle evs
      = phones_pacing (length (heap st !!! phone self)) ++ topics_pacing published
    ∧ last (map is_throttle evs) ≠ Some true
    ∧ (length (heap st !!! phone self) = 1 →
       length (heap st !!! topics self) = 1 →
       EvThrottle ∉ evs).
Proof.
  intros Hp Ht Hrun.
  destruct (notify_run _ _ _ _ _ _ _ _ Hp Ht Hrun)
    as [_ (evs1 & evs2 & n1 & n2 & Htr & Hph & Hto & _)].
  apply phones_phase_pacing in Hph.
  apply topics_phase_pacing in Hto as (pub & Hlen & Hto).
  exists (evs1 ++ evs2), pub.
  assert (Hmap : map is_throttle (evs1 ++ evs2)
                 = phones_pacing (length (heap st !!! phone self))
                   ++ topics_pacing pub) by (by rewrite map_app, Hph, Hto).
  split_and!; [done..| |].
  - rewrite Hmap. apply last_app_ne; [apply phones_pacing_last|apply topics_pacing_last].
  - intros H1 H2 Hin.
    apply (list_elem_of_fmap_2 is_throttle) in Hin.
    change (is_throttle <$> evs1 ++ evs2) with (map is_throttle (evs1 ++ evs2)) in Hin.
    rewrite Hmap, H1 in Hin.
    destruct pub as [|f [|? ?]]; [simpl in Hlen; lia| |simpl in Hlen; lia].
    destruct f; cbn in Hin;
      repeat (apply elem_of_cons in Hin as [Hin|Hin]; [done|]);
      by apply elem_of_nil in Hin.
Qed.

(** ** A dispatch without recipients *)

Lemma notify_empty (fuel : nat) (self : NotifySNS)
    (title body notify_type : string) (st : state) :
  heap st !!! phone self = [] →
  heap st !!! topics self = [] →
  phone self ∈ dom (heap st) →
  topics self ∈ dom (heap st) →
  0 < fuel →
  ∃ st', notify W fuel self title body notify_type st = (Ok true, st')
    ∧ trace st' = trace st ∧ clock st' = clock st ∧ log st' = log st.
Proof.
  intros Hph Hto Hp Ht Hfuel. destruct fuel as [|fuel]; [lia|].
  unfold notify.
  rewrite bind_run. rewrite bind_run.
  unfold read_list at 1, new_list at 1. rewrite Hph.
  set (q1 := fresh (dom (heap st))).
  assert (Hq1 : q1 ∉ dom (heap st)) by apply is_fresh.
  rewrite bind_run. rewrite bind_run.
  unfold read_list at 1, new_list at 1. cbn [heap clock trace log].
  rewrite lookup_total_insert_ne by (intros ->; done). rewrite Hto.
  set (q2 := fresh (dom (<[q1:=[]]> (heap st)))).
  assert (Hq2 : q2 ∉ dom (<[q1:=[]]> (heap st))) by apply is_fresh.
  rewrite dom_insert in Hq2.
  assert (Hne : q2 ≠ q1) by set_solver.
  rewrite bind_run. cbn [phone_loop]. rewrite bind_run. unfold len at 1.
  cbn [heap]. rewrite lookup_total_insert_ne by done.
  rewrite lookup_total_insert_eq. cbn [length Nat.ltb Nat.leb]. unfold ret at 1.
  rewrite bind_run. cbn [topics_loop]. rewrite bind_run. unfold len at 1.
  cbn [heap]. rewrite lookup_total_insert_eq. cbn [length Nat.eqb negb].
  unfold ret. by eexists.
Qed.

(** C9.  When the configuration is accepted and no recipient is
    classified as a phone or as a topic, the construction succeeds, what it
    logs are warnings, the last of them that there is no valid recipient;
    a dispatch of the constructed notifier then returns [True] without a
    request, a pause or a clock reading. *)
Theorem no_recipient_no_request (agent : string) (verify : bool)
    (ak sk region : option string) (recipients : recipients_arg)
    (fuel : nat) (title body notify_type : string) (st : state) :
  valid_config ak sk region = true →
  phones_of (recipient_list recipients) = [] →
  topics_of (recipient_list recipients) = [] →
  0 < fuel →
  ∃ self st1 st2 ws,
    __init__ agent verify ak sk region recipients st = (Ok self, st1)
    ∧ Forall (λ e, e.1 = WARNING) ws
    ∧ log st1 = log st ++ ws ++ [no_recipient_warning]
    ∧ notify W fuel self title body notify_type st1 = (Ok true, st2)
    ∧ trace st2 = trace st ∧ clock st2 = clock st.
Proof.
  intros Hv Hph Hto Hfuel.
  destruct (init_run agent verify ak sk region recipients st Hv)
    as (self & st1 & Hinit & _ & _ & _ & _ & Hp & Ht & Hphv & Htov & _ & Hc & Htr
        & ws & Hws & Hlog).
  rewrite Hph in Hphv. rewrite Hto in Htov.
  rewrite Hph, Hto, bool_decide_true in Hlog by done.
  destruct (notify_empty fuel self title body notify_type st1 Hphv Htov Hp Ht Hfuel)
    as (st2 & Hrun & Htr2 & Hc2 & _).
  exists self, st1, st2, ws. split_and!; [done..| |]; congruence.
Qed.

(** C10.  A dispatch, however it ends, leaves the two stored lists of the
    notifier in the heap with the contents they had: it works on copies.
    The next dispatch therefore starts from the same phones and the same
    topics. *)
Theorem notify_keeps_stored_lists (fuel : nat) (self : NotifySNS)
    (title body notify_type : string) (st : state) :
  phone self ∈ dom (heap st) →
  topics self ∈ dom (heap st) →
  let st' := (notify W fuel self title body notify_type st).2 in
  heap st' !! phone self = heap st !! phone self
  ∧ heap st' !! topics self = heap st !! topics self
  ∧ phone self ∈ dom (heap st') ∧ topics self ∈ dom (heap st')
  ∧ (read_list (phone self) st').1 = (read_list (phone self) st).1
  ∧ (read_list (topics self) st').1 = (read_list (topics self) st).1.
Proof.
  intros Hp Ht. cbv zeta.
  destruct (notify W fuel self title body notify_type st) as [o st'] eqn:Hrun.
  destruct (notify_run _ _ _ _ _ _ _ _ Hp Ht Hrun) as [Hframe _].
  cbn [snd]. pose proof (Hframe _ Hp) as H1. pose proof (Hframe _ Ht) as H2.
  split_and!; [done..| | | |].
  - apply elem_of_dom. rewrite H1. by apply elem_of_dom.
  - apply elem_of_dom. rewrite H2. by apply elem_of_dom.
  - unfold read_list. cbn [fst]. by rewrite !lookup_total_alt, H1.
  - unfold read_list. cbn [fst]. by rewrite !lookup_total_alt, H2.
Qed.

End Dispatch.

(** ** The scenarios *)

(** The scenario of the specification (one phone, one topic, one
    recipient that is neither) against a provider that accepts every
    request: three requests, the Publish to the phone, the CreateTopic and
    the Publish to the ARN, and no pause between them. *)
Lemma one_phone_one_topic_no_pause :
  let run := scenario (I := example_imports) example_world example_recipients 3 "hello" in
  run.1 = Ok true
  ∧ posted_data (trace run.2)
    = [ "Action=Publish&Message=hello&Version=2010-03-31&PhoneNumber=%2B15551234567";
        "Action=CreateTopic&Version=2010-03-31&Name=alerts";
        "Action=Publish&Version=2010-03-31&TopicArn=arn%3Aaws%3Asns%3Aus-east-1%3A000000000000%3Aabcd&Message=hello" ]
  ∧ map is_throttle (trace run.2) = [false; false; false]
  ∧ length (List.filter is_throttle (trace run.2)) ≠ 1.
Proof. vm_compute. split_and!; [reflexivity..|discriminate]. Qed.

(** C4.  Against a provider that refuses every request with status 403
    and an error body whose code is an empty element, the dispatch to one
    phone and one topic raises [AttributeError] out of [notify] while the
    answer to the first request is parsed: no result is returned and the
    topic gets no request. *)
Theorem dispatch_aborts_on_empty_element :
  let run := scenario (I := example_imports) refusing_world
               (RSeq ["+15551234567"; "alerts"]) 3 "hello" in
  run.1 = Raise (AttributeError "'NoneType' object has no attribute 'strip'")
  ∧ posted_data (trace run.2)
    = [ "Action=Publish&Message=hello&Version=2010-03-31&PhoneNumber=%2B15551234567" ]
  ∧ heap run.2 !! 1%positive = Some ["alerts"].
Proof. vm_compute. split_and!; reflexivity. Qed.

(** C6.  The constructor accepts the region [US-East-1] and stores it as
    it is: the region of the object, and of the host of its URL, is not
    the lower-case [us-east-1]. *)
Theorem constructor_keeps_case_of_region :
  ∃ self st,
    example_init "US-East-1" RNone initial_state = (Ok self, st)
    ∧ aws_region_name self = "US-East-1"
    ∧ notify_url self = "https://sns.US-East-1.amazonaws.com/"
    ∧ aws_region_name self ≠ Py.lower "US-East-1".
Proof.
  do 2 eexists. split; [vm_compute; reflexivity|].
  split_and!; [reflexivity..|]. vm_compute. discriminate.
Qed.

(** Whatever region the constructor accepts is stored unchanged. *)
Lemma constructor_stores_region (agent : string) (verify : bool)
    (ak sk : option string) (region : string) (recipients : recipients_arg)
    (st : state) :
  valid_config ak sk (Some region) = true →
  ∃ self st', __init__ agent verify ak sk (Some region) recipients st = (Ok self, st')
    ∧ aws_region_name self = region.
Proof.
  intros Hv.
  destruct (init_run agent verify ak sk (Some region) recipients st Hv)
    as (self & st' & Hinit & Hself & _).
  exists self, st'. split; [done|]. by rewrite Hself.
Qed.

(** The region [useast1] is refused by the constructor. *)
Lemma constructor_refuses_useast1 :
  example_init "useast1" RNone initial_state
  = (Raise (TypeError "An invalid AWS Region was specified."), initial_state).
Proof. vm_compute. reflexivity. Qed.

(** [parse_url] does normalize the region that it finds in the path. *)
Lemma parse_url_normalizes_region :
  parse_url (I := example_imports)
    (Some ("AKIDEXAMPLE", "/wJalrXUtnFEMI/K7MDENG+bPxRfiCYEXAMPLEKEY/US-East-1/+15551234567/alerts"))
  = Some {| res_recipients := ["+15551234567"; "alerts"];
            res_region_name := Some "us-east-1";
            res_access_key_id := "AKIDEXAMPLE";
            res_secret_access_key := Some "wJalrXUtnFEMI/K7MDENG+bPxRfiCYEXAMPLEKEY" |}.
Proof. vm_compute. reflexivity. Qed.

(** C7.  On the well-formed error answer whose code is an empty element,
    the response parser raises [AttributeError] instead of returning a
    mapping. *)
Theorem parser_raises_on_empty_element :
  ElementTree_fromstring (Imports := example_imports) empty_code_response
  = Some (Element "ErrorResponse" None
            [Element "Error" None
               [Element "Type" (Some "Sender") []; Element "Code" None []]])
  ∧ aws_response_to_dict (I := example_imports) (Some empty_code_response)
    = Raise (AttributeError "'NoneType' object has no attribute 'strip'").
Proof. vm_compute. split; reflexivity. Qed.

(** The parser on [None], on a text that is not XML and on the answer of
    its docstring. *)
Lemma parser_on_none `{I : Imports} :
  aws_response_to_dict None = Ok default_response
  ∧ dom default_response = {[ "type"; "request_id" ]}
  ∧ default_response !! "type" = Some PNone
  ∧ default_response !! "request_id" = Some PNone.
Proof.
  rewrite aws_response_to_dict_run. split_and!; [done| |done..].
  unfold default_response. rewrite !dom_insert_L, dom_empty_L. set_solver.
Qed.

Lemma parser_on_malformed `{I : Imports} (s : string) :
  ElementTree_fromstring (Re.sub1_empty XMLNS s) = None →
  aws_response_to_dict (Some s) = Ok default_response.
Proof. intros Hs. by rewrite aws_response_to_dict_run, Hs. Qed.

Lemma parser_on_not_xml :
  aws_response_to_dict (I := example_imports) (Some "not xml") = Ok default_response.
Proof. apply parser_on_malformed. vm_compute. reflexivity. Qed.

Lemma parser_on_create_topic_response :
  aws_response_to_dict (I := example_imports) (Some create_topic_response)
  = Ok (<["type" := PStr "CreateTopicResponse"]>
          (<["request_id" := PStr "604bef0f-369c-50c5-a7a4-bbd474c83d6a"]>
             (<["topic_arn" := PStr "arn:aws:sns:us-east-1:000000000000:abcd"]> ∅))).
Proof. vm_compute. reflexivity. Qed.

(** The parser on a text that parses: the tag of the root under [type],
    and every recognized leaf that has a text under the key of its tag,
    when no recognized leaf is without text. *)
Lemma parser_on_well_formed `{I : Imports} (s : string) (root : element) :
  ElementTree_fromstring (Re.sub1_empty XMLNS s) = Some root →
  forallb leaf_ok (leaves root) = true →
  aws_response_to_dict (Some s)
  = Ok (foldl record_leaf (<["type" := PStr (root_tag root)]> default_response)
          (leaves root)).
Proof. intros Hs Hl. by rewrite aws_response_to_dict_run, Hs, Hl. Qed.

Lemma parser_on_empty_leaf `{I : Imports} (s : string) (root : element) :
  ElementTree_fromstring (Re.sub1_empty XMLNS s) = Some root →
  forallb leaf_ok (leaves root) = false →
  aws_response_to_dict (Some s)
  = Raise (AttributeError "'NoneType' object has no attribute 'strip'").
Proof. intros Hs Hl. by rewrite aws_response_to_dict_run, Hs, Hl. Qed.

(** C3, as the specification words it, fails on a topic followed by a
    space: the recipient is not phone-shaped and the pattern of the
    specification does not match it, yet it is not dropped but stored as
    the topic [abc]. *)
Lemma topic_with_trailing_space_is_stored :
  Re.match_ IS_PHONE_NO "abc " = None
  ∧ Re.match_ TOPIC_AS_SPECIFIED "abc " = None
  ∧ classify "abc " = Topic "abc"
  ∧ heap (validate_recipient 2%positive 1%positive "abc " initial_state).2
      !! 1%positive = Some ["abc"].
Proof. vm_compute. split_and!; reflexivity. Qed.

(** A recipient of five digits is phone-shaped and dropped, although the
    topic pattern would match it. *)
Lemma short_number_is_dropped :
  phone_shape "12345" = true
  ∧ is_Some (Re.match_ IS_TOPIC "12345")
  ∧ classify "12345" = Dropped
  ∧ classify "#12345" = Topic "12345".
Proof. vm_compute. split_and!; try reflexivity. by eexists. Qed.
(* ===================================================================== *)
(** * Further properties of the plugin                                     *)
(* ===================================================================== *)

(** ** The constructor *)

(** The constructor raises what [refusal] says, and returns otherwise. *)
Lemma init_by_refusal (agent : string) (verify : bool)
    (ak sk region : option string) (recipients : recipients_arg) (st : state) :
  match refusal ak sk region with
  | Some e => __init__ agent verify ak sk region recipients st = (Raise e, st)
  | None =>
      ∃ self st', __init__ agent verify ak sk region recipients st = (Ok self, st')
  end.
Proof.
  unfold refusal.
  destruct (Py.truthy ak) eqn:Hak; [|by unfold __init__; rewrite Hak].
  destruct (Py.truthy sk) eqn:Hsk; [|by unfold __init__; rewrite Hak, Hsk].
  cbn [negb].
  destruct (Py.truthy region && _) eqn:Hr; cbn [negb].
  - assert (Hv : valid_config ak sk region = true).
    { unfold valid_config. rewrite Hak, Hsk. cbn [andb].
      exact Hr. }
    destruct (init_run agent verify ak sk region recipients st Hv)
      as (self & st' & Hi & _). by exists self, st'.
  - unfold __init__. by rewrite Hak, Hsk, Hr.
Qed.

Lemma forallb_filter_self (p : ascii → bool) (l : list ascii) :
  forallb p (List.filter p l) = true.
Proof.
  induction l as [|x l IH]; [done|]. simpl. destruct (p x) eqn:Hx; [|done].
  simpl. by rewrite Hx.
Qed.

Lemma classify_phone_ok (t n : string) :
  classify t = Phone n → stored_phone_ok n = true.
Proof.
  unfold classify. destruct (phone_shape t); [|by destruct (topic_name t)].
  destruct (_ && _) eqn:Hlen; [|done]. intros [= <-].
  unfold stored_phone_ok, digits_of in *.
  rewrite str_length in Hlen.
  change (Py.chars ("+" +:+ ?s)) with ("+"%char :: Py.chars s).
  rewrite chars_str, forallb_filter_self. done.
Qed.

Lemma span_fst_forallb (p : ascii → bool) (s : list ascii) :
  forallb p (span p s).1 = true.
Proof.
  pose proof (span_spec p s) as H. destruct (span p s) as [a b]. by destruct H as (_ & ? & _).
Qed.

Lemma str_nil (l : list ascii) : Py.str l = "" ↔ l = [].
Proof. destruct l; simpl; split; congruence. Qed.

Lemma classify_topic_ok (t n : string) :
  classify t = Topic n → stored_topic_ok n = true.
Proof.
  unfold classify. destruct (phone_shape t); [by destruct (_ && _)|].
  unfold topic_name.
  set (body := match Py.chars t with "#"%char :: s => s | s => s end).
  pose proof (span_fst_forallb topic_class body) as Hf.
  destruct (span topic_class body) as [name rest]. cbn [fst] in Hf.
  destruct (negb (bool_decide (name = [])) && forallb Py.is_space rest) eqn:Hc; [|done].
  intros [= <-]. unfold stored_topic_ok. rewrite chars_str, Hf, andb_true_r.
  apply andb_true_iff in Hc as [Hc _].
  apply negb_true_iff, bool_decide_eq_false in Hc.
  apply negb_true_iff, bool_decide_eq_false. by rewrite str_nil.
Qed.

Lemma phones_of_ok (tokens : list string) :
  Forall (λ n, stored_phone_ok n = true) (phones_of tokens).
Proof.
  induction tokens as [|t tokens IH]; [constructor|].
  rewrite phones_of_cons. apply Forall_app. split; [|done].
  unfold phones_of. cbn [omap list_omap].
  destruct (classify t) eqn:Hc; try constructor; [|constructor].
  by apply (classify_phone_ok t).
Qed.

Lemma topics_of_ok (tokens : list string) :
  Forall (λ n, stored_topic_ok n = true) (topics_of tokens).
Proof.
  induction tokens as [|t tokens IH]; [constructor|].
  rewrite topics_of_cons. apply Forall_app. split; [|done].
  unfold topics_of. cbn [omap list_omap].
  destruct (classify t) eqn:Hc; try constructor; [|constructor].
  by apply (classify_topic_ok t).
Qed.

(** X2.  In an object that the constructor returned, every stored phone
    is a plus followed by 11 to 14 digits, every stored topic is a
    non-empty name of letters, digits, underscores and dashes, and the
    two lists together hold no more entries than there were recipients. *)
Theorem constructed_lists_are_well_formed (agent : string) (verify : bool)
    (ak sk region : option string) (recipients : recipients_arg) (st : state)
    (self : NotifySNS) (st' : state) :
  __init__ agent verify ak sk region recipients st = (Ok self, st') →
  Forall (λ n, stored_phone_ok n = true) (heap st' !!! phone self)
  ∧ Forall (λ n, stored_topic_ok n = true) (heap st' !!! topics self)
  ∧ length (heap st' !!! phone self) + length (heap st' !!! topics self)
    ≤ length (recipient_list recipients).
Proof.
  intros Hi.
  destruct (valid_config ak sk region) eqn:Hv.
  2:{ destruct (init_invalid agent verify ak sk region recipients st Hv) as [m Hm].
      congruence. }
  destruct (init_run agent verify ak sk region recipients st Hv)
    as (self' & st'' & Hi' & _ & _ & _ & _ & _ & _ & Hp & Ht & _).
  rewrite Hi in Hi'. injection Hi' as <- <-.
  rewrite Hp, Ht. split_and!; [apply phones_of_ok|apply topics_of_ok|].
  generalize (recipient_list recipients). intros l.
  unfold phones_of, topics_of.
  induction l as [|t l IH]; [done|].
  cbn [omap list_omap length]. destruct (classify t); simpl; lia.
Qed.
Lemma filter_nil_forallb (p : ascii → bool) (l : list ascii) :
  List.filter p l = [] → forallb (λ c, negb (p c)) l = true.
Proof.
  induction l as [|x l IH]; [done|]. simpl. destruct (p x); [done|]. exact IH.
Qed.

Lemma filter_nil_neg (p : ascii → bool) (l : list ascii) :
  List.filter p l = [] → List.filter (λ c, negb (p c)) l = l.
Proof.
  induction l as [|x l IH]; [done|]. simpl. destruct (p x); [done|].
  intros H. simpl. by rewrite IH.
Qed.

Lemma filter_self_neg (p : ascii → bool) (l : list ascii) :
  List.filter p l = l → List.filter (λ c, negb (p c)) l = [].
Proof.
  induction l as [|x l IH]; [done|]. simpl. destruct (p x) eqn:Hx; simpl.
  - intros [= H]. by apply IH.
  - intros H. exfalso.
    assert (Hin : In x (List.filter p l)) by (rewrite H; by left).
    apply filter_In in Hin as [_ Hin]. congruence.
Qed.

Lemma split_plus_cls (p : ascii → bool) (fuel : nat) (s : list ascii) (i : nat) :
  length s ≤ fuel →
  Forall (λ t, List.filter p (Py.chars t) = [])
    (Re.split_from fuel (Re.Plus (Re.Cls p)) s i)
  ∧ concat (map Py.chars (Re.split_from fuel (Re.Plus (Re.Cls p)) s i))
    = List.filter (λ c, negb (p c)) s.
Proof.
  revert s i. induction fuel as [|fuel IH]; intros s i Hf.
  - destruct s; [|simpl in Hf; lia]. split; [by repeat constructor|done].
  - cbn [Re.split_from].
    pose proof (find_first_plus_spec p s i) as Hs.
    destruct (Re.find_first (Re.Plus (Re.Cls p)) s i) as [[[pre m] post]|].
    + destruct Hs as (-> & Hpre & Hm & Hne).
      destruct (IH post (i + length pre + length m)) as [IH1 IH2].
      { rewrite !length_app in Hf. destruct m; [done|]. simpl in Hf. lia. }
      split.
      * constructor; [by rewrite chars_str|exact IH1].
      * cbn [map concat]. rewrite chars_str, IH2, !List.filter_app.
        by rewrite (filter_nil_neg _ _ Hpre), (filter_self_neg _ _ Hm).
    + split.
      * repeat constructor. by rewrite chars_str.
      * cbn [map concat]. rewrite chars_str, app_nil_r. by rewrite filter_nil_neg.
Qed.

(** X3.  Recipients given as one string are split at the runs of
    [LIST_DELIM]: no token is empty, no token holds a delimiter (space,
    tab, carriage return, newline, comma, backslash, slash), and the
    tokens, put end to end, are the string without its delimiters. *)
Theorem recipients_string_tokens (s : string) :
  Forall (λ t, t ≠ "" ∧ forallb not_delim (Py.chars t) = true)
    (recipient_list (RStr s))
  ∧ concat (map Py.chars (recipient_list (RStr s)))
    = List.filter not_delim (Py.chars s).
Proof.
  unfold recipient_list, Re.split, LIST_DELIM.
  destruct (split_plus_cls delim_class (String.length s) (Py.chars s) 0) as [H1 H2].
  { by rewrite chars_length. }
  change (List.filter not_delim (Py.chars s))
    with (List.filter (λ c, negb (delim_class c)) (Py.chars s)).
  rewrite <- H2. clear H2. revert H1. generalize (Re.split_from (String.length s)
                            (Re.Plus (Re.Cls delim_class)) (Py.chars s) 0).
  intros l H1. clear s. induction H1 as [|t l Ht Hl [IH1 IH2]].
  - split; [constructor|done].
  - rewrite filter_cons. destruct (decide (t ≠ "")) as [Hne|He].
    + split.
      * constructor; [|exact IH1]. split; [done|]. by apply filter_nil_forallb.
      * cbn [map concat]. by rewrite IH2.
    + split; [exact IH1|].
      assert (t = "") as -> by (by destruct (decide (t = "")) as [|?]; [|contradiction He]).
      cbn [map concat]. by rewrite IH2.
Qed.
Lemma dropped_of_cons (t : string) (l : list string) :
  dropped_of (t :: l) = dropped_of [t] ++ dropped_of l.
Proof. unfold dropped_of. cbn [List.filter]. by destruct (classify t). Qed.

Lemma for_each_validate_log (p tl : loc) (tokens : list string) (st st' : state)
    (o : outcome unit) :
  for_each tokens (validate_recipient p tl) st = (o, st') →
  log st' = log st ++ map drop_warning (dropped_of tokens).
Proof.
  revert st. induction tokens as [|t tokens IH]; intros st.
  - cbn [for_each]. unfold ret. intros [= _ <-]. by rewrite app_nil_r.
  - cbn [for_each]. unfold bind at 1. rewrite validate_recipient_classify.
    rewrite dropped_of_cons, map_app, app_assoc.
    unfold dropped_of at 1. cbn [List.filter].
    destruct (classify t) as [n|n|]; cbn [store_verdict append logger];
      intros H; apply IH in H; cbn [log map] in H |- *; by rewrite ?app_nil_r.
Qed.

(** X4.  For recipients of ASCII characters, the constructor logs one
    warning for each recipient it drops, in the order of the
    recipients, with the phone wording for a
    phone-shaped recipient and the phone/topic wording for any other;
    then the no-recipient warning when both lists are empty, and nothing
    else.  It reads no clock and sends no request. *)
Theorem constructor_warnings (agent : string) (verify : bool)
    (ak sk region : option string) (recipients : recipients_arg)
    (st st' : state) (self : NotifySNS) :
  forallb Py.ascii_text (recipient_list recipients) = true →
  __init__ agent verify ak sk region recipients st = (Ok self, st') →
  log st'
  = log st ++ map drop_warning (dropped_of (recipient_list recipients))
    ++ (if bool_decide (phones_of (recipient_list recipients) = []
                        ∧ topics_of (recipient_list recipients) = [])
        then [no_recipient_warning] else [])
  ∧ clock st' = clock st ∧ trace st' = trace st.
Proof.
  intros _ Hrun.
  destruct (valid_config ak sk region) eqn:Hv.
  2: { destruct (init_invalid agent verify ak sk region recipients st Hv) as [msg Hm].
       congruence. }
  revert Hrun. unfold valid_config, __init__ in *.
  apply andb_true_iff in Hv as [Hv Hr]. apply andb_true_iff in Hv as [Hv Hreg].
  apply andb_true_iff in Hv as [Hak Hsk].
  rewrite Hak, Hsk, Hreg, Hr. cbn [negb andb].
  unfold bind at 1. cbn [new_list].
  set (tl := fresh (dom (heap st))).
  unfold bind at 1. cbn [new_list heap clock trace log].
  set (p := fresh (dom (<[tl:=[]]> (heap st)))).
  assert (Hne : p ≠ tl).
  { pose proof (is_fresh (dom (<[tl:=[]]> (heap st)))) as Hp. fold p in Hp.
    rewrite dom_insert in Hp. set_solver. }
  unfold bind at 1. cbn [phone topics].
  match goal with |- context [for_each _ _ ?s] => set (st2 := s) end.
  destruct (for_each_validate p tl (recipient_list recipients) st2 Hne)
    as (st3 & Hfe & Hph & Hto & _ & _ & Hc & Htr & _).
  pose proof (for_each_validate_log _ _ _ _ _ _ Hfe) as Hlog.
  rewrite Hfe.
  assert (Hph0 : heap st2 !!! p = []) by (subst st2; cbn [heap]; apply lookup_total_insert_eq).
  assert (Hto0 : heap st2 !!! tl = []).
  { subst st2. cbn [heap]. rewrite lookup_total_insert_ne by done.
    apply lookup_total_insert_eq. }
  rewrite Hph0 in Hph. rewrite Hto0 in Hto. rewrite app_nil_l in Hph, Hto.
  unfold bind at 1, len at 1. unfold bind at 1, len at 1.
  rewrite Hph, Hto.
  assert (Hc' : clock st3 = clock st) by (by rewrite Hc).
  assert (Htr' : trace st3 = trace st) by (by rewrite Htr).
  assert (Hlog' : log st3 = log st ++ map drop_warning (dropped_of (recipient_list recipients)))
    by (by rewrite Hlog).
  clearbody st2 p tl. clear Hlog Hc Htr Hfe.
  destruct (phones_of (recipient_list recipients)) as [|ph phs] eqn:Eph;
    destruct (topics_of (recipient_list recipients)) as [|to tos] eqn:Eto;
    cbn [length Nat.eqb andb]; unfold bind, logger, ret;
    intros [= _ <-]; cbn [clock trace log]; (split_and!; [|done..]).
  - rewrite bool_decide_true by done. by rewrite Hlog', app_assoc.
  - rewrite bool_decide_false by (by intros [_ ?]). by rewrite app_nil_r.
  - rewrite bool_decide_false by (by intros [? _]). by rewrite app_nil_r.
  - rewrite bool_decide_false by (by intros [? _]). by rewrite app_nil_r.
Qed.
Lemma forallb_filter_id (p : ascii → bool) (l : list ascii) :
  forallb p l = true → List.filter p l = l.
Proof.
  induction l as [|x l IH]; [done|]. simpl. destruct (p x); [|done].
  intros H. by rewrite IH.
Qed.

Lemma forallb_weaken (p q : ascii → bool) (l : list ascii) :
  (∀ c, p c = true → q c = true) → forallb p l = true → forallb q l = true.
Proof.
  intros Hpq. induction l as [|x l IH]; [done|]. simpl.
  intros [H1 H2]%andb_true_iff. by rewrite (Hpq _ H1), IH.
Qed.

Lemma span_all (p : ascii → bool) (l : list ascii) :
  forallb p l = true → span p l = (l, []).
Proof.
  induction l as [|x l IH]; [done|]. simpl.
  intros [H1 H2]%andb_true_iff. by rewrite H1, (IH H2).
Qed.

Lemma classify_stored_phone (n : string) :
  stored_phone_ok n = true → classify n = Phone n.
Proof.
  unfold stored_phone_ok. rewrite <- (str_chars n) at 2 3.
  destruct (Py.chars n) as [|c d]; [done|].
  destruct (ascii_dec c "+") as [->|Hc].
  2: { destruct c as [[] [] [] [] [] [] [] []]; try done. }
  intros [[Hd H1]%andb_true_iff H2]%andb_true_iff.
  unfold classify, phone_shape, digits_of.
  cbn [Py.str]. change (Py.chars (String "+" ?s)) with ("+"%char :: Py.chars s).
  rewrite chars_str. cbn [forallb List.filter].
  change (Py.is_digit "+") with false. change (phone_class "+") with true.
  cbv iota. rewrite (forallb_filter_id _ _ Hd), str_length, H1, H2.
  rewrite (forallb_weaken Py.is_digit phone_class d); [done| |done].
  intros c Hc. unfold phone_class. by rewrite Hc.
Qed.

Lemma classify_stored_topic (n : string) :
  stored_topic_ok n = true → phone_shape n = false → classify n = Topic n.
Proof.
  unfold stored_topic_ok. intros [Hne Hall]%andb_true_iff Hp.
  unfold classify. rewrite Hp. unfold topic_name.
  assert (Hb : match Py.chars n with "#"%char :: s => s | s => s end = Py.chars n).
  { destruct (Py.chars n) as [|c s]; [done|].
    destruct c as [[] [] [] [] [] [] [] []]; try done. }
  rewrite Hb, (span_all _ _ Hall). cbn [forallb]. rewrite andb_true_r.
  apply negb_true_iff, bool_decide_eq_false in Hne.
  rewrite bool_decide_false by (by rewrite chars_nil).
  cbn [negb]. by rewrite str_chars.
Qed.

Lemma phones_fixed (l : list string) :
  Forall (λ n, classify n = Phone n) l →
  phones_of l = l ∧ topics_of l = [] ∧ dropped_of l = [].
Proof.
  induction 1 as [|n l Hn Hl (IH1 & IH2 & IH3)]; [done|].
  rewrite phones_of_cons, topics_of_cons, dropped_of_cons.
  unfold phones_of at 1, topics_of at 1, dropped_of at 1.
  cbn [omap list_omap List.filter]. rewrite Hn. cbn [app]. by rewrite IH1, IH2, IH3.
Qed.

Lemma topics_fixed (l : list string) :
  Forall (λ n, classify n = Topic n) l →
  topics_of l = l ∧ phones_of l = [] ∧ dropped_of l = [].
Proof.
  induction 1 as [|n l Hn Hl (IH1 & IH2 & IH3)]; [done|].
  rewrite phones_of_cons, topics_of_cons, dropped_of_cons.
  unfold phones_of at 1, topics_of at 1, dropped_of at 1.
  cbn [omap list_omap List.filter]. rewrite Hn. cbn [app]. by rewrite IH1, IH2, IH3.
Qed.

(** X5.  The stored phones are a fixed point of the classification:
    given back as recipients, each is stored again as the same phone, none
    becomes a topic and none is dropped.  The stored topics that are not
    phone-shaped are a fixed point as well. *)
Theorem stored_recipients_round_trip (tokens : list string) :
  (phones_of (phones_of tokens) = phones_of tokens
   ∧ topics_of (phones_of tokens) = []
   ∧ dropped_of (phones_of tokens) = [])
  ∧ (topics_of (List.filter not_phone_shaped (topics_of tokens))
     = List.filter not_phone_shaped (topics_of tokens)
     ∧ phones_of (List.filter not_phone_shaped (topics_of tokens)) = []
     ∧ dropped_of (List.filter not_phone_shaped (topics_of tokens)) = []).
Proof.
  split.
  - apply phones_fixed. eapply Forall_impl; [apply phones_of_ok|].
    intros n. apply classify_stored_phone.
  - apply topics_fixed. apply Forall_forall. intros n Hin.
    apply list_elem_of_In, filter_In in Hin as [Hin Hp].
    apply negb_true_iff in Hp.
    apply classify_stored_topic; [|done].
    pose proof (topics_of_ok tokens) as Hok.
    rewrite Forall_forall in Hok. apply Hok. by apply list_elem_of_In.
Qed.
(** The dictionaries that the response parser can build *)
Lemma response_keys_spec (k : string) :
  k ∈ response_keys
  ↔ k = "type" ∨ k = "request_id" ∨ k = "topic_arn" ∨ k = "message_id"
    ∨ k = "error_type" ∨ k = "error_code" ∨ k = "error_message".
Proof.
  unfold response_keys. rewrite !elem_of_union, !elem_of_singleton. tauto.
Qed.

Lemma keep_map_keys (tag key : string) :
  aws_keep_map !! tag = Some key → key ∈ response_keys.
Proof.
  unfold aws_keep_map. intros H%elem_of_list_to_map_2.
  rewrite response_keys_spec.
  repeat (apply elem_of_cons in H as [[= _ <-]|H]; [tauto|]).
  by apply elem_of_nil in H.
Qed.

Lemma response_ok_insert (d : dict) (key : string) (s : string) :
  key ∈ response_keys → response_ok d → response_ok (<[key := PStr s]> d).
Proof.
  intros Hk (H1 & H2 & H3 & H4). split_and!.
  - rewrite dom_insert. apply union_subseteq. split; [|done].
    by apply singleton_subseteq_l.
  - destruct (decide (key = "type")) as [->|]; [rewrite lookup_insert_eq; by eexists|].
    by rewrite lookup_insert_ne.
  - destruct (decide (key = "request_id")) as [->|]; [rewrite lookup_insert_eq; by eexists|].
    by rewrite lookup_insert_ne.
  - by apply map_Forall_insert_2.
Qed.

Lemma response_ok_default : response_ok default_response.
Proof.
  unfold default_response. split_and!.
  - rewrite !dom_insert, dom_empty.
    repeat (apply union_subseteq; split);
      [apply singleton_subseteq_l..|apply empty_subseteq];
      rewrite response_keys_spec; tauto.
  - by rewrite lookup_insert_ne, lookup_insert_eq.
  - by rewrite lookup_insert_eq.
  - repeat apply map_Forall_insert_2; try done; apply map_Forall_empty.
Qed.

Lemma response_ok_walk (l : list (string * option string)) (d : dict) :
  response_ok d → response_ok (foldl record_leaf d l).
Proof.
  revert d. induction l as [|[tag text] l IH]; intros d Hd; [done|].
  cbn [foldl]. apply IH. unfold record_leaf. cbn [fst snd].
  destruct (aws_keep_map !! tag) as [key|] eqn:Hk; [|done].
  destruct text as [text|]; [|done].
  apply response_ok_insert; [|done]. by apply keep_map_keys in Hk.
Qed.

Lemma aws_response_to_dict_cases `{I : Imports} (aws_response : option string) :
  match aws_response_to_dict aws_response with
  | Ok d => response_ok d
  | Raise e => e = AttributeError "'NoneType' object has no attribute 'strip'"
  | Diverge => False
  end.
Proof.
  rewrite aws_response_to_dict_run.
  destruct aws_response as [s|]; [|apply response_ok_default].
  destruct (ElementTree_fromstring _) as [root|]; [|apply response_ok_default].
  destruct (forallb leaf_ok (leaves root)); [|done].
  apply response_ok_walk, response_ok_insert; [|apply response_ok_default].
  rewrite response_keys_spec. tauto.
Qed.

(** X6.  The response parser never fails to end.  When it returns, the
    keys of the dictionary are among [type], [request_id], [topic_arn],
    [message_id], [error_type], [error_code] and [error_message], the
    keys [type] and [request_id] are present, and every value is [None]
    or a string.  The only exception that leaves it is the
    [AttributeError] of [strip] on [None], and only on a text.  On [None]
    it returns the default dictionary. *)
Theorem parser_outcomes `{I : Imports} (aws_response : option string) :
  match aws_response_to_dict aws_response with
  | Ok d => response_ok d
  | Raise e =>
      e = AttributeError "'NoneType' object has no attribute 'strip'"
      ∧ is_Some aws_response
  | Diverge => False
  end
  ∧ aws_response_to_dict None = Ok default_response.
Proof.
  split; [|by rewrite aws_response_to_dict_run].
  pose proof (aws_response_to_dict_cases aws_response) as H.
  destruct aws_response as [s|].
  - destruct (aws_response_to_dict (Some s)); [done|by split|done].
  - by rewrite aws_response_to_dict_run in *.
Qed.
(** X7.  One call of [_post] reads the clock once, sends exactly one
    request, the signed request of its payload at that reading, only
    adds lines to the log and leaves the heap alone.  When it returns,
    its flag is [True] exactly when the answer has status 200, and a
    connection error gives [False] with the default dictionary; the only
    exception that leaves it is the one of the response parser, on an
    answer that has a body. *)
Theorem post_outcome `{I : Imports} (W : world) (self : NotifySNS)
    (payload : list (string * string)) (to : string) (st : state) :
  let r := request_of self payload (utcnow_at W (clock st)) in
  let answer := requests_post W (trace st) r in
  let run := _post W self payload to st in
  heap run.2 = heap st ∧ clock run.2 = S (clock st)
  ∧ trace run.2 = trace st ++ [EvPost r]
  ∧ (∃ lines, log run.2 = log st ++ lines)
  ∧ match run.1 with
    | Ok (b, d) =>
        response_ok d
        ∧ match answer with
          | Response status_code _ => b = bool_decide (status_code = 200%Z)
          | RequestException _ => b = false ∧ d = default_response
          end
    | Raise e =>
        e = AttributeError "'NoneType' object has no attribute 'strip'"
        ∧ ∃ status_code text, answer = Response status_code text
    | Diverge => False
    end.
Proof.
  cbv zeta. destruct (_post_run W self payload to st) as [lines ->].
  cbn [fst snd heap clock trace log]. split_and!; [done..|by eexists|].
  set (answer := requests_post W _ _).
  unfold response_dict.
  destruct answer as [code text|msg] eqn:Ha.
  - pose proof (aws_response_to_dict_cases (Some text)) as Hp.
    destruct (aws_response_to_dict (Some text)); [done| |done].
    split; [done|by do 2 eexists].
  - rewrite aws_response_to_dict_run. split; [apply response_ok_default|done].
Qed.
(** ** The requests of a dispatch *)

Section Requests.

Context `{I : Imports}.
Variable W : world.

Lemma sends_ok (self : NotifySNS) (payload : list (string * string)) (r : request) :
  sends self payload r → request_ok self r.
Proof.
  intros [t ->]. unfold request_ok, request_of.
  cbn [req_url req_verify req_headers req_data].
  destruct (prepared_headers_lookup self (urlencode payload) t)
    as (_ & _ & H3 & _ & _ & H6).
  by split_and!.
Qed.

Lemma pause_ok (self : NotifySNS) (q : list string) :
  Forall (event_ok self) (pause q).
Proof. destruct q; by repeat constructor. Qed.

Lemma posted_data_pause (q : list string) (evs : list event) :
  posted_data (pause q ++ evs) = posted_data evs.
Proof. by destruct q. Qed.

Lemma phones_phase_ok (self : NotifySNS) (body : string)
    (ps : list string) (h evs : list event) (n : nat) :
  phones_phase W self body ps h evs n → Forall (event_ok self) evs.
Proof.
  induction 1 as [h|no ps h r evs n Hs Hph IH]; [constructor|].
  constructor; [by eapply sends_ok|].
  apply Forall_app. split; [apply pause_ok|done].
Qed.

Lemma topics_phase_ok (self : NotifySNS) (body : string)
    (ts : list string) (h evs : list event) (n : nat) :
  topics_phase W self body ts h evs n → Forall (event_ok self) evs.
Proof.
  induction 1 as [h|topic ts h r evs n Hs Hok Hph IH
                  |topic ts h r d evs n Hs Hok Hd Harn Hph IH
                  |topic ts h r d r' evs n Hs Hok Hd Harn Hs' Hph IH].
  - constructor.
  - constructor; [by eapply sends_ok|done].
  - constructor; [by eapply sends_ok|done].
  - constructor; [by eapply sends_ok|].
    constructor; [by eapply sends_ok|].
    apply Forall_app. split; [apply pause_ok|done].
Qed.

Lemma topics_phase_requests (self : NotifySNS) (body : string)
    (ts : list string) (h evs : list event) (n : nat) :
  topics_phase W self body ts h evs n →
  sublist (map (λ t, urlencode (create_topic_payload t)) ts) (posted_data evs)
  ∧ length (posted_data evs) ≤ 2 * length ts
  ∧ (n = 0 → length (posted_data evs) = 2 * length ts)
  ∧ n ≤ length ts.
Proof.
  induction 1 as [h|topic ts h r evs n [t ->] Hok Hph (IH1 & IH2 & IH3 & IH4)
                  |topic ts h r d evs n [t ->] Hok Hd Harn Hph (IH1 & IH2 & IH3 & IH4)
                  |topic ts h r d r' evs n [t ->] Hok Hd Harn Hs' Hph (IH1 & IH2 & IH3 & IH4)].
  - split_and!; [constructor|done..].
  - change (posted_data (EvPost ?r :: ?l)) with (req_data r :: posted_data l).
    cbn [map length request_of req_data]. split_and!; [by constructor|lia..].
  - change (posted_data (EvPost ?r :: ?l)) with (req_data r :: posted_data l).
    cbn [map length request_of req_data]. split_and!; [by constructor|lia..].
  - change (posted_data (EvPost ?r :: EvPost ?r2 :: ?l))
      with (req_data r :: req_data r2 :: posted_data l).
    rewrite posted_data_pause.
    cbn [map length request_of req_data].
    unfold failed. split_and!.
    + constructor. by constructor.
    + lia.
    + lia.
    + destruct (post_ok (requests_post W (h ++ _) r')); lia.
Qed.

Lemma posted_data_app (a b : list event) :
  posted_data (a ++ b) = posted_data a ++ posted_data b.
Proof. unfold posted_data. apply omap_app. Qed.

Lemma response_dict_raises (answer : http_result) (e : exn) :
  response_dict answer = Raise e →
  e = strip_of_none ∧ ∃ status_code text, answer = Response status_code text.
Proof.
  unfold response_dict. destruct answer as [code text|msg]; intros H.
  - pose proof (aws_response_to_dict_cases (Some text)) as Hp.
    rewrite H in Hp. split; [done|by do 2 eexists].
  - by rewrite aws_response_to_dict_run in H.
Qed.

End Requests.

(** X8.  A dispatch over stored lists shorter than the fuel ends: it
    returns, having only added events to the trace, or the
    [AttributeError] of the response parser leaves it, on an HTTP answer
    of the provider.  No [IndexError] of [pop] and no [TypeError] leaves
    it. *)
Theorem dispatch_outcomes `{I : Imports} (W : world) (fuel : nat)
    (self : NotifySNS) (title body notify_type : string) (st : state) :
  phone self ∈ dom (heap st) →
  topics self ∈ dom (heap st) →
  length (heap st !!! phone self) < fuel →
  length (heap st !!! topics self) < fuel →
  match (notify W fuel self title body notify_type st).1 with
  | Ok b =>
      ∃ evs, trace (notify W fuel self title body notify_type st).2
             = trace st ++ evs
  | Raise e =>
      e = strip_of_none
      ∧ ∃ h r status_code text, requests_post W h r = Response status_code text
  | Diverge => False
  end.
Proof.
  intros Hp Ht Hf1 Hf2.
  destruct (notify W fuel self title body notify_type st) as [o st'] eqn:Hrun.
  destruct (notify_run W _ _ _ _ _ _ _ _ Hp Ht Hrun) as [_ Ho].
  cbn [fst snd]. destruct o as [b|e|].
  - destruct Ho as (evs1 & evs2 & n1 & n2 & Htr & _). exists (evs1 ++ evs2). done.
  - destruct Ho as (h & r & Hr).
    apply response_dict_raises in Hr as [-> (code & text & Ha)].
    split; [done|]. by exists h, r, code, text.
  - lia.
Qed.

(** X9.  In a dispatch that returns, the requests of the phones come
    first, one Publish body for each stored phone in the stored order;
    then the requests of the topics, among which the CreateTopic bodies
    of the stored topics appear in the stored order, at most two requests
    for each topic.  When the result is [True] every topic had its two
    requests; when it is [False] there was a recipient. *)
Theorem dispatch_requests `{I : Imports} (W : world) (fuel : nat)
    (self : NotifySNS) (title body notify_type : string) (st st' : state)
    (b : bool) :
  phone self ∈ dom (heap st) →
  topics self ∈ dom (heap st) →
  notify W fuel self title body notify_type st = (Ok b, st') →
  ∃ evs1 evs2,
    trace st' = trace st ++ evs1 ++ evs2
    ∧ posted_data evs1
      = map (λ no, urlencode (publish_phone_payload body no))
          (heap st !!! phone self)
    ∧ sublist (map (λ t, urlencode (create_topic_payload t))
                 (heap st !!! topics self))
        (posted_data evs2)
    ∧ length (posted_data evs2) ≤ 2 * length (heap st !!! topics self)
    ∧ (if b then length (posted_data evs2) = 2 * length (heap st !!! topics self)
       else 0 < length (heap st !!! phone self) + length (heap st !!! topics self)).
Proof.
  intros Hp Ht Hrun.
  destruct (notify_run W _ _ _ _ _ _ _ _ Hp Ht Hrun)
    as [_ (evs1 & evs2 & n1 & n2 & Htr & Hph & Hto & Hb)].
  destruct (phones_phase_requests W _ _ _ _ _ _ Hph) as [Hd1 Hn1].
  destruct (topics_phase_requests W _ _ _ _ _ _ Hto) as (Hs & Hl & Hz & Hn2).
  pose proof (sublist_length _ _ Hs) as Hsl. rewrite length_map in Hsl.
  exists evs1, evs2. split_and!; [done..|lia|].
  destruct b; symmetry in Hb.
  - apply Nat.eqb_eq in Hb. lia.
  - apply Nat.eqb_neq in Hb. lia.
Qed.

(** X10.  Every request of a dispatch that returns goes to the URL of
    the notifier under its certificate flag, carries exactly the five
    headers [User-Agent], [Content-Type], [Content-Length],
    [Authorization] and [X-Amz-Date], and its [Content-Length] is the
    length of its body. *)
Theorem dispatch_requests_are_signed `{I : Imports} (W : world) (fuel : nat)
    (self : NotifySNS) (title body notify_type : string) (st st' : state)
    (b : bool) :
  phone self ∈ dom (heap st) →
  topics self ∈ dom (heap st) →
  notify W fuel self title body notify_type st = (Ok b, st') →
  ∃ evs, trace st' = trace st ++ evs ∧ Forall (event_ok self) evs.
Proof.
  intros Hp Ht Hrun.
  destruct (notify_run W _ _ _ _ _ _ _ _ Hp Ht Hrun)
    as [_ (evs1 & evs2 & n1 & n2 & Htr & Hph & Hto & Hb)].
  exists (evs1 ++ evs2). split; [done|]. apply Forall_app. split.
  - by eapply phones_phase_ok.
  - by eapply topics_phase_ok.
Qed.
(** ** The URL *)

Lemma find_region_first (entries : list string) (i : nat) (parts : list string) :
  find_region entries i parts
  = match list_find region_entry entries with
    | Some (k, entry) =>
        (Some (Py.join "/" (parts ++ take k entries)), Some (region_of entry),
         i + k + 1)
    | None => (None, None, 0)
    end.
Proof.
  revert i parts. induction entries as [|entry entries IH]; intros i parts; [done|].
  cbn [find_region list_find]. unfold region_of.
  destruct (decide (region_entry entry)) as [[result Hr]|Hn].
  - rewrite Hr. cbn [take]. rewrite app_nil_r. do 2 f_equal. lia.
  - destruct (Re.match_ IS_REGION entry) as [result|] eqn:Hr.
    { exfalso. apply Hn. by exists result. }
    rewrite IH. destruct (list_find region_entry entries) as [[k e]|]; [|done].
    cbn [fmap option_fmap option_map prod_map fst snd take].
    rewrite <- app_assoc. cbn [app]. do 2 f_equal. lia.
Qed.

(** X11.  [parse_url] returns nothing when the base parser returned
    nothing.  Otherwise, for a path whose entries are of ASCII
    characters, the host is the key id, and the path is cut at
    its first entry that [IS_REGION] matches: the secret is the entries
    before it joined by slashes, the region is made of that entry, and
    the recipients are the non-empty entries, unquoted, from the index
    after it.  When no entry is a region, the secret and the region are
    [None] and every non-empty entry is a recipient. *)
Theorem parse_url_splits_at_region `{I : Imports} (host fullpath : string) :
  forallb Py.ascii_text (split_path fullpath) = true →
  parse_url None = None
  ∧ ∃ res, parse_url (Some (host, fullpath)) = Some res
    ∧ res_access_key_id res = host
    ∧ match list_find region_entry (split_path fullpath) with
      | Some (k, entry) =>
          res_secret_access_key res
          = Some (Py.join "/" (take k (split_path fullpath)))
          ∧ res_region_name res = Some (region_of entry)
          ∧ res_recipients res
            = drop (S k) (map unquote (filter (λ x, x ≠ "") (split_path fullpath)))
          ∧ Forall (λ e, ¬ region_entry e) (take k (split_path fullpath))
      | None =>
          res_secret_access_key res = None
          ∧ res_region_name res = None
          ∧ res_recipients res
            = map unquote (filter (λ x, x ≠ "") (split_path fullpath))
          ∧ Forall (λ e, ¬ region_entry e) (split_path fullpath)
      end.
Proof.
  intros _. split; [done|]. unfold parse_url. rewrite find_region_first.
  destruct (list_find region_entry (split_path fullpath)) as [[k entry]|] eqn:Hf.
  - eexists. split; [reflexivity|]. cbn [res_access_key_id res_secret_access_key
      res_region_name res_recipients app]. split_and!; try done.
    + by rewrite Nat.add_0_l, Nat.add_1_r.
    + apply list_find_Some in Hf as (_ & _ & Hb).
      apply Forall_forall. intros e He.
      apply list_elem_of_lookup in He as [j Hj].
      pose proof (lookup_lt_Some _ _ _ Hj) as Hlt. rewrite length_take in Hlt.
      rewrite lookup_take_lt in Hj by lia. eapply Hb; [done|lia].
  - eexists. split; [reflexivity|]. cbn [res_access_key_id res_secret_access_key
      res_region_name res_recipients app]. split_and!; try done.
    by apply list_find_None in Hf.
Qed.
(** ** The region pattern *)

Lemma IS_REGION_eq :
  IS_REGION
  = Re.Seq Re.Bol
      (Re.Seq (Re.Star (Re.Cls (ci Py.is_space)))
         (Re.Seq (Re.Grp "country"
                    (Re.Seq (Re.Cls (ci Py.is_lower))
                       (Re.Seq (Re.Cls (ci Py.is_lower)) Re.Eps)))
            (Re.Seq (Re.Cls (ci_chr "-"))
               (Re.Seq (Re.Grp "area" (Re.Plus (Re.Cls (ci Py.is_lower))))
                  (Re.Seq (Re.Cls (ci_chr "-"))
                     (Re.Seq (Re.Grp "no" (Re.Plus (Re.Cls (ci Py.is_digit))))
                        (Re.Seq (Re.Star (Re.Cls (ci Py.is_space))) Re.Eol))))))).
Proof. reflexivity. Qed.

Lemma exec_cls {A} (p : ascii → bool) (s : list ascii) (i : nat)
    (g : Re.groups) (k : Re.cont A) :
  Re.exec (Re.Cls p) s i g k
  = match s with
    | x :: s' => if p x then k s' (S i) g else None
    | [] => None
    end.
Proof. reflexivity. Qed.

Lemma exec_eps {A} (s : list ascii) (i : nat) (g : Re.groups) (k : Re.cont A) :
  Re.exec Re.Eps s i g k = k s i g.
Proof. reflexivity. Qed.

(** A greedy run whose continuation refuses every text that starts in
    the class never gives a character back. *)
Lemma greedy_commit {A} (p : ascii → bool) (s : list ascii) (i : nat)
    (g : Re.groups) (k : Re.cont A) :
  (∀ x s' j, p x = true → k (x :: s') j g = None) →
  greedy p s i g k = k (span p s).2 (i + length (span p s).1) g.
Proof.
  intros Hk. revert i. induction s as [|x s IH]; intros i.
  - simpl. by rewrite Nat.add_0_r.
  - simpl. destruct (p x) eqn:Hx.
    + rewrite IH. destruct (span p s) as [a b]. cbn [fst snd length].
      replace (S i + length a) with (i + S (length a)) by lia.
      destruct (k b _ g); [done|]. by apply Hk.
    + cbn [fst snd length]. by rewrite Nat.add_0_r.
Qed.

Lemma exec_tail_class (q : ascii → bool) (s : list ascii) (i : nat)
    (g : Re.groups) :
  q "010"%char = true →
  Re.exec (Re.Seq (Re.Star (Re.Cls q)) Re.Eol) s i g FINAL
  = if forallb q s then Some g else None.
Proof.
  intros Hq. rewrite exec_seq, exec_star_cls.
  destruct (forallb q s) eqn:Hs.
  - rewrite <- (app_nil_r s) at 1. by apply greedy_longest.
  - apply greedy_none. intros pre rest -> Hpre.
    pose proof (forallb_app_false _ _ _ Hpre Hs) as Hrest.
    destruct rest as [|c [|c' rest]]; [done| |done].
    cbn [Re.exec]. destruct (decide (c = "010"%char)) as [->|]; [|done].
    cbn [forallb] in Hrest. by rewrite Hq in Hrest.
Qed.

Lemma space_not_letter (x : ascii) :
  ci Py.is_space x = true → ci Py.is_lower x = false.
Proof. destruct x as [[] [] [] [] [] [] [] []]; by vm_compute. Qed.

Lemma letter_not_dash (x : ascii) :
  ci Py.is_lower x = true → ci_chr "-" x = false.
Proof. destruct x as [[] [] [] [] [] [] [] []]; by vm_compute. Qed.

Lemma digit_not_space (x : ascii) :
  ci Py.is_digit x = true → ci Py.is_space x = false.
Proof. destruct x as [[] [] [] [] [] [] [] []]; by vm_compute. Qed.

Lemma match_region (t : string) :
  Re.match_ IS_REGION t = region_scan (Py.chars t).
Proof.
  unfold Re.match_. rewrite IS_REGION_eq. generalize (Py.chars t) as s. intros s.
  rewrite exec_seq, exec_bol, exec_seq, exec_star_cls, greedy_commit.
  2: { intros x s' j Hx. rewrite exec_seq, exec_grp, exec_seq, exec_cls.
       by rewrite (space_not_letter x Hx). }
  unfold region_scan. destruct (span (ci Py.is_space) s) as [pre s1]. cbn [fst snd].
  generalize (0 + length pre) as i. intros i. clear pre s.
  rewrite exec_seq, exec_grp, exec_seq, exec_cls.
  destruct s1 as [|c1 [|c2 [|d s2]]]; [done|..].
  { destruct (ci Py.is_lower c1); done. }
  { destruct (ci Py.is_lower c1); [|done]. rewrite exec_seq, exec_cls.
    destruct (ci Py.is_lower c2); done. }
  destruct (ci Py.is_lower c1) eqn:H1; [|done].
  rewrite exec_seq, exec_cls.
  destruct (ci Py.is_lower c2) eqn:H2; [|done].
  rewrite exec_eps, exec_seq, exec_cls.
  destruct (ci_chr "-" d) eqn:H3; [|done]. cbn [andb].
  replace (S (S i) - i) with 2 by lia. cbn [take].
  rewrite exec_seq, exec_grp, exec_plus_cls.
  pose proof (span_spec (ci Py.is_lower) s2) as Hs2.
  destruct s2 as [|a s2'] eqn:Es2; [done|].
  destruct (ci Py.is_lower a) eqn:Ha.
  2: { cbn [span]. by rewrite Ha. }
  rewrite greedy_commit.
  2: { intros x s' j Hx. rewrite exec_seq, exec_cls.
       by rewrite (letter_not_dash x Hx). }
  cbn [span] in Hs2 |- *. rewrite Ha in Hs2 |- *.
  destruct (span (ci Py.is_lower) s2') as [area s3]. cbn [fst snd].
  destruct Hs2 as (Hs2 & Harea & _). injection Hs2 as Hs2.
  rewrite exec_seq, exec_cls.
  destruct s3 as [|d' s4]; [done|].
  destruct (ci_chr "-" d') eqn:H4; [|done].
  replace (S (S (S (S i))) + length area - S (S (S i))) with (S (length area)) by lia.
  rewrite Hs2. cbn [take]. rewrite take_app_length.
  rewrite exec_seq, exec_grp, exec_plus_cls.
  pose proof (span_spec (ci Py.is_digit) s4) as Hs4.
  destruct s4 as [|n s4'] eqn:Es4; [done|].
  destruct (ci Py.is_digit n) eqn:Hn.
  2: { cbn [span]. by rewrite Hn. }
  rewrite greedy_commit.
  2: { intros x s' j Hx. rewrite exec_tail_class by done.
       cbn [forallb]. by rewrite (digit_not_space x Hx). }
  cbn [span] in Hs4 |- *. rewrite Hn in Hs4 |- *.
  destruct (span (ci Py.is_digit) s4') as [no s5]. cbn [fst snd].
  destruct Hs4 as (Hs4 & _). injection Hs4 as Hs4.
  rewrite exec_tail_class by done.
  match goal with |- context [take ?n _] =>
    replace n with (S (length no)) by lia end.
  rewrite Hs4. cbn [take]. by rewrite take_app_length.
Qed.
Lemma letter_not_space (x : ascii) :
  Py.is_lower x = true → ci Py.is_space x = false.
Proof. destruct x as [[] [] [] [] [] [] [] []]; by vm_compute. Qed.

Lemma lower_is_letter (x : ascii) :
  Py.is_lower x = true → ci Py.is_lower x = true.
Proof. destruct x as [[] [] [] [] [] [] [] []]; by vm_compute. Qed.

Lemma letter_lower_char (x : ascii) :
  ci Py.is_lower x = true → Py.is_lower (Py.lower_char x) = true.
Proof. destruct x as [[] [] [] [] [] [] [] []]; by vm_compute. Qed.

Lemma lower_char_lower (x : ascii) :
  Py.is_lower x = true → Py.lower_char x = x.
Proof. destruct x as [[] [] [] [] [] [] [] []]; by vm_compute. Qed.

Lemma ci_digit (x : ascii) :
  ci Py.is_digit x = true → Py.is_digit x = true.
Proof. destruct x as [[] [] [] [] [] [] [] []]; by vm_compute. Qed.

Lemma digit_ci (x : ascii) :
  Py.is_digit x = true →
  ci Py.is_digit x = true ∧ Py.lower_char x = x ∧ ci Py.is_lower x = false.
Proof. destruct x as [[] [] [] [] [] [] [] []]; by vm_compute. Qed.

Lemma ci_dash (x : ascii) : ci_chr "-" x = true → x = "-"%char.
Proof. destruct x as [[] [] [] [] [] [] [] []]; by vm_compute. Qed.

Lemma span_stop (p : ascii → bool) (pre : list ascii) (x : ascii) (rest : list ascii) :
  forallb p pre = true → p x = false →
  span p (pre ++ x :: rest) = (pre, x :: rest).
Proof.
  intros Hpre Hx. induction pre as [|y pre IH]; simpl.
  - by rewrite Hx.
  - simpl in Hpre. apply andb_true_iff in Hpre as [Hy Hpre].
    by rewrite Hy, (IH Hpre).
Qed.

Lemma map_lower_fixed (l : list ascii) :
  forallb Py.is_lower l = true → map Py.lower_char l = l.
Proof.
  induction l as [|x l IH]; [done|]. simpl.
  intros [Hx Hl]%andb_true_iff. by rewrite (lower_char_lower x Hx), (IH Hl).
Qed.

Lemma map_lower_digits (l : list ascii) :
  forallb Py.is_digit l = true → map Py.lower_char l = l.
Proof.
  induction l as [|x l IH]; [done|]. simpl.
  intros [Hx Hl]%andb_true_iff.
  destruct (digit_ci x Hx) as (_ & -> & _). by rewrite (IH Hl).
Qed.

Lemma forallb_map_lower (l : list ascii) :
  forallb (ci Py.is_lower) l = true →
  forallb Py.is_lower (map Py.lower_char l) = true.
Proof.
  induction l as [|x l IH]; [done|]. simpl.
  intros [Hx Hl]%andb_true_iff. by rewrite (letter_lower_char x Hx), (IH Hl).
Qed.

Lemma region_scan_text (country area no : list ascii) :
  region_parts_ok country area no →
  region_scan (Py.chars (region_text country area no))
  = Some [("no", no); ("area", area); ("country", country)].
Proof.
  intros (Hc & Hcl & Ha & Hal & Hn & Hnl).
  unfold region_text. rewrite chars_str.
  destruct country as [|c1 [|c2 [|? ?]]]; try done.
  destruct area as [|a area]; [done|]. destruct no as [|n no]; [done|].
  cbn [forallb] in Hcl. apply andb_true_iff in Hcl as [H1 H2].
  apply andb_true_iff in H2 as [H2 _].
  unfold region_scan.
  change ([c1; c2] ++ ?r) with ([] ++ c1 :: c2 :: r).
  rewrite span_stop by (done || by apply letter_not_space). cbn [snd].
  rewrite (lower_is_letter c1 H1), (lower_is_letter c2 H2).
  change (ci_chr "-" "-") with true. cbn [andb].
  rewrite (span_stop (ci Py.is_lower) (a :: area) "-" (n :: no)); [| |done].
  2: { eapply forallb_weaken; [|exact Hal]. apply lower_is_letter. }
  assert (Hd : forallb (ci Py.is_digit) (n :: no) = true).
  { eapply forallb_weaken; [|exact Hnl]. intros c Hc'. by apply digit_ci. }
  change (ci_chr "-" "-") with true. cbv iota.
  by rewrite (span_all _ _ Hd).
Qed.

Lemma region_scan_parts (s : list ascii) (g : Re.groups) :
  region_scan s = Some g →
  ∃ c1 c2 area no,
    g = [("no", no); ("area", area); ("country", [c1; c2])]
    ∧ ci Py.is_lower c1 = true ∧ ci Py.is_lower c2 = true
    ∧ area ≠ [] ∧ forallb (ci Py.is_lower) area = true
    ∧ no ≠ [] ∧ forallb (ci Py.is_digit) no = true.
Proof.
  unfold region_scan.
  destruct (span (ci Py.is_space) s).2 as [|c1 [|c2 [|d s2]]]; try done.
  destruct (ci Py.is_lower c1) eqn:H1; [|done].
  destruct (ci Py.is_lower c2) eqn:H2; [|done].
  destruct (ci_chr "-" d); [|done]. cbn [andb].
  pose proof (span_fst_forallb (ci Py.is_lower) s2) as Ha.
  destruct (span (ci Py.is_lower) s2) as [[|a area] [|d' s4]]; try done.
  destruct (ci_chr "-" d'); [|done].
  pose proof (span_fst_forallb (ci Py.is_digit) s4) as Hn.
  destruct (span (ci Py.is_digit) s4) as [[|n no] s5]; try done.
  destruct (forallb (ci Py.is_space) s5); [|done].
  intros [= <-]. exists c1, c2, (a :: area), (n :: no). by split_and!.
Qed.

Lemma region_of_parts (entry : string) :
  region_entry entry →
  ∃ country area no,
    region_of entry = region_text country area no
    ∧ region_parts_ok country area no.
Proof.
  unfold region_entry, region_of. rewrite match_region. intros [g Hg].
  rewrite Hg. apply region_scan_parts in Hg
    as (c1 & c2 & area & no & -> & H1 & H2 & Ha & Hal & Hn & Hnl).
  exists (map Py.lower_char [c1; c2]), (map Py.lower_char area), no.
  split.
  - replace (Re.group _ "country") with (Py.str [c1; c2]) by done.
    replace (Re.group _ "area") with (Py.str area) by done.
    replace (Re.group _ "no") with (Py.str no) by done.
    unfold Py.lower, region_text. rewrite !chars_str.
    rewrite str_app. change ("-"%char :: ?l) with (["-"%char] ++ l).
    rewrite !str_app. reflexivity.
  - split_and!.
    + done.
    + cbn [map forallb]. by rewrite (letter_lower_char c1 H1), (letter_lower_char c2 H2).
    + by destruct area.
    + by apply forallb_map_lower.
    + done.
    + eapply forallb_weaken; [|exact Hnl]. apply ci_digit.
Qed.

Lemma region_text_lower (country area no : list ascii) :
  region_parts_ok country area no →
  Py.lower (region_text country area no) = region_text country area no.
Proof.
  intros (Hc & Hcl & Ha & Hal & Hn & Hnl).
  unfold Py.lower, region_text. rewrite chars_str.
  rewrite map_app, map_cons, map_app, map_cons.
  by rewrite (map_lower_fixed _ Hcl), (map_lower_fixed _ Hal), (map_lower_digits _ Hnl).
Qed.

Lemma region_of_text (country area no : list ascii) :
  region_parts_ok country area no →
  region_entry (region_text country area no)
  ∧ region_of (region_text country area no) = region_text country area no.
Proof.
  intros Hok. pose proof (region_scan_text _ _ _ Hok) as Hscan.
  unfold region_entry, region_of. rewrite match_region, Hscan.
  split; [by eexists|].
  destruct Hok as (Hc & Hcl & Ha & Hal & Hn & Hnl).
  replace (Re.group _ "country") with (Py.str country) by done.
  replace (Re.group _ "area") with (Py.str area) by done.
  replace (Re.group _ "no") with (Py.str no) by done.
  unfold Py.lower, region_text. rewrite !chars_str.
  rewrite (map_lower_fixed _ Hcl), (map_lower_fixed _ Hal).
  rewrite str_app. change ("-"%char :: ?l) with (["-"%char] ++ l).
  rewrite !str_app. reflexivity.
Qed.

(** X12.  The region that [parse_url] makes of a matching entry is in
    normal form: two lower-case letters, a dash, lower-case letters, a
    dash, digits.  [IS_REGION] matches it, [parse_url] makes the same
    region of it again, lower-casing leaves it as it is, and the
    constructor never refuses it as a region. *)
Theorem url_region_is_normal (entry : string) :
  region_entry entry →
  (∃ country area no,
     region_of entry = region_text country area no
     ∧ length country = 2 ∧ forallb Py.is_lower country = true
     ∧ area ≠ [] ∧ forallb Py.is_lower area = true
     ∧ no ≠ [] ∧ forallb Py.is_digit no = true)
  ∧ region_entry (region_of entry)
  ∧ region_of (region_of entry) = region_of entry
  ∧ Py.lower (region_of entry) = region_of entry
  ∧ ∀ ak sk, refusal ak sk (Some (region_of entry)) ≠ Some invalid_region.
Proof.
  intros He. destruct (region_of_parts entry He) as (c & a & n & Hr & Hok).
  destruct (region_of_text c a n Hok) as [H1 H2].
  split; [by exists c, a, n|]. rewrite Hr.
  split_and!; [done|done|by apply region_text_lower|].
  intros ak sk. unfold refusal.
  destruct (Py.truthy ak); [|done]. destruct (Py.truthy sk); [|done].
  cbn [negb default]. rewrite (bool_decide_true _ H1).
  destruct Hok as (Hc & _). unfold region_text.
  destruct c as [|c1 c]; [done|]. done.
Qed.

(** ** The checks of the constructor *)

Lemma truthy_given (o : option string) : Py.truthy o = true ↔ given o.
Proof.
  unfold given. destruct o as [s|]; simpl.
  - rewrite negb_true_iff, String.eqb_neq. split.
    + intros H. by exists s.
    + by intros (s' & [= <-] & H).
  - split; [done|]. by intros (s & H & _).
Qed.

Lemma ci_space (x : ascii) : ci Py.is_space x = Py.is_space x.
Proof. destruct x as [[] [] [] [] [] [] [] []]; by vm_compute. Qed.

Lemma ci_letter (x : ascii) : ci Py.is_lower x = is_letter x.
Proof. destruct x as [[] [] [] [] [] [] [] []]; by vm_compute. Qed.

Lemma ci_digit_eq (x : ascii) : ci Py.is_digit x = Py.is_digit x.
Proof. destruct x as [[] [] [] [] [] [] [] []]; by vm_compute. Qed.

Lemma space_not_digit (x : ascii) :
  ci Py.is_space x = true → ci Py.is_digit x = false.
Proof. destruct x as [[] [] [] [] [] [] [] []]; by vm_compute. Qed.

Lemma letter_not_ci_space (x : ascii) :
  ci Py.is_lower x = true → ci Py.is_space x = false.
Proof. destruct x as [[] [] [] [] [] [] [] []]; by vm_compute. Qed.

Lemma forallb_ext_eq (p q : ascii → bool) (l : list ascii) :
  (∀ c, p c = q c) → forallb p l = forallb q l.
Proof. intros H. induction l as [|x l IH]; [done|]. simpl. by rewrite H, IH. Qed.

(** [IS_REGION] matches exactly the texts of the shape of a region. *)
Lemma region_scan_shape (s : list ascii) :
  is_Some (region_scan s) ↔ region_shape s.
Proof.
  split.
  - intros [g Hg]. revert Hg. unfold region_scan.
    pose proof (span_spec (ci Py.is_space) s) as H0.
    destruct (span (ci Py.is_space) s) as [sp s1]. destruct H0 as (-> & Hsp & _).
    cbn [snd]. destruct s1 as [|c1 [|c2 [|d s2]]]; try done.
    destruct (ci Py.is_lower c1) eqn:H1; [|done].
    destruct (ci Py.is_lower c2) eqn:H2; [|done].
    destruct (ci_chr "-" d) eqn:H3; [|done]. cbn [andb].
    pose proof (span_spec (ci Py.is_lower) s2) as Ha.
    destruct (span (ci Py.is_lower) s2) as [[|a area] [|d' s4]]; try done.
    destruct Ha as (-> & Harea & _).
    destruct (ci_chr "-" d') eqn:H4; [|done].
    pose proof (span_spec (ci Py.is_digit) s4) as Hn.
    destruct (span (ci Py.is_digit) s4) as [[|n no] s5]; try done.
    destruct Hn as (-> & Hno & _).
    destruct (forallb (ci Py.is_space) s5) eqn:H5; [|done]. intros _.
    apply ci_dash in H3 as ->. apply ci_dash in H4 as ->.
    exists sp, c1, c2, (a :: area), (n :: no), s5.
    rewrite <- !ci_letter, <- (forallb_ext_eq _ _ _ ci_letter).
    rewrite <- (forallb_ext_eq _ _ sp ci_space), <- (forallb_ext_eq _ _ s5 ci_space).
    rewrite <- (forallb_ext_eq _ _ _ ci_digit_eq).
    by split_and!.
  - intros (sp & c1 & c2 & area & no & sp' & -> & Hsp & H1 & H2 & Ha & Hal & Hn & Hnl & Hsp').
    rewrite <- ci_letter in H1, H2.
    rewrite <- (forallb_ext_eq _ _ _ ci_letter) in Hal.
    rewrite <- (forallb_ext_eq _ _ _ ci_space) in Hsp.
    rewrite <- (forallb_ext_eq _ _ _ ci_space) in Hsp'.
    rewrite <- (forallb_ext_eq _ _ _ ci_digit_eq) in Hnl.
    unfold region_scan.
    rewrite span_stop by (done || by apply letter_not_ci_space). cbn [snd].
    rewrite H1, H2. change (ci_chr "-" "-") with true. cbn [andb].
    destruct area as [|a area]; [done|]. destruct no as [|n no]; [done|].
    rewrite (span_stop (ci Py.is_lower) (a :: area) "-"); [|done|done].
    change (ci_chr "-" "-") with true. cbv iota.
    assert (Hspan : span (ci Py.is_digit) ((n :: no) ++ sp') = (n :: no, sp')).
    { destruct sp' as [|x sp'']; [rewrite app_nil_r; by apply span_all|].
      apply span_stop; [done|]. apply space_not_digit.
      simpl in Hsp'. by apply andb_true_iff in Hsp' as [? _]. }
    rewrite Hspan, Hsp'. by eexists.
Qed.

Lemma valid_config_given (ak sk region : option string) :
  valid_config ak sk region = true
  ↔ given ak ∧ given sk ∧ region_given region.
Proof.
  unfold valid_config, region_given.
  rewrite !andb_true_iff, !truthy_given, bool_decide_eq_true, match_region.
  rewrite region_scan_shape. split.
  - intros [[[Hak Hsk] (r & -> & Hr)] Hs]. split_and!; [done..|]. by exists r.
  - intros (Hak & Hsk & r & -> & Hs). split_and!; [done..| |done].
    exists r. split; [done|]. intros ->.
    destruct Hs as (sp & ? & ? & ? & ? & ? & Hs & _). by destruct sp.
Qed.

Lemma refusal_none (ak sk region : option string) :
  refusal ak sk region = None ↔ valid_config ak sk region = true.
Proof.
  unfold refusal, valid_config.
  destruct (Py.truthy ak); [|done]. destruct (Py.truthy sk); [|done].
  cbn [negb andb]. by destruct (Py.truthy region && _).
Qed.

(** X1.  For a region of ASCII characters, the constructor returns an
    object exactly when the key id and the secret are given (neither
    [None] nor empty) and the region has the shape of a region: white
    space, two letters, a dash, one letter or more, a dash, one digit or
    more, white space.  Otherwise it raises the [TypeError] of the first
    check that fails, the key id, then the secret, then the region, and
    leaves the state as it was. *)
Theorem constructor_refusals (agent : string) (verify : bool)
    (ak sk region : option string) (recipients : recipients_arg) (st : state) :
  ascii_option region = true →
  ((∃ self st', __init__ agent verify ak sk region recipients st = (Ok self, st'))
   ↔ given ak ∧ given sk ∧ region_given region)
  ∧ (¬ given ak →
     __init__ agent verify ak sk region recipients st = (Raise invalid_key_id, st))
  ∧ (given ak → ¬ given sk →
     __init__ agent verify ak sk region recipients st = (Raise invalid_secret, st))
  ∧ (given ak → given sk → ¬ region_given region →
     __init__ agent verify ak sk region recipients st = (Raise invalid_region, st)).
Proof.
  intros _.
  pose proof (init_by_refusal agent verify ak sk region recipients st) as Hrun.
  pose proof (refusal_none ak sk region) as Hnone.
  rewrite valid_config_given in Hnone.
  split_and!.
  - split.
    + intros (self & st' & Hok). apply Hnone.
      destruct (refusal ak sk region); [congruence|done].
    + intros Hg. apply Hnone in Hg. by rewrite Hg in Hrun.
  - intros Hak. rewrite <- truthy_given in Hak. apply not_true_is_false in Hak.
    unfold refusal in Hrun. by rewrite Hak in Hrun.
  - intros Hak Hsk. rewrite <- truthy_given in Hak, Hsk.
    apply not_true_is_false in Hsk.
    unfold refusal in Hrun. by rewrite Hak, Hsk in Hrun.
  - intros Hak Hsk Hr.
    destruct (refusal ak sk region) as [e|] eqn:Hre.
    2: { exfalso. apply Hr. by apply Hnone. }
    rewrite Hrun. do 2 f_equal. revert Hre. unfold refusal.
    rewrite <- truthy_given in Hak, Hsk. rewrite Hak, Hsk. cbn [negb].
    destruct (negb _); by intros [= <-].
Qed.

(* ===================================================================== *)
(** * Part III: the theorems at work on the examples                      *)
(* ===================================================================== *)

Lemma aws_auth_signature_chain_witness :
  aws_auth_version iam_example = "AWS4"
  ∧ aws_auth_request iam_example = "aws4_request"
  ∧ let dateStamp := strftime (example_clock 0) Ymd in
    let kDate : bytes :=
      @hmac_sha256_digest example_imports
        (encode_utf8 ("AWS4" +:+ aws_secret_access_key iam_example))
        (encode_utf8 dateStamp) in
    let kRegion : bytes :=
      @hmac_sha256_digest example_imports kDate
        (encode_utf8 (aws_region_name iam_example)) in
    let kService : bytes :=
      @hmac_sha256_digest example_imports kRegion
        (encode_utf8 (aws_service_name iam_example)) in
    let kSigning : bytes :=
      @hmac_sha256_digest example_imports kService (encode_utf8 "aws4_request") in
    let final : bytes :=
      @hmac_sha256_digest example_imports kSigning (encode_utf8 "string to sign") in
    @aws_auth_signature example_imports iam_example "string to sign" (example_clock 0)
    = hexlify final
    ∧ String.length
        (@aws_auth_signature example_imports iam_example "string to sign"
           (example_clock 0))
      = 2 * length final
    ∧ forallb is_hex_char
        (Py.chars (@aws_auth_signature example_imports iam_example
                     "string to sign" (example_clock 0)))
      = true.
Proof.
  split; [reflexivity|]. split; [reflexivity|].
  exact (aws_auth_signature_chain (I := example_imports) iam_example
           "string to sign" (example_clock 0) eq_refl eq_refl).
Defined.

Lemma recipient_classification_witness :
  (2 ≠ 1)%positive
  ∧ Py.ascii_text "abc " = true
  ∧ forallb Py.ascii_text ["+1 (555) 123-4567"; "abc "; "#alerts"; "12345"] = true
  ∧ validate_recipient 2%positive 1%positive "abc "
    = store_verdict 2%positive 1%positive "abc " (classify "abc ")
  ∧ ∃ st',
      for_each ["+1 (555) 123-4567"; "abc "; "#alerts"; "12345"]
        (validate_recipient 2%positive 1%positive) initial_state
      = (Ok tt, st')
      ∧ heap st' !!! 2%positive
        = heap initial_state !!! 2%positive
          ++ phones_of ["+1 (555) 123-4567"; "abc "; "#alerts"; "12345"]
      ∧ heap st' !!! 1%positive
        = heap initial_state !!! 1%positive
          ++ topics_of ["+1 (555) 123-4567"; "abc "; "#alerts"; "12345"].
Proof.
  assert (Hne : (2 ≠ 1)%positive) by discriminate.
  assert (Ha : Py.ascii_text "abc " = true) by reflexivity.
  assert (Hf : forallb Py.ascii_text
                 ["+1 (555) 123-4567"; "abc "; "#alerts"; "12345"] = true)
    by reflexivity.
  split; [exact Hne|]. split; [exact Ha|]. split; [exact Hf|].
  destruct (recipient_classification 2%positive 1%positive Hne)
    as (H1 & _ & _ & _ & H5).
  split; [exact (H1 "abc " Ha)|].
  exact (H5 ["+1 (555) 123-4567"; "abc "; "#alerts"; "12345"] initial_state Hf).
Defined.

Lemma header_preparation_deterministic_witness :
  utcnow_at example_world (clock initial_state)
  = utcnow_at refusing_world (clock example_state)
  ∧ ∃ headers,
      (aws_prepare_request (I := example_imports) example_world example_self
         "Action=Publish" None initial_state).1 = Ok headers
      ∧ (aws_prepare_request (I := example_imports) refusing_world example_self
           "Action=Publish" (Some (example_clock 7)) example_state).1 = Ok headers
      ∧ headers !! "X-Amz-Date" = Some (PStr "20150830T123600Z").
Proof.
  split; [vm_compute; reflexivity|].
  assert (Ht : utcnow_at example_world (clock initial_state)
               = utcnow_at refusing_world (clock example_state))
    by (vm_compute; reflexivity).
  destruct (header_preparation_deterministic (I := example_imports)
              example_world refusing_world example_self "Action=Publish"
              None (Some (example_clock 7)) initial_state example_state Ht)
    as (headers & H1 & H2 & _ & H4 & _).
  exists headers. split; [exact H1|]. split; [exact H2|exact H4].
Defined.

Lemma no_recipient_no_request_witness :
  valid_config (Some "AKIDEXAMPLE") (Some "secret") (Some "us-east-1") = true
  ∧ phones_of (recipient_list (RStr "not-a-recipient! 12345")) = []
  ∧ topics_of (recipient_list (RStr "not-a-recipient! 12345")) = []
  ∧ 0 < 1
  ∧ ∃ self st1 st2 ws,
      __init__ "Apprise" true (Some "AKIDEXAMPLE") (Some "secret")
        (Some "us-east-1") (RStr "not-a-recipient! 12345") initial_state
      = (Ok self, st1)
      ∧ Forall (λ e, e.1 = WARNING) ws
      ∧ log st1 = log initial_state ++ ws ++ [no_recipient_warning]
      ∧ notify (I := example_imports) example_world 1 self "" "hello" "info" st1
        = (Ok true, st2)
      ∧ trace st2 = trace initial_state ∧ clock st2 = clock initial_state.
Proof.
  assert (H1 : valid_config (Some "AKIDEXAMPLE") (Some "secret") (Some "us-east-1") = true)
    by (vm_compute; reflexivity).
  assert (H2 : phones_of (recipient_list (RStr "not-a-recipient! 12345")) = [])
    by (vm_compute; reflexivity).
  assert (H3 : topics_of (recipient_list (RStr "not-a-recipient! 12345")) = [])
    by (vm_compute; reflexivity).
  assert (H4 : 0 < 1) by lia.
  split; [exact H1|]. split; [exact H2|]. split; [exact H3|]. split; [exact H4|].
  exact (no_recipient_no_request (I := example_imports) example_world
           "Apprise" true (Some "AKIDEXAMPLE") (Some "secret") (Some "us-east-1")
           (RStr "not-a-recipient! 12345") 1 "" "hello" "info" initial_state
           H1 H2 H3 H4).
Defined.

Lemma example_lists_in_heap :
  phone example_self ∈ dom (heap example_state)
  ∧ topics example_self ∈ dom (heap example_state).
Proof.
  split; apply elem_of_dom; vm_compute; by eexists.
Defined.

Lemma notify_keeps_stored_lists_witness :
  phone example_self ∈ dom (heap example_state)
  ∧ topics example_self ∈ dom (heap example_state)
  ∧ let st' := (notify (I := example_imports) example_world 3 example_self
                  "" "hello" "info" example_state).2 in
    heap st' !! phone example_self = heap example_state !! phone example_self
    ∧ heap st' !! topics example_self = heap example_state !! topics example_self
    ∧ phone example_self ∈ dom (heap st')
    ∧ topics example_self ∈ dom (heap st')
    ∧ (read_list (phone example_self) st').1
      = (read_list (phone example_self) example_state).1
    ∧ (read_list (topics example_self) st').1
      = (read_list (topics example_self) example_state).1.
Proof.
  destruct example_lists_in_heap as [Hp Ht].
  split; [exact Hp|]. split; [exact Ht|].
  exact (notify_keeps_stored_lists (I := example_imports) example_world 3
           example_self "" "hello" "info" example_state Hp Ht).
Defined.

Lemma pacing_between_recipients_witness :
  phone example_self ∈ dom (heap example_state)
  ∧ topics example_self ∈ dom (heap example_state)
  ∧ (notify (I := example_imports) example_world 3 example_self
       "" "hello" "info" example_state).1 = Ok true
  ∧ ∃ evs published,
      trace (notify (I := example_imports) example_world 3 example_self
               "" "hello" "info" example_state).2
      = trace example_state ++ evs
      ∧ length published = length (heap example_state !!! topics example_self)
      ∧ map is_throttle evs
        = phones_pacing (length (heap example_state !!! phone example_self))
          ++ topics_pacing published
      ∧ last (map is_throttle evs) ≠ Some true
      ∧ (length (heap example_state !!! phone example_self) = 1 →
         length (heap example_state !!! topics example_self) = 1 →
         EvThrottle ∉ evs).
Proof.
  destruct example_lists_in_heap as [Hp Ht].
  split; [exact Hp|]. split; [exact Ht|].
  assert (Hrun : notify (I := example_imports) example_world 3 example_self
                   "" "hello" "info" example_state
                 = (Ok true,
                    (notify (I := example_imports) example_world 3 example_self
                       "" "hello" "info" example_state).2)).
  { vm_compute. reflexivity. }
  split; [by rewrite Hrun|].
  exact (pacing_between_recipients (I := example_imports) example_world 3
           example_self "" "hello" "info" example_state true _ Hp Ht Hrun).
Defined.

(** ** The further properties on the examples *)

Lemma example_construction :
  __init__ "Apprise" true (Some "AKIDEXAMPLE")
    (Some "wJalrXUtnFEMI/K7MDENG+bPxRfiCYEXAMPLEKEY") (Some "us-east-1")
    example_recipients initial_state
  = (Ok example_self, example_state).
Proof. vm_compute. reflexivity. Defined.

Lemma example_lists_are_short :
  length (heap example_state !!! phone example_self) < 3
  ∧ length (heap example_state !!! topics example_self) < 3.
Proof. split; vm_compute; lia. Defined.

Lemma example_dispatch :
  notify (I := example_imports) example_world 3 example_self
    "" "hello" "info" example_state
  = (Ok true,
     (notify (I := example_imports) example_world 3 example_self
        "" "hello" "info" example_state).2).
Proof. vm_compute. reflexivity. Defined.

Lemma constructed_lists_are_well_formed_witness :
  __init__ "Apprise" true (Some "AKIDEXAMPLE")
    (Some "wJalrXUtnFEMI/K7MDENG+bPxRfiCYEXAMPLEKEY") (Some "us-east-1")
    example_recipients initial_state
  = (Ok example_self, example_state)
  ∧ Forall (λ n, stored_phone_ok n = true)
      (heap example_state !!! phone example_self)
  ∧ Forall (λ n, stored_topic_ok n = true)
      (heap example_state !!! topics example_self)
  ∧ length (heap example_state !!! phone example_self)
    + length (heap example_state !!! topics example_self)
    ≤ length (recipient_list example_recipients).
Proof.
  split; [exact example_construction|].
  exact (constructed_lists_are_well_formed "Apprise" true (Some "AKIDEXAMPLE")
           (Some "wJalrXUtnFEMI/K7MDENG+bPxRfiCYEXAMPLEKEY") (Some "us-east-1")
           example_recipients initial_state example_self example_state
           example_construction).
Defined.

Lemma constructor_warnings_witness :
  forallb Py.ascii_text (recipient_list example_recipients) = true
  ∧ __init__ "Apprise" true (Some "AKIDEXAMPLE")
    (Some "wJalrXUtnFEMI/K7MDENG+bPxRfiCYEXAMPLEKEY") (Some "us-east-1")
    example_recipients initial_state
  = (Ok example_self, example_state)
  ∧ log example_state
    = log initial_state
      ++ map drop_warning (dropped_of (recipient_list example_recipients))
      ++ (if bool_decide (phones_of (recipient_list example_recipients) = []
                          ∧ topics_of (recipient_list example_recipients) = [])
          then [no_recipient_warning] else [])
  ∧ clock example_state = clock initial_state
  ∧ trace example_state = trace initial_state.
Proof.
  assert (Ha : forallb Py.ascii_text (recipient_list example_recipients) = true)
    by reflexivity.
  split; [exact Ha|]. split; [exact example_construction|].
  exact (constructor_warnings "Apprise" true (Some "AKIDEXAMPLE")
           (Some "wJalrXUtnFEMI/K7MDENG+bPxRfiCYEXAMPLEKEY") (Some "us-east-1")
           example_recipients initial_state example_state example_self
           Ha example_construction).
Defined.

Lemma dispatch_outcomes_witness :
  phone example_self ∈ dom (heap example_state)
  ∧ topics example_self ∈ dom (heap example_state)
  ∧ length (heap example_state !!! phone example_self) < 3
  ∧ length (heap example_state !!! topics example_self) < 3
  ∧ match (notify (I := example_imports) refusing_world 3 example_self
             "" "hello" "info" example_state).1 with
    | Ok b =>
        ∃ evs, trace (notify (I := example_imports) refusing_world 3 example_self
                        "" "hello" "info" example_state).2
               = trace example_state ++ evs
    | Raise e =>
        e = strip_of_none
        ∧ ∃ h r status_code text,
            requests_post refusing_world h r = Response status_code text
    | Diverge => False
    end.
Proof.
  destruct example_lists_in_heap as [Hp Ht].
  destruct example_lists_are_short as [H1 H2].
  split; [exact Hp|]. split; [exact Ht|]. split; [exact H1|]. split; [exact H2|].
  exact (dispatch_outcomes (I := example_imports) refusing_world 3 example_self
           "" "hello" "info" example_state Hp Ht H1 H2).
Defined.

Lemma dispatch_requests_witness :
  phone example_self ∈ dom (heap example_state)
  ∧ topics example_self ∈ dom (heap example_state)
  ∧ ∃ evs1 evs2,
      trace (notify (I := example_imports) example_world 3 example_self
               "" "hello" "info" example_state).2
      = trace example_state ++ evs1 ++ evs2
      ∧ posted_data evs1
        = map (λ no, @urlencode example_imports (publish_phone_payload "hello" no))
            (heap example_state !!! phone example_self)
      ∧ length (posted_data evs2)
        = 2 * length (heap example_state !!! topics example_self).
Proof.
  destruct example_lists_in_heap as [Hp Ht].
  split; [exact Hp|]. split; [exact Ht|].
  destruct (dispatch_requests (I := example_imports) example_world 3
              example_self "" "hello" "info" example_state _ true Hp Ht
              example_dispatch)
    as (evs1 & evs2 & Htr & Hd & _ & _ & Hl).
  exists evs1, evs2. split; [exact Htr|]. split; [exact Hd|exact Hl].
Defined.

Lemma dispatch_requests_are_signed_witness :
  phone example_self ∈ dom (heap example_state)
  ∧ topics example_self ∈ dom (heap example_state)
  ∧ ∃ evs,
      trace (notify (I := example_imports) example_world 3 example_self
               "" "hello" "info" example_state).2
      = trace example_state ++ evs
      ∧ Forall (event_ok example_self) evs.
Proof.
  destruct example_lists_in_heap as [Hp Ht].
  split; [exact Hp|]. split; [exact Ht|].
  exact (dispatch_requests_are_signed (I := example_imports) example_world 3
           example_self "" "hello" "info" example_state _ true Hp Ht
           example_dispatch).
Defined.

Lemma mixed_case_region_entry : region_entry "US-East-1".
Proof. eexists. vm_compute. reflexivity. Defined.

Lemma url_region_is_normal_witness :
  region_entry "US-East-1"
  ∧ region_of "US-East-1" = "us-east-1"
  ∧ region_entry (region_of "US-East-1")
  ∧ region_of (region_of "US-East-1") = region_of "US-East-1"
  ∧ Py.lower (region_of "US-East-1") = region_of "US-East-1"
  ∧ refusal (Some "AKIDEXAMPLE") (Some "secret") (Some (region_of "US-East-1"))
    ≠ Some invalid_region.
Proof.
  split; [exact mixed_case_region_entry|].
  split; [vm_compute; reflexivity|].
  destruct (url_region_is_normal "US-East-1" mixed_case_region_entry)
    as (_ & H1 & H2 & H3 & H4).
  split; [exact H1|]. split; [exact H2|]. split; [exact H3|].
  exact (H4 (Some "AKIDEXAMPLE") (Some "secret")).
Defined.

Lemma constructor_refusals_witness :
  ascii_option (Some " US-East-1") = true
  ∧ given (Some "AKIDEXAMPLE") ∧ given (Some "secret")
  ∧ region_given (Some " US-East-1")
  ∧ (∃ self st',
       __init__ "Apprise" true (Some "AKIDEXAMPLE") (Some "secret")
         (Some " US-East-1") example_recipients initial_state
       = (Ok self, st'))
  ∧ __init__ "Apprise" true (Some "AKIDEXAMPLE") (Some "")
      (Some " US-East-1") example_recipients initial_state
    = (Raise invalid_secret, initial_state).
Proof.
  assert (Ha : ascii_option (Some " US-East-1") = true) by reflexivity.
  assert (Hak : given (Some "AKIDEXAMPLE")) by (by eexists).
  assert (Hsk : given (Some "secret")) by (by eexists).
  assert (Hr : region_given (Some " US-East-1")).
  { eexists. split; [reflexivity|].
    exists [" "%char], "U"%char, "S"%char, (Py.chars "East"), ["1"%char], [].
    by split_and!. }
  split; [exact Ha|]. split; [exact Hak|]. split; [exact Hsk|]. split; [exact Hr|].
  split.
  - destruct (constructor_refusals "Apprise" true (Some "AKIDEXAMPLE")
                (Some "secret") (Some " US-East-1") example_recipients
                initial_state Ha) as [Hok _].
    apply Hok. by split_and!.
  - destruct (constructor_refusals "Apprise" true (Some "AKIDEXAMPLE")
                (Some "") (Some " US-East-1") example_recipients
                initial_state Ha) as (_ & _ & Hs & _).
    apply Hs; [exact Hak|]. by intros (s & [= <-] & ?).
Defined.

Lemma parse_url_splits_at_region_witness :
  forallb Py.ascii_text (@split_path example_imports example_path) = true
  ∧ list_find region_entry (@split_path example_imports example_path)
    = Some (2, "US-East-1")
  ∧ ∃ res,
      parse_url (I := example_imports) (Some ("AKIDEXAMPLE", example_path))
      = Some res
      ∧ res_access_key_id res = "AKIDEXAMPLE"
      ∧ res_secret_access_key res
        = Some "wJalrXUtnFEMI/K7MDENG+bPxRfiCYEXAMPLEKEY"
      ∧ res_region_name res = Some "us-east-1"
      ∧ res_recipients res = ["+15551234567"; "alerts"].
Proof.
  assert (Ha : forallb Py.ascii_text (@split_path example_imports example_path)
               = true) by (vm_compute; reflexivity).
  assert (Hf : list_find region_entry (@split_path example_imports example_path)
               = Some (2, "US-East-1")) by (vm_compute; reflexivity).
  split; [exact Ha|]. split; [exact Hf|].
  destruct (parse_url_splits_at_region (I := example_imports)
              "AKIDEXAMPLE" example_path Ha)
    as (_ & res & Hres & Hhost & Hcut).
  rewrite Hf in Hcut. destruct Hcut as (Hs & Hr & Hrec & _).
  exists res. split; [exact Hres|]. split; [exact Hhost|].
  split; [rewrite Hs; vm_compute; reflexivity|].
  split; [rewrite Hr; vm_compute; reflexivity|].
  rewrite Hrec. vm_compute. reflexivity.
Defined.
